(** * AIChatPanel: a shallow embedding of src/Gui/AIChatPanel.{h,cpp}

    The panel keeps a conversation history, shows it as bubbles in a
    vertical layout, fakes an assistant reply with a one second single-shot
    timer, and saves/loads the history as a JSON array.

    The file has three parts.  Part I embeds the code: first the Qt classes
    the panel calls (strings, date-times, JSON values, files), then the
    structures and member functions of AIChatPanel.cpp, written in a small
    state monad over the panel's members and its environment.  Part II
    states and proves the properties C1 to C10; Part III further properties,
    numbered from X1, of the event loop, the file format, the bubble
    formatter and the collapsing of the panel. *)

From stdpp Require Import base option list strings gmap.
From Stdlib Require Import ZArith NArith Lia Ascii.

#[local] Set Warnings "-register-all".
#[local] Open Scope Z_scope.

(* ====================================================================== *)
(** * Part I.  The embedding                                               *)
(* ====================================================================== *)

(** ** QString

    A QString is a sequence of UTF-16 code units.  Literals of the source
    that are plain ASCII are written with [qs]. *)

Module QStr.

Definition QChar := N.
Definition QString := list QChar.

Definition qs (s : string) : QString :=
  map N_of_ascii (String.list_ascii_of_string s).
#[global] Arguments qs s%_string.

(** The characters the code names. *)
Definition LF : QChar := 10%N.

Definition isEmpty (s : QString) : bool :=
  match s with [] => true | _ => false end.

(** QChar::isSpace: the ASCII blanks, NEL, NBSP and the Unicode separator
    categories Zs, Zl and Zp. *)
Definition isSpace (c : QChar) : bool :=
  ((c =? 32) || ((9 <=? c) && (c <=? 13)) || (c =? 133) || (c =? 160)
   || (c =? 5760) || ((8192 <=? c) && (c <=? 8202))
   || (c =? 8232) || (c =? 8233) || (c =? 8239) || (c =? 8287)
   || (c =? 12288))%N.

Fixpoint skipSpaces (s : QString) : QString :=
  match s with
  | c :: s' => if isSpace c then skipSpaces s' else s
  | [] => []
  end.

(** QString::trimmed: whitespace removed from the start and the end. *)
Definition trimmed (s : QString) : QString :=
  rev (skipSpaces (rev (skipSpaces s))).

(** Lower-casing of one code unit.  Basic Latin and Latin-1 follow the
    Unicode tables.  Above U+00FF only two code points lower-case to
    something with an ASCII letter in it: KELVIN SIGN (to k) and U+0130 (to
    i followed by COMBINING DOT ABOVE); all others lower-case to code units
    above U+007F and are kept as they are, which no search for an ASCII
    needle can tell from the real mapping. *)
Definition lowerUnit (c : QChar) : QString :=
  (if (65 <=? c) && (c <=? 90) then [c + 32]
   else if (192 <=? c) && (c <=? 222) && negb (c =? 215) then [c + 32]
   else if c =? 8490 then [107]
   else if c =? 304 then [105; 775]
   else [c])%N.

(** QString::toLower. *)
Definition toLower (s : QString) : QString := flat_map lowerUnit s.

Fixpoint startsWith (s p : QString) {struct p} : bool :=
  match p, s with
  | [], _ => true
  | a :: p', b :: s' => (a =? b)%N && startsWith s' p'
  | _ :: _, [] => false
  end.

(** QString::contains(needle), case sensitive. *)
Fixpoint contains (s needle : QString) : bool :=
  startsWith s needle ||
  match s with
  | [] => false
  | _ :: s' => contains s' needle
  end.

(** QString::replace(before, after) for a non-empty [before]: every
    occurrence, left to right, occurrences do not overlap.  [skip] counts
    the code units of an occurrence still to be passed over. *)
Fixpoint replace_from (before after : QString) (skip : nat) (s : QString)
  : QString :=
  match s with
  | [] => []
  | c :: s' =>
    match skip with
    | S k => replace_from before after k s'
    | O =>
      if startsWith s before
      then after ++ replace_from before after (length before - 1) s'
      else c :: replace_from before after 0 s'
    end
  end.

Definition replace (before after s : QString) : QString :=
  match before with
  | [] => s
  | _ => replace_from before after 0 s
  end.

(** *** The three regular expressions of the bubble formatter

    Each has the shape  D(.+?)D  for a literal delimiter D.  A match at the
    start of [s] is: D, then the fewest code units (at least one, none of
    them a line feed, which the dot does not match) after which D follows
    again.  [lazySpan] looks for that closing D; [cap] holds, in reverse,
    the code units captured so far.  The subject is taken to be well-formed
    UTF-16, so that counting in code units or in characters finds the same
    spans (the delimiters are ASCII). *)
Fixpoint lazySpan (D : QString) (cap : QString) (s : QString)
  : option (QString * nat) :=
  if startsWith s D then Some (rev cap, length cap)
  else match s with
       | [] => None
       | c :: s' => if (c =? LF)%N then None else lazySpan D (c :: cap) s'
       end.

(** The match of  D(.+?)D  anchored at the start of [s]: the captured
    group and the length of the whole match. *)
Definition matchSpanAt (D : QString) (s : QString) : option (QString * nat) :=
  if startsWith s D then
    match drop (length D) s with
    | c :: s' =>
      if (c =? LF)%N then None
      else match lazySpan D [c] s' with
           | Some (cap, n) => Some (cap, length D + n + length D)%nat
           | None => None
           end
    | [] => None
    end
  else None.

(** QString::replace(QRegularExpression("D(.+?)D"), "open\1close"): global
    replacement; the search resumes after each match. *)
Fixpoint replaceSpans_from (D opening closing : QString) (skip : nat)
  (s : QString) : QString :=
  match s with
  | [] => []
  | c :: s' =>
    match skip with
    | S k => replaceSpans_from D opening closing k s'
    | O =>
      match matchSpanAt D s with
      | Some (cap, n) =>
        opening ++ cap ++ closing
        ++ replaceSpans_from D opening closing (n - 1) s'
      | None => c :: replaceSpans_from D opening closing 0 s'
      end
    end
  end.

Definition replaceSpans (D opening closing s : QString) : QString :=
  replaceSpans_from D opening closing 0 s.

(** One decimal digit of a place marker (the templates of this file have
    ASCII digits only). *)
Definition digitValue (c : QChar) : option nat :=
  if ((48 <=? c) && (c <=? 57))%N then Some (N.to_nat (c - 48)) else None.

(** A place marker %N or %NN (also %LN) at the start of [s]: its number and
    its length. *)
Definition markerAt (s : QString) : option (nat * nat) :=
  match s with
  | 37%N :: r =>
    let '(r, l) := match r with 76%N :: r' => (r', 2%nat) | _ => (r, 1%nat) end in
    match r with
    | d1 :: r1 =>
      match digitValue d1 with
      | Some v1 =>
        match r1 with
        | d2 :: _ =>
          match digitValue d2 with
          | Some v2 => Some (10 * v1 + v2, S (S l))%nat
          | None => Some (v1, S l)
          end
        | [] => Some (v1, S l)
        end
      | None => None
      end
    | [] => None
    end
  | _ => None
  end.

(** The lowest marker number in the template, if any. *)
Fixpoint lowestMarker (s : QString) : option nat :=
  match s with
  | [] => None
  | _ :: s' =>
    match markerAt s, lowestMarker s' with
    | Some (n, _), Some m => Some (Nat.min n m)
    | Some (n, _), None => Some n
    | None, r => r
    end
  end.

Fixpoint arg_from (low : nat) (a : QString) (skip : nat) (s : QString)
  : QString :=
  match s with
  | [] => []
  | c :: s' =>
    match skip with
    | S k => arg_from low a k s'
    | O =>
      match markerAt s with
      | Some (n, l) =>
        if Nat.eqb n low then a ++ arg_from low a (l - 1) s'
        else c :: arg_from low a 0 s'
      | None => c :: arg_from low a 0 s'
      end
    end
  end.

(** QString::arg(a): every occurrence of the lowest-numbered place marker
    is replaced by [a]; a template without marker is returned as it is. *)
Definition arg (template a : QString) : QString :=
  match lowestMarker template with
  | Some low => arg_from low a 0 template
  | None => template
  end.

(** *** What the replacements are meant to do

    [SpanAt D s cap rest]: the text [s] begins with D, a captured text, D
    again, and goes on with [rest]; the captured text is not empty, stays on
    one line, and is the shortest possible: no D begins inside it after its
    first code unit. *)
Definition SpanAt (D s cap rest : QString) : Prop :=
  s = D ++ cap ++ D ++ rest
  ∧ cap ≠ []
  ∧ (LF ∉ cap)
  ∧ ∀ k, (0 < k < length cap)%nat → ¬ (D `prefix_of` drop k (cap ++ D ++ rest)).

(** [Substituted D opening closing s out]: reading [s] from the left,
    every span found is replaced by its captured text between [opening] and
    [closing], the reading goes on after the span, and a code unit at which
    no span begins is copied. *)
Inductive Substituted (D opening closing : QString)
  : QString → QString → Prop :=
| Substituted_end :
    Substituted D opening closing [] []
| Substituted_span s cap rest out :
    SpanAt D s cap rest →
    Substituted D opening closing rest out →
    Substituted D opening closing s (opening ++ cap ++ closing ++ out)
| Substituted_copy c s out :
    (∀ cap rest, ¬ SpanAt D (c :: s) cap rest) →
    Substituted D opening closing s out →
    Substituted D opening closing (c :: s) (c :: out).

(** Every line feed turned into <br>. *)
Definition lineBreaks (s : QString) : QString :=
  flat_map (λ c, if (c =? LF)%N then qs "<br>" else [c]) s.

End QStr.
Export QStr.


(** ** QDateTime

    A date-time is null (what the default constructor and a failed parse
    give) or a calendar date, a time of day with milliseconds and a time
    specification.  [QDateTime::currentDateTime] gives local time. *)

Module QDT.

Inductive TimeSpec := LocalTime | UTC.

Record QDate := mkQDate { year : Z; month : Z; day : Z }.
Record QTime := mkQTime { hour : Z; minute : Z; second : Z; msec : Z }.

Inductive QDateTime :=
| NullDateTime
| DateTime (d : QDate) (t : QTime) (spec : TimeSpec).

(** QDate::isLeapYear; there is no year 0. *)
Definition isLeapYear (y : Z) : bool :=
  let y := if y <? 1 then y + 1 else y in
  ((y mod 4 =? 0) && negb (y mod 100 =? 0)) || (y mod 400 =? 0).

Definition daysInMonth (y m : Z) : Z :=
  if m =? 2 then (if isLeapYear y then 29 else 28)
  else if (m =? 4) || (m =? 6) || (m =? 9) || (m =? 11) then 30
  else 31.

Definition QDate_isValid (d : QDate) : bool :=
  negb (year d =? 0) && (1 <=? month d) && (month d <=? 12)
  && (1 <=? day d) && (day d <=? daysInMonth (year d) (month d)).

Definition QTime_isValid (t : QTime) : bool :=
  (0 <=? hour t) && (hour t <? 24) && (0 <=? minute t) && (minute t <? 60)
  && (0 <=? second t) && (second t <? 60) && (0 <=? msec t) && (msec t <? 1000).

Definition isValid (dt : QDateTime) : bool :=
  match dt with
  | NullDateTime => false
  | DateTime d t _ => QDate_isValid d && QTime_isValid t
  end.

Definition digitChar (d : Z) : QChar := Z.to_N (48 + d).

(** %02d and %04d of a number in range. *)
Definition pad2 (n : Z) : QString := [digitChar (n / 10); digitChar (n mod 10)].
Definition pad4 (n : Z) : QString :=
  [digitChar (n / 1000); digitChar (n / 100 mod 10);
   digitChar (n / 10 mod 10); digitChar (n mod 10)].

Definition dash : QChar := 45%N.
Definition colon : QChar := 58%N.
Definition dot : QChar := 46%N.
Definition charT : QChar := 84%N.
Definition charZ : QChar := 90%N.

(** QDateTime::toString(Qt::ISODate): yyyy-MM-ddTHH:mm:ss, followed by Z
    for UTC.  The format has no milliseconds (those are Qt::ISODateWithMs).
    An invalid date-time, or a year outside 0..9999, gives the empty
    string. *)
Definition toString_ISODate (dt : QDateTime) : QString :=
  match dt with
  | NullDateTime => []
  | DateTime d t spec =>
    if isValid dt && (0 <=? year d) && (year d <=? 9999) then
      pad4 (year d) ++ [dash] ++ pad2 (month d) ++ [dash] ++ pad2 (day d)
      ++ [charT]
      ++ pad2 (hour t) ++ [colon] ++ pad2 (minute t) ++ [colon]
      ++ pad2 (second t)
      ++ match spec with LocalTime => [] | UTC => [charZ] end
    else []
  end.

Definition digitOf (c : QChar) : option Z :=
  if ((48 <=? c) && (c <=? 57))%N then Some (Z.of_N c - 48) else None.

Fixpoint number_from (acc : Z) (ds : QString) : option Z :=
  match ds with
  | [] => Some acc
  | c :: ds' => d ← digitOf c; number_from (10 * acc + d) ds'
  end.

Definition number (ds : QString) : option Z := number_from 0 ds.

Definition parseDate (s : QString) : option QDate :=
  match s with
  | [y1; y2; y3; y4; s1; m1; m2; s2; d1; d2] =>
    if ((s1 =? dash) && (s2 =? dash))%N then
      y ← number [y1; y2; y3; y4];
      m ← number [m1; m2];
      d ← number [d1; d2];
      let date := mkQDate y m d in
      if QDate_isValid date then Some date else None
    else None
  | _ => None
  end.

(** The time of day and what follows it: nothing (local time), Z (UTC),
    each optionally after a fraction .zzz of a second. *)
Definition parseTime (s : QString) : option (QTime * TimeSpec) :=
  match s with
  | h1 :: h2 :: c1 :: m1 :: m2 :: c2 :: s1 :: s2 :: rest =>
    if ((c1 =? colon) && (c2 =? colon))%N then
      h ← number [h1; h2];
      m ← number [m1; m2];
      sec ← number [s1; s2];
      '(ms, spec) ←
        match rest with
        | [] => Some (0, LocalTime)
        | [z] => if (z =? charZ)%N then Some (0, UTC) else None
        | [p; z1; z2; z3] =>
          if (p =? dot)%N
          then ms ← number [z1; z2; z3]; Some (ms, LocalTime) else None
        | [p; z1; z2; z3; z] =>
          if ((p =? dot) && (z =? charZ))%N
          then ms ← number [z1; z2; z3]; Some (ms, UTC) else None
        | _ => None
        end;
      let t := mkQTime h m sec ms in
      if QTime_isValid t then Some (t, spec) else None
    else None
  | _ => None
  end.

(** QDateTime::fromString(text, Qt::ISODate), on the texts a conversation
    file of the panel holds: the ISO 8601 extended forms yyyy-MM-dd and
    yyyy-MM-ddTHH:mm:ss[.zzz][Z], which is everything [toString_ISODate]
    writes, and the texts that do not begin with a date, the empty text of
    a missing member among them, which give the null date-time.  Qt reads
    more than that: a blank or a lower-case t between date and time, a
    lower-case z, a numeric UTC offset, a time without seconds, 24:00.  Of
    such a text, in a file written by other hands, this function gives the
    null date-time where Qt gives a date-time.  The properties that read a
    time stamp back take it from a text [toString_ISODate] wrote or from a
    member that is missing or not a string; the others say nothing of the
    time stamps a load leaves. *)
Definition fromString_ISODate (s : QString) : QDateTime :=
  match parseDate (take 10 s) with
  | None => NullDateTime
  | Some d =>
    match drop 10 s with
    | [] => DateTime d (mkQTime 0 0 0 0) LocalTime
    | sep :: timeText =>
      if (sep =? charT)%N then
        match parseTime timeText with
        | Some (t, spec) => DateTime d t spec
        | None => NullDateTime
        end
      else NullDateTime
    end
  end.

(** The date-time with its milliseconds set to zero. *)
Definition withoutMsecs (dt : QDateTime) : QDateTime :=
  match dt with
  | NullDateTime => NullDateTime
  | DateTime d t spec =>
    DateTime d (mkQTime (hour t) (minute t) (second t) 0) spec
  end.

(** The date-times [toString_ISODate] has a text for, and the null
    date-time, whose text is empty. *)
Definition storable (dt : QDateTime) : bool :=
  match dt with
  | NullDateTime => true
  | DateTime d _ _ => isValid dt && (0 <=? year d) && (year d <=? 9999)
  end.

(** The shape yyyy-MM-ddTHH:mm:ss of ISO 8601, with an optional Z. *)
Definition isDigit (c : QChar) : bool := ((48 <=? c) && (c <=? 57))%N.

Definition iso8601 (s : QString) : bool :=
  match s with
  | y1 :: y2 :: y3 :: y4 :: s1 :: m1 :: m2 :: s2 :: d1 :: d2 :: t
    :: h1 :: h2 :: c1 :: n1 :: n2 :: c2 :: e1 :: e2 :: zone =>
    forallb isDigit [y1; y2; y3; y4; m1; m2; d1; d2; h1; h2; n1; n2; e1; e2]
    && (s1 =? dash)%N && (s2 =? dash)%N && (t =? charT)%N
    && (c1 =? colon)%N && (c2 =? colon)%N
    && match zone with
       | [] => true
       | [z] => (z =? charZ)%N
       | _ => false
       end
  | _ => false
  end.



End QDT.
Export QDT.

(** ** JSON values, documents and their text

    A JSON number is a double; the embedding keeps its integer value when
    it is a whole number and one tag for all the others, which is what
    [toInt] can tell apart. *)

Module QJson.

Inductive JsonNumber := Whole (z : Z) | NotWhole.

Inductive QJsonValue :=
| Null
| Bool (b : bool)
| Double (d : JsonNumber)
| String (s : QString)
| Array (a : list QJsonValue)
| Object (o : gmap QString QJsonValue)
| Undefined.

Abbreviation QJsonArray := (list QJsonValue).
Abbreviation QJsonObject := (gmap QString QJsonValue).

(** QJsonValue::toInt(): the number when it is whole and fits an int,
    otherwise the default 0. *)
Definition toInt (v : QJsonValue) : Z :=
  match v with
  | Double (Whole z) =>
    if (-2147483648 <=? z) && (z <=? 2147483647) then z else 0
  | _ => 0
  end.

(** QJsonValue::toString(): the string, or the null string. *)
Definition toString (v : QJsonValue) : QString :=
  match v with String s => s | _ => [] end.

(** QJsonValue::toObject(): the object, or an empty object. *)
Definition toObject (v : QJsonValue) : QJsonObject :=
  match v with Object o => o | _ => ∅ end.

(** QJsonObject::operator[](key) const: the member, or Undefined. *)
Definition member (o : QJsonObject) (key : QString) : QJsonValue :=
  default Undefined (o !! key).

(** A document holds an array or an object, or is null (also the result of
    parsing a text that is not JSON). *)
Inductive QJsonDocument :=
| NullDocument
| ArrayDocument (a : QJsonArray)
| ObjectDocument (o : QJsonObject).

Definition isArray (doc : QJsonDocument) : bool :=
  match doc with ArrayDocument _ => true | _ => false end.

Definition array (doc : QJsonDocument) : QJsonArray :=
  match doc with ArrayDocument a => a | _ => [] end.

(** The text form of documents: [toJson] writes it and [fromJson] parses
    it.  The byte-level syntax is Qt's and is not reproduced; the panel
    code is embedded over any pair of functions, and the one property a
    proof may ask of them is that parsing what was written gives the
    document back. *)
Class JsonText := {
  QByteArray : Type;
  toJson : QJsonDocument → QByteArray;
  fromJson : QByteArray → QJsonDocument
}.


(** The text of a document taken to be the document itself. *)
Definition documentText : JsonText :=
  {| QByteArray := QJsonDocument; toJson := λ d, d; fromJson := λ d, d |}.

(** *** A JSON text

    An instance of [JsonText] that is a text: the compact JSON text
    (RFC 8259) of a document, in code units below 128 (the others are
    written as \u escapes; an undefined value and a number that is not
    whole have one text each, null and 0.5), and a parser of JSON texts.
    It lays the text out differently from QJsonDocument::toJson(), which
    indents; both are texts of the same JSON value. *)

Definition hexDigit (n : N) : N := (if n <? 10 then 48 + n else 87 + n)%N.

Definition escapeUnit (c : N) : list N :=
  (if c =? 34 then [92; 34]
   else if c =? 92 then [92; 92]
   else if (c <? 32) || (127 <=? c) then
     [92; 117; hexDigit (c / 4096 mod 16); hexDigit (c / 256 mod 16);
      hexDigit (c / 16 mod 16); hexDigit (c mod 16)]
   else [c])%N.

Definition writeString (s : QString) : list N :=
  [34%N] ++ flat_map escapeUnit s ++ [34%N].

Fixpoint writeDigits (fuel : nat) (n : N) (acc : list N) : list N :=
  match fuel with
  | O => acc
  | S fuel' =>
    let acc' := (48 + n mod 10)%N :: acc in
    if (n <? 10)%N then acc' else writeDigits fuel' (n / 10)%N acc'
  end.

Definition writeInteger (z : Z) : list N :=
  let n := Z.abs_N z in
  (if z <? 0 then [45%N] else [])
  ++ writeDigits (S (N.to_nat (N.log2 n))) n [].

Definition writeNumber (d : JsonNumber) : list N :=
  match d with
  | Whole z => writeInteger z
  | NotWhole => qs "0.5"
  end.

Fixpoint joined (parts : list (list N)) : list N :=
  match parts with
  | [] => []
  | [part] => part
  | part :: parts' => part ++ [44%N] ++ joined parts'
  end.

Fixpoint writeValue (v : QJsonValue) : list N :=
  match v with
  | Null | Undefined => qs "null"
  | Bool true => qs "true"
  | Bool false => qs "false"
  | Double d => writeNumber d
  | String s => writeString s
  | Array a => [91%N] ++ joined (map writeValue a) ++ [93%N]
  | Object o =>
    [123%N]
    ++ joined (map_fold (λ k v' acc,
                 (writeString k ++ [58%N] ++ writeValue v') :: acc) [] o)
    ++ [125%N]
  end.

Definition writeDocument (doc : QJsonDocument) : list N :=
  match doc with
  | NullDocument => []
  | ArrayDocument a => writeValue (Array a)
  | ObjectDocument o => writeValue (Object o)
  end.

(** The parser.  [fuel] bounds the depth of nesting and the number of
    elements of an array or members of an object. *)
Definition isWs (c : N) : bool :=
  ((c =? 32) || (c =? 9) || (c =? 10) || (c =? 13))%N.

Fixpoint skipWs (s : list N) : list N :=
  match s with
  | c :: s' => if isWs c then skipWs s' else s
  | [] => []
  end.

Definition hexValue (c : N) : option N :=
  (if (48 <=? c) && (c <=? 57) then Some (c - 48)
   else if (97 <=? c) && (c <=? 102) then Some (c - 87)
   else if (65 <=? c) && (c <=? 70) then Some (c - 55)
   else None)%N.

Definition escaped (c : N) : option N :=
  (if c =? 34 then Some 34 else if c =? 92 then Some 92
   else if c =? 47 then Some 47 else if c =? 98 then Some 8
   else if c =? 102 then Some 12 else if c =? 110 then Some 10
   else if c =? 114 then Some 13 else if c =? 116 then Some 9
   else None)%N.

(** The rest of a string, after its opening quote. *)
Fixpoint readString (s : list N) (acc : QString) : option (QString * list N) :=
  match s with
  | [] => None
  | c :: r =>
    if (c =? 34)%N then Some (rev acc, r)
    else if (c =? 92)%N then
      match r with
      | e :: r' =>
        if (e =? 117)%N then
          match r' with
          | h1 :: h2 :: h3 :: h4 :: r'' =>
            a ← hexValue h1; b ← hexValue h2; c' ← hexValue h3; d ← hexValue h4;
            readString r'' ((4096 * a + 256 * b + 16 * c' + d)%N :: acc)
          | _ => None
          end
        else u ← escaped e; readString r' (u :: acc)
      | [] => None
      end
    else if (c <? 32)%N then None
    else readString r (c :: acc)
  end.

(** The digits at the start of a text: their value, their number and the rest. *)
Fixpoint readDigits (s : list N) (acc : Z) (n : nat) : Z * nat * list N :=
  match s with
  | c :: r => if isDigit c then readDigits r (10 * acc + Z.of_N (c - 48)) (S n)
              else (acc, n, s)
  | [] => (acc, n, [])
  end.

(** A number: -? digits (. digits)? ([eE] [+-]? digits)?.  The value is
    whole when it is an integer. *)
Definition readNumber (s : list N) : option (JsonNumber * list N) :=
  let '(negative, s1) :=
    match s with
    | 45%N :: r => (true, r)
    | _ => (false, s)
    end in
  let '(int, n, s2) := readDigits s1 0 0 in
  if Nat.eqb n 0 then None
  else if match s1 with 48%N :: _ => negb (Nat.eqb n 1) | _ => false end
  then None   (* no leading zero *)
  else
    let '(frac, k, s3) :=
      match s2 with
      | 46%N :: r => let '(f, k, r') := readDigits r 0 0 in (f, k, r')
      | _ => (0, 0%nat, s2)
      end in
    if match s2 with 46%N :: _ => Nat.eqb k 0 | _ => false end then None
    else
      let exponent : option (Z * list N) :=
        match s3 with
        | e :: r =>
          if ((e =? 101) || (e =? 69))%N then
            let '(neg, r1) :=
              match r with
              | 45%N :: r' => (true, r')
              | 43%N :: r' => (false, r')
              | _ => (false, r)
              end in
            let '(x, m, r2) := readDigits r1 0 0 in
            if Nat.eqb m 0 then None
            else Some (if neg then - x else x, r2)
          else Some (0, s3)
        | [] => Some (0, s3)
        end in
      match exponent with
      | None => None
      | Some (x, rest) =>
        let mantissa := int * 10 ^ Z.of_nat k + frac in
        let shift := x - Z.of_nat k in
        let magnitude :=
          if 0 <=? shift then Some (mantissa * 10 ^ shift)
          else if mantissa mod 10 ^ (- shift) =? 0
               then Some (mantissa / 10 ^ (- shift)) else None in
        Some (match magnitude with
              | Some m => Whole (if negative then - m else m)
              | None => NotWhole
              end, rest)
      end.

Definition startsWithText (s word : list N) : option (list N) :=
  if bool_decide (take (length word) s = word) then Some (drop (length word) s)
  else None.

Section Items.
Context (readValue : list N → option (QJsonValue * list N)).

(** The elements of an array after the first, up to the closing bracket. *)
Fixpoint readElements (fuel : nat) (s : list N) (acc : list QJsonValue)
  : option (list QJsonValue * list N) :=
  match fuel with
  | O => None
  | S fuel' =>
    match skipWs s with
    | c :: r =>
      if (c =? 93)%N then Some (rev acc, r)
      else if (c =? 44)%N then
        '(v, r') ← readValue r; readElements fuel' r' (v :: acc)
      else None
    | [] => None
    end
  end.

Definition readMember (s : list N) : option (QString * QJsonValue * list N) :=
  match skipWs s with
  | c :: r =>
    if (c =? 34)%N then
      '(k, r1) ← readString r [];
      match skipWs r1 with
      | c' :: r2 =>
        if (c' =? 58)%N then '(v, r3) ← readValue r2; Some (k, v, r3)
        else None
      | [] => None
      end
    else None
  | [] => None
  end.

Fixpoint readMembers (fuel : nat) (s : list N) (acc : gmap QString QJsonValue)
  : option (gmap QString QJsonValue * list N) :=
  match fuel with
  | O => None
  | S fuel' =>
    match skipWs s with
    | c :: r =>
      if (c =? 125)%N then Some (acc, r)
      else if (c =? 44)%N then
        '(k, v, r') ← readMember r; readMembers fuel' r' (<[k := v]> acc)
      else None
    | [] => None
    end
  end.
End Items.

Fixpoint readValue (fuel : nat) (s : list N) : option (QJsonValue * list N) :=
  match fuel with
  | O => None
  | S fuel' =>
    match skipWs s with
    | [] => None
    | c :: r =>
      if (c =? 34)%N then '(str, r') ← readString r []; Some (String str, r')
      else if (c =? 91)%N then
        match skipWs r with
        | c' :: r' =>
          if (c' =? 93)%N then Some (Array [], r')
          else
            '(v, r1) ← readValue fuel' r;
            '(a, r2) ← readElements (readValue fuel') fuel' r1 [v];
            Some (Array a, r2)
        | [] => None
        end
      else if (c =? 123)%N then
        match skipWs r with
        | c' :: r' =>
          if (c' =? 125)%N then Some (Object ∅, r')
          else
            '(k, v, r1) ← readMember (readValue fuel') r;
            '(o, r2) ← readMembers (readValue fuel') fuel' r1 {[ k := v ]};
            Some (Object o, r2)
        | [] => None
        end
      else if (c =? 116)%N then r' ← startsWithText r (qs "rue"); Some (Bool true, r')
      else if (c =? 102)%N then r' ← startsWithText r (qs "alse"); Some (Bool false, r')
      else if (c =? 110)%N then r' ← startsWithText r (qs "ull"); Some (Null, r')
      else '(d, r') ← readNumber (c :: r); Some (Double d, r')
    end
  end.

Definition readDocument (text : list N) : QJsonDocument :=
  match readValue (S (length text)) text with
  | Some (Array a, rest) =>
    match skipWs rest with [] => ArrayDocument a | _ => NullDocument end
  | Some (Object o, rest) =>
    match skipWs rest with [] => ObjectDocument o | _ => NullDocument end
  | _ => NullDocument
  end.

Definition jsonText : JsonText :=
  {| QByteArray := list N; toJson := writeDocument; fromJson := readDocument |}.

End QJson.
Export QJson.

(** ** Files

    What [QFile::open], [readAll] and [write] do, as far as the panel can
    tell: the content of the files that can be opened for reading, the
    paths that cannot be opened for writing, and the paths that do not keep
    what is written to them, each with what it reads as after a write: a
    device such as /dev/null, a file one may write and not read (it cannot
    be opened for reading afterwards), a file on a disk that is full.  A
    path stands for the file it names; no property of this development is
    about two paths.  Opening for writing truncates; the code ignores the
    result of [write]. *)

Module QFileSystem.
Section Files.
Context {J : JsonText}.

Record FileSystem := mkFileSystem {
  files : gmap QString QByteArray;
  unwritable : gset QString;
  lossy : gmap QString (option QByteArray)
}.

(** open(QIODevice::ReadOnly) followed by readAll(). *)
Definition openRead (fs : FileSystem) (path : QString) : option QByteArray :=
  files fs !! path.

(** open(QIODevice::WriteOnly). *)
Definition openWrite (fs : FileSystem) (path : QString) : bool :=
  bool_decide (path ∉ unwritable fs).

(** write(data) and close(), on a file opened for writing. *)
Definition writeAll (fs : FileSystem) (path : QString) (data : QByteArray)
  : FileSystem :=
  mkFileSystem
    (match lossy fs !! path with
     | None => <[path := data]> (files fs)
     | Some (Some other) => <[path := other]> (files fs)
     | Some None => delete path (files fs)
     end)
    (unwritable fs) (lossy fs).

End Files.
End QFileSystem.
Export QFileSystem.

(** ** AIChatPanel.h / AIChatPanel.cpp *)

Module Gui.

(** tr(): the translation of a source text.  The repository ships no
    catalogue for the texts of this class, so the source text comes back. *)
Definition tr (s : QString) : QString := s.

(** *** struct AIChatMessage *)

(** enum Role { User, Assistant, System }: an unscoped enumeration without
    a fixed underlying type.  A Role holds an int; three of the values have
    a name.  The casts between Role and int keep the value: C++ defines
    that for the values 0..3 and leaves the others undefined, and the
    compilers FreeCAD is built with keep those as well.  The embedding holds
    the value as an integer; what lies outside the range of int does not
    occur in the code and is read modulo 2^32. *)
Definition Role := Z.
Definition User : Role := 0.
Definition Assistant : Role := 1.
Definition System : Role := 2.

(** The values of a 32-bit int, and an integer read as one. *)
Definition isInt (z : Z) : bool :=
  (-2147483648 <=? z) && (z <=? 2147483647).

Definition int32 (z : Z) : Z :=
  (z + 2147483648) mod 4294967296 - 2147483648.

(** static_cast<int>(role) *)
Definition Role_to_int (r : Role) : Z := int32 r.

(** static_cast<AIChatMessage::Role>(n), of an int [n]. *)
Definition Role_of_int (n : Z) : Role := n.

Record AIChatMessage := mkMessage {
  role : Role;
  content : QString;
  timestamp : QDateTime;
  isLoading : bool   (* = false unless set *)
}.

(** *** class AIChatBubble

    Of the widget, the message it holds and the rich text of its content
    label are kept; the icon and the style sheet, chosen by role in setupUi,
    are presentation only. *)

Record AIChatBubble := mkBubble {
  m_message : AIChatMessage;
  m_contentLabel : QString
}.

Definition boldOpen := qs "<b>".
Definition boldClose := qs "</b>".
Definition italicOpen := qs "<i>".
Definition italicClose := qs "</i>".
Definition codeOpen := qs "<code style='background:#e8e8e8;padding:2px;'>".
Definition codeClose := qs "</code>".

(** AIChatBubble::formatContent *)
Definition formatContent (content : QString) : QString :=
  let formatted := content in
  (* Bold: **text** -> <b>text</b> *)
  let formatted := replaceSpans (qs "**") boldOpen boldClose formatted in
  (* Italic: *text* -> <i>text</i> *)
  let formatted := replaceSpans (qs "*") italicOpen italicClose formatted in
  (* Code: `text` -> <code>text</code> *)
  let formatted := replaceSpans (qs "`") codeOpen codeClose formatted in
  (* Line breaks *)
  let formatted := replace [LF] (qs "<br>") formatted in
  formatted.

(** AIChatBubble::setContent *)
Definition setContent (text : QString) (b : AIChatBubble) : AIChatBubble :=
  let m := m_message b in
  mkBubble (mkMessage (role m) text (timestamp m) (isLoading m))
           (formatContent text).

(** AIChatBubble::setLoading *)
Definition setLoading (loading : bool) (b : AIChatBubble) : AIChatBubble :=
  let m := m_message b in
  let b := mkBubble (mkMessage (role m) (content m) (timestamp m) loading)
                    (m_contentLabel b) in
  if loading then mkBubble (m_message b) (tr (qs "Thinking..."))
  else setContent (content (m_message b)) b.

(** AIChatBubble::AIChatBubble *)
Definition AIChatBubble_new (message : AIChatMessage) : AIChatBubble :=
  let b := mkBubble message [] in          (* m_message(message), setupUi() *)
  let b := setContent (content message) b in
  setLoading (isLoading message) b.

(** *** The messages layout

    A QVBoxLayout is the list of its items, top to bottom.  A widget is
    known by its address; the bubble a widget item shows is kept with it
    (no bubble is changed after its construction). *)

Definition WidgetId := nat.

Inductive QLayoutItem :=
| WidgetItem (w : WidgetId) (bubble : AIChatBubble)
| SpacerItem.

Definition count (l : list QLayoutItem) : Z := Z.of_nat (length l).

(** QBoxLayout::insertWidget(index, w); a negative index appends. *)
Definition insertWidget (index : Z) (it : QLayoutItem) (l : list QLayoutItem)
  : list QLayoutItem :=
  if index <? 0 then l ++ [it]
  else take (Z.to_nat index) l ++ it :: drop (Z.to_nat index) l.

Definition holds (w : WidgetId) (it : QLayoutItem) : bool :=
  match it with
  | WidgetItem w' _ => Nat.eqb w w'
  | SpacerItem => false
  end.

(** QLayout::removeWidget(w) *)
Definition removeWidget (w : WidgetId) (l : list QLayoutItem)
  : list QLayoutItem :=
  List.filter (λ it, negb (holds w it)) l.

(** The loop  while (count() > 1) { delete takeAt(0) }  of
    clearConversation. *)
Fixpoint takeAllButLast (l : list QLayoutItem) : list QLayoutItem :=
  match l with
  | _ :: (_ :: _) as rest => takeAllButLast rest
  | _ => l
  end.

(** *** Signals, timers, network replies *)

Inductive Signal :=
| messageSent (message : QString)
| responseReceived (response : QString)
| errorOccurred (error : QString)
| collapseStateChanged (collapsed : bool).

(** The two closures handed to QTimer::singleShot: the one of
    scrollToBottom (100 ms) and the one of sendMessage (1000 ms), which
    captures the message by value. *)
Inductive Timer :=
| ScrollTimer
| ResponseTimer (message : QString).

Definition NoError : Z := 0.

Record QNetworkReply := mkReply {
  error : Z;               (* QNetworkReply::NetworkError *)
  errorString : QString
}.

(** *** The texts *)

Definition welcomeText : QString :=
  tr (qs "Welcome to FreeCAD AI Assistant!" ++ [LF; LF]
    ++ qs "You can ask questions about:" ++ [LF] ++ [8226%N]
    ++ qs " CAD modeling techniques" ++ [LF] ++ [8226%N]
    ++ qs " FreeCAD commands and workflows" ++ [LF] ++ [8226%N]
    ++ qs " Part design and sketching" ++ [LF] ++ [8226%N]
    ++ qs " And much more!" ++ [LF; LF]
    ++ qs "Configure your API settings using the gear button above.").

Definition helpResponse : QString :=
  tr (qs "I'm here to help you with FreeCAD!" ++ [LF; LF]
    ++ qs "**Common tasks:**" ++ [LF]
    ++ qs "- Create a new document: `File > New`" ++ [LF]
    ++ qs "- Start a sketch: Select a face and click the sketch icon" ++ [LF]
    ++ qs "- Create a pad: Exit sketch and use the pad tool" ++ [LF; LF]
    ++ qs "What would you like to know more about?").

Definition sketchResponse : QString :=
  tr (qs "**Sketching in FreeCAD:**" ++ [LF; LF]
    ++ qs "1. Select a plane or face in the 3D view" ++ [LF]
    ++ qs "2. Click the **Create Sketch** button" ++ [LF]
    ++ qs "3. Use the sketcher tools to draw geometry" ++ [LF]
    ++ qs "4. Add constraints to fully define your sketch" ++ [LF]
    ++ qs "5. Close the sketch when done" ++ [LF; LF] ++ qs "Key shortcuts:"
    ++ [LF] ++ qs "- `C`: Toggle construction mode" ++ [LF]
    ++ qs "- `X`: Toggle cross-hatching" ++ [LF]
    ++ qs "- `Escape`: Exit current tool").

Definition padResponse : QString :=
  tr (qs "**Creating a Pad (Extrude):**" ++ [LF; LF]
    ++ qs "1. First, create a closed sketch" ++ [LF]
    ++ qs "2. Exit the sketcher" ++ [LF]
    ++ qs "3. Select the sketch in the tree view" ++ [LF]
    ++ qs "4. Click the **Pad** tool or press `P`" ++ [LF]
    ++ qs "5. Set the length in the task panel" ++ [LF]
    ++ qs "6. Click OK to create the solid" ++ [LF; LF]
    ++ qs "You can also create pads with:" ++ [LF]
    ++ qs "- Symmetric to plane" ++ [LF] ++ qs "- Reversed direction" ++ [LF]
    ++ qs "- Taper angle").

Definition genericResponse : QString :=
  tr (qs "Thank you for your message! I'm your FreeCAD AI assistant."
    ++ [LF; LF] ++ qs "I can help you with:" ++ [LF]
    ++ qs "- **Sketching** and part design" ++ [LF]
    ++ qs "- **Modeling** techniques and best practices" ++ [LF]
    ++ qs "- **FreeCAD commands** and shortcuts" ++ [LF]
    ++ qs "- **Troubleshooting** common issues" ++ [LF; LF]
    ++ qs "What would you like to know?").


Definition clearedText : QString :=
  tr (qs "Conversation cleared. How can I help you?").

Section Panel.
Context {J : JsonText}.

(** *** class AIChatPanel

    The members the member functions below read or write, then the
    environment: the next widget address, the pending single-shot timers
    (oldest first), the signals emitted so far (oldest first), the clock as
    the sequence of the readings it will give, and the file system. *)

Record AIChatPanel := mkPanel {
  m_history : list AIChatMessage;
  m_messagesLayout : list QLayoutItem;
  m_inputField : QString;              (* the text of the line edit *)
  m_sendButton : bool;                 (* isEnabled() *)
  m_loadingBubble : option WidgetId;   (* None is nullptr *)
  m_isWaitingForResponse : bool;
  nextWidget : WidgetId;
  timers : list Timer;
  emitted : list Signal;
  clock : nat → QDateTime;
  clockReads : nat;
  fileSystem : FileSystem
}.

(** const QList<AIChatMessage>& getHistory() const *)
Definition getHistory (p : AIChatPanel) : list AIChatMessage := m_history p.

(** A member function is a state transformer with a result. *)
Definition M (A : Type) : Type := AIChatPanel → A * AIChatPanel.

Definition ret {A} (a : A) : M A := λ p, (a, p).
Definition bind {A B} (m : M A) (k : A → M B) : M B :=
  λ p, let '(a, p') := m p in k a p'.
Definition exec {A} (m : M A) (p : AIChatPanel) : AIChatPanel := snd (m p).
Definition result {A} (m : M A) (p : AIChatPanel) : A := fst (m p).

Notation "x <- m ;; k" := (bind m (λ x, k))
  (at level 100, m at next level, right associativity).
Notation "m ;; k" := (bind m (λ _, k))
  (at level 100, right associativity).

Definition gets {A} (f : AIChatPanel → A) : M A := λ p, (f p, p).

(** Assignment to one member. *)
Definition set_m_history (v : list AIChatMessage) : M unit :=
  λ p, (tt, mkPanel v (m_messagesLayout p) (m_inputField p) (m_sendButton p)
      (m_loadingBubble p) (m_isWaitingForResponse p) (nextWidget p) (timers
      p) (emitted p) (clock p) (clockReads p) (fileSystem p)).
Definition set_m_messagesLayout (v : list QLayoutItem) : M unit :=
  λ p, (tt, mkPanel (m_history p) v (m_inputField p) (m_sendButton p)
      (m_loadingBubble p) (m_isWaitingForResponse p) (nextWidget p) (timers
      p) (emitted p) (clock p) (clockReads p) (fileSystem p)).
Definition set_m_inputField (v : QString) : M unit :=
  λ p, (tt, mkPanel (m_history p) (m_messagesLayout p) v (m_sendButton p)
      (m_loadingBubble p) (m_isWaitingForResponse p) (nextWidget p) (timers
      p) (emitted p) (clock p) (clockReads p) (fileSystem p)).
Definition set_m_sendButton (v : bool) : M unit :=
  λ p, (tt, mkPanel (m_history p) (m_messagesLayout p) (m_inputField p) v
      (m_loadingBubble p) (m_isWaitingForResponse p) (nextWidget p) (timers
      p) (emitted p) (clock p) (clockReads p) (fileSystem p)).
Definition set_m_loadingBubble (v : option WidgetId) : M unit :=
  λ p, (tt, mkPanel (m_history p) (m_messagesLayout p) (m_inputField p)
      (m_sendButton p) v (m_isWaitingForResponse p) (nextWidget p) (timers
      p) (emitted p) (clock p) (clockReads p) (fileSystem p)).
Definition set_m_isWaitingForResponse (v : bool) : M unit :=
  λ p, (tt, mkPanel (m_history p) (m_messagesLayout p) (m_inputField p)
      (m_sendButton p) (m_loadingBubble p) v (nextWidget p) (timers p)
      (emitted p) (clock p) (clockReads p) (fileSystem p)).
Definition set_nextWidget (v : WidgetId) : M unit :=
  λ p, (tt, mkPanel (m_history p) (m_messagesLayout p) (m_inputField p)
      (m_sendButton p) (m_loadingBubble p) (m_isWaitingForResponse p) v
      (timers p) (emitted p) (clock p) (clockReads p) (fileSystem p)).
Definition set_timers (v : list Timer) : M unit :=
  λ p, (tt, mkPanel (m_history p) (m_messagesLayout p) (m_inputField p)
      (m_sendButton p) (m_loadingBubble p) (m_isWaitingForResponse p)
      (nextWidget p) v (emitted p) (clock p) (clockReads p) (fileSystem p)).
Definition set_emitted (v : list Signal) : M unit :=
  λ p, (tt, mkPanel (m_history p) (m_messagesLayout p) (m_inputField p)
      (m_sendButton p) (m_loadingBubble p) (m_isWaitingForResponse p)
      (nextWidget p) (timers p) v (clock p) (clockReads p) (fileSystem p)).
Definition set_clockReads (v : nat) : M unit :=
  λ p, (tt, mkPanel (m_history p) (m_messagesLayout p) (m_inputField p)
      (m_sendButton p) (m_loadingBubble p) (m_isWaitingForResponse p)
      (nextWidget p) (timers p) (emitted p) (clock p) v (fileSystem p)).
Definition set_fileSystem (v : FileSystem) : M unit :=
  λ p, (tt, mkPanel (m_history p) (m_messagesLayout p) (m_inputField p)
      (m_sendButton p) (m_loadingBubble p) (m_isWaitingForResponse p)
      (nextWidget p) (timers p) (emitted p) (clock p) (clockReads p) v).

Fixpoint forEach {A} (l : list A) (body : A → M unit) : M unit :=
  match l with
  | [] => ret tt
  | x :: l' => body x ;; forEach l' body
  end.

(** QDateTime::currentDateTime(): the next reading of the clock. *)
Definition currentDateTime : M QDateTime :=
  n <- gets clockReads ;;
  now <- gets clock ;;
  set_clockReads (S n) ;;
  ret (now n).

(** new AIChatBubble(...): a fresh address.  Every bubble is put into the
    messages layout as soon as it is made, and every bubble taken out of the
    layout is handed to deleteLater(): the bubbles that are alive between
    two events are those of the layout.  Addresses are never handed out
    twice here, while the heap may give a new bubble the address of a
    deleted one; the two agree on every run on which no address of a
    deleted bubble is used, and the only use of an address is that of
    m_loadingBubble in removeLoadingBubble (see [loadingBubbleAlive]). *)
Definition newWidget : M WidgetId :=
  w <- gets nextWidget ;;
  set_nextWidget (S w) ;;
  ret w.

Definition singleShot (t : Timer) : M unit :=
  ts <- gets timers ;;
  set_timers (ts ++ [t]).

Definition emit (sig : Signal) : M unit :=
  sigs <- gets emitted ;;
  set_emitted (sigs ++ [sig]).

Definition history_append (msg : AIChatMessage) : M unit :=
  h <- gets m_history ;;
  set_m_history (h ++ [msg]).

(** AIChatPanel::scrollToBottom *)
Definition scrollToBottom : M unit :=
  singleShot ScrollTimer.

(** AIChatPanel::addMessageBubble *)
Definition addMessageBubble (message : AIChatMessage) : M unit :=
  bubble <- newWidget ;;
  l <- gets m_messagesLayout ;;
  set_m_messagesLayout
    (insertWidget (count l - 1) (WidgetItem bubble (AIChatBubble_new message)) l) ;;
  scrollToBottom.

(** What removeLoadingBubble requires: m_loadingBubble is null or the
    address of a bubble of the layout, that is, of a bubble that is alive.
    clearConversation takes the loading bubble out of the layout and hands
    it to deleteLater() without resetting m_loadingBubble; from then on the
    pointer is the address of a deleted bubble. *)
Definition loadingBubbleAlive (p : AIChatPanel) : bool :=
  match m_loadingBubble p with
  | Some w => existsb (holds w) (m_messagesLayout p)
  | None => true
  end.

(** AIChatPanel::removeLoadingBubble.  It calls m_loadingBubble->deleteLater():
    where [loadingBubbleAlive] fails, the code uses a deleted object and
    what is written here says nothing of what it does.  Where it holds,
    deleteLater() has no effect on the members. *)
Definition removeLoadingBubble : M unit :=
  lb <- gets m_loadingBubble ;;
  match lb with
  | Some w =>
    l <- gets m_messagesLayout ;;
    set_m_messagesLayout (removeWidget w l) ;;
    set_m_loadingBubble None
  | None => ret tt
  end.

(** The text chosen by the closure of sendMessage. *)
Definition simulatedResponse (message : QString) : QString :=
  if contains (toLower message) (qs "help") then helpResponse
  else if contains (toLower message) (qs "sketch") then sketchResponse
  else if contains (toLower message) (qs "pad")
          || contains (toLower message) (qs "extrude") then padResponse
  else genericResponse.

(** The closure  [this, message]() { ... }  of sendMessage. *)
Definition responseTimeout (message : QString) : M unit :=
  (* Simulate AI response *)
  let response := simulatedResponse message in
  (* Remove loading bubble *)
  removeLoadingBubble ;;
  (* Add response *)
  now <- currentDateTime ;;
  let assistantMsg := mkMessage Assistant response now false in
  history_append assistantMsg ;;
  addMessageBubble assistantMsg ;;
  (* Reset state *)
  set_m_isWaitingForResponse false ;;
  set_m_sendButton true ;;
  emit (responseReceived response).

(** AIChatPanel::sendMessage *)
Definition sendMessage (message : QString) : M unit :=
  waiting <- gets m_isWaitingForResponse ;;
  if isEmpty (trimmed message) || waiting then ret tt
  else
    (* Add user message *)
    now <- currentDateTime ;;
    let userMsg := mkMessage User (trimmed message) now false in
    history_append userMsg ;;
    addMessageBubble userMsg ;;
    (* Clear input *)
    set_m_inputField [] ;;
    (* Add loading indicator *)
    now <- currentDateTime ;;
    let loadingMsg := mkMessage Assistant [] now true in
    bubble <- newWidget ;;
    set_m_loadingBubble (Some bubble) ;;
    l <- gets m_messagesLayout ;;
    set_m_messagesLayout
      (insertWidget (count l - 1) (WidgetItem bubble (AIChatBubble_new loadingMsg)) l) ;;
    scrollToBottom ;;
    (* Set waiting state *)
    set_m_isWaitingForResponse true ;;
    set_m_sendButton false ;;
    singleShot (ResponseTimer message) ;;
    emit (messageSent message).

(** AIChatPanel::clearConversation *)
Definition clearConversation : M unit :=
  (* Clear history *)
  set_m_history [] ;;
  (* Clear UI *)
  l <- gets m_messagesLayout ;;
  set_m_messagesLayout (takeAllButLast l) ;;
  (* Add welcome message *)
  now <- currentDateTime ;;
  let welcome := mkMessage System clearedText now false in
  addMessageBubble welcome.

(** AIChatPanel::onApiReplyFinished *)
Definition onApiReplyFinished (reply : QNetworkReply) : M unit :=
  if negb (error reply =? NoError) then
    emit (errorOccurred (errorString reply)) ;;
    removeLoadingBubble ;;
    now <- currentDateTime ;;
    let errorMsg :=
      mkMessage System (arg (tr (qs "Error: %1")) (errorString reply)) now false in
    addMessageBubble errorMsg ;;
    set_m_isWaitingForResponse false ;;
    set_m_sendButton true
  else ret tt.

(** AIChatPanel::onSendClicked *)
Definition onSendClicked : M unit :=
  message <- gets m_inputField ;;
  if negb (isEmpty message) then sendMessage message else ret tt.

(** AIChatPanel::onClearClicked; [yes] is the answer to the question
    dialog. *)
Definition onClearClicked (yes : bool) : M unit :=
  if yes then clearConversation else ret tt.

(** AIChatPanel::loadConversation *)
Definition loadConversation (filepath : QString) : M bool :=
  fs <- gets fileSystem ;;
  match openRead fs filepath with
  | None => ret false
  | Some data =>
    let doc := fromJson data in
    if negb (isArray doc) then ret false
    else
      clearConversation ;;
      let messages := array doc in
      forEach messages (λ val,
        let obj := toObject val in
        let msg :=
          mkMessage (Role_of_int (toInt (member obj (qs "role"))))
                    (toString (member obj (qs "content")))
                    (fromString_ISODate (toString (member obj (qs "timestamp"))))
                    false in
        history_append msg ;;
        addMessageBubble msg) ;;
      ret true
  end.

(** The body of the loop of saveConversation. *)
Definition appendMessage (messages : QJsonArray) (msg : AIChatMessage)
  : QJsonArray :=
  let obj : QJsonObject := ∅ in
  let obj := <[qs "role" := Double (Whole (Role_to_int (role msg)))]> obj in
  let obj := <[qs "content" := String (content msg)]> obj in
  let obj := <[qs "timestamp" := String (toString_ISODate (timestamp msg))]> obj in
  messages ++ [Object obj].

(** AIChatPanel::saveConversation (a const member function: only the file
    system can change). *)
Definition saveConversation (filepath : QString) : M bool :=
  h <- gets m_history ;;
  let messages := foldl appendMessage [] h in
  let doc := ArrayDocument messages in
  fs <- gets fileSystem ;;
  if negb (openWrite fs filepath) then ret false
  else
    set_fileSystem (writeAll fs filepath (toJson doc)) ;;
    ret true.

(** AIChatPanel::AIChatPanel, from setupUi on: the layout starts with its
    stretch, then the welcome bubble is added.  [now] and [fs] are the clock
    and the file system the panel finds. *)
Definition AIChatPanel_new (now : nat → QDateTime) (fs : FileSystem)
  : AIChatPanel :=
  let p := mkPanel [] [SpacerItem] [] true None false 0%nat [] [] now 0%nat fs in
  exec (t <- currentDateTime ;;
        let welcome := mkMessage System welcomeText t false in
        addMessageBubble welcome) p.

(** *** The event loop

    What can happen to a panel between two returns to the event loop: a
    call of a public member function, the user typing or clicking (the
    Return key ends in onSendClicked as well), a pending timer firing, a
    network reply finishing.  Timers may fire in any order.  The members
    left out of [AIChatPanel] (the API endpoint, the collapsed state and
    its animation) have their own slots, which touch none of the members
    kept; processApiResponse is called from nowhere. *)

Inductive Event :=
| CallSendMessage (message : QString)
| CallClearConversation
| CallLoadConversation (filepath : QString)
| CallSaveConversation (filepath : QString)
| UserTypes (text : QString)
| ClickSend
| ClickClear (yes : bool)
| TimerFires (i : nat)
| ReplyFinished (reply : QNetworkReply).

(** A timer's closure. *)
Definition runTimer (t : Timer) : M unit :=
  match t with
  | ScrollTimer => ret tt      (* moves the scroll bar only *)
  | ResponseTimer message => responseTimeout message
  end.

(** The pending timer number [i] fires, if there is one. *)
Definition fire (i : nat) : M unit :=
  ts <- gets timers ;;
  match ts !! i with
  | Some t => set_timers (take i ts ++ drop (S i) ts) ;; runTimer t
  | None => ret tt
  end.

Definition handle (e : Event) : M unit :=
  match e with
  | CallSendMessage message => sendMessage message
  | CallClearConversation => clearConversation
  | CallLoadConversation filepath => loadConversation filepath ;; ret tt
  | CallSaveConversation filepath => saveConversation filepath ;; ret tt
  | UserTypes text => set_m_inputField text
  | ClickSend => onSendClicked
  | ClickClear yes => onClearClicked yes
  | TimerFires i => fire i
  | ReplyFinished reply => onApiReplyFinished reply
  end.

(** The panel after a sequence of events. *)
Definition run (es : list Event) (p : AIChatPanel) : AIChatPanel :=
  foldl (λ p e, exec (handle e) p) p es.

(** The states a panel constructed over some clock and file system can be
    in. *)
Inductive reachable : AIChatPanel → Prop :=
| reachable_new now fs : reachable (AIChatPanel_new now fs)
| reachable_step p e : reachable p → reachable (exec (handle e) p).

(** ** The vocabulary of the properties *)

(** The layout once removeLoadingBubble has run. *)
Definition withoutLoadingBubble (p : AIChatPanel) : list QLayoutItem :=
  match m_loadingBubble p with
  | Some w => removeWidget w (m_messagesLayout p)
  | None => m_messagesLayout p
  end.

(** The panel with the pending timer number [i] taken off the queue. *)
Definition withoutTimer (i : nat) (p : AIChatPanel) : AIChatPanel :=
  mkPanel (m_history p) (m_messagesLayout p) (m_inputField p)
    (m_sendButton p) (m_loadingBubble p) (m_isWaitingForResponse p)
    (nextWidget p) (take i (timers p) ++ drop (S i) (timers p)) (emitted p)
    (clock p) (clockReads p) (fileSystem p).

(** The panel over another file system. *)
Definition withFileSystem (fs : FileSystem) (p : AIChatPanel) : AIChatPanel :=
  mkPanel (m_history p) (m_messagesLayout p) (m_inputField p)
    (m_sendButton p) (m_loadingBubble p) (m_isWaitingForResponse p)
    (nextWidget p) (timers p) (emitted p) (clock p) (clockReads p) fs.

(** The events that sendMessage and its timer account for, and the others
    that leave the conversation alone: all but clearing and loading. *)
Definition keepsConversation (e : Event) : bool :=
  match e with
  | CallClearConversation | CallLoadConversation _ => false
  | ClickClear yes => negb yes
  | _ => true
  end.

(** How many bubbles of the layout show the loading state. *)
Definition showsLoading (it : QLayoutItem) : bool :=
  match it with
  | WidgetItem _ b => isLoading (m_message b)
  | SpacerItem => false
  end.

Definition loadingBubbles (p : AIChatPanel) : nat :=
  length (List.filter showsLoading (m_messagesLayout p)).

End Panel.

Notation "x <- m ;; k" := (bind m (λ x, k))
  (at level 100, m at next level, right associativity).
Notation "m ;; k" := (bind m (λ _, k))
  (at level 100, right associativity).

(** What every reachable panel satisfies, on its layout [l], its
    m_loadingBubble [lb] and its waiting flag: the layout ends with the
    stretch; a bubble that shows the loading state is the one m_loadingBubble
    points to; there is none while the panel is not waiting; there is at
    most one. *)
Definition Tidy (l : list QLayoutItem) (lb : option WidgetId) (waiting : bool)
  : Prop :=
  (∃ items, l = items ++ [SpacerItem])
  ∧ (∀ w b, WidgetItem w b ∈ l → isLoading (m_message b) = true → lb = Some w)
  ∧ (waiting = false → List.filter showsLoading l = [])
  ∧ (length (List.filter showsLoading l) ≤ 1)%nat.

Definition tidy {J : JsonText} (p : AIChatPanel) : Prop :=
  Tidy (m_messagesLayout p) (m_loadingBubble p) (m_isWaitingForResponse p).

(** The JSON object saveConversation builds for one message, and the
    message loadConversation makes of one element of the array. *)
Definition messageObject (msg : AIChatMessage) : QJsonObject :=
  <[qs "timestamp" := String (toString_ISODate (timestamp msg))]>
    (<[qs "content" := String (content msg)]>
       (<[qs "role" := Double (Whole (Role_to_int (role msg)))]> ∅)).

Definition messageOfValue (val : QJsonValue) : AIChatMessage :=
  mkMessage (Role_of_int (toInt (member (toObject val) (qs "role"))))
            (toString (member (toObject val) (qs "content")))
            (fromString_ISODate
               (toString (member (toObject val) (qs "timestamp"))))
            false.

(** [c] is the lower-case ASCII letter [k] in either case: the letter, its
    capital or, for k, KELVIN SIGN (U+212A), which lower-cases to k. *)
Definition letterIn (k c : QChar) : Prop :=
  c = k ∨ c = (k - 32)%N ∨ (k = 107%N ∧ c = 8490%N).

(** The keywords this is meant for: lower-case ASCII letters other than i
    (LATIN CAPITAL LETTER I WITH DOT ABOVE lower-cases to two code units). *)
Definition keywordLetters (keyword : QString) : bool :=
  forallb (λ k, (97 <=? k) && (k <=? 122) && negb (k =? 105))%N keyword.

(** A message mentions a keyword when the keyword stands somewhere in it,
    each letter in either case. *)
Definition mentions (message keyword : QString) : Prop :=
  ∃ before word after,
    message = before ++ word ++ after ∧ Forall2 letterIn keyword word.

(** [rest] is the layout [l] without the bubble m_loadingBubble points to:
    [l] itself when the pointer is null, and [l] without that item when the
    pointer is the address of a bubble of the layout (of one only: bubbles
    that are alive have different addresses).  When the pointer is the
    address of no bubble of the layout there is no such [rest]. *)
Inductive LoadingBubbleTaken
  : option WidgetId → list QLayoutItem → list QLayoutItem → Prop :=
| taken_null l : LoadingBubbleTaken None l l
| taken_bubble w bubble before after :
    (∀ b, WidgetItem w b ∉ before) →
    (∀ b, WidgetItem w b ∉ after) →
    LoadingBubbleTaken (Some w) (before ++ WidgetItem w bubble :: after)
      (before ++ after).

End Gui.
Export Gui.

(** ** A concrete environment

    Used where a property is looked at on explicit data: a clock that
    reads 2024-01-15, 10:30 and [n] seconds, a quarter of a second past the
    second, and a file system with a file that is not JSON and two files
    that hold an empty JSON array, one of which cannot be written. *)

Module Sample.

Definition clockAt (n : nat) : QDateTime :=
  DateTime (mkQDate 2024 1 15) (mkQTime 10 30 (Z.of_nat n) 250) LocalTime.

Definition disk : @FileSystem documentText :=
  mkFileSystem
    (<[qs "notes.txt" := NullDocument]>
       (<[qs "old.json" := ArrayDocument []]>
          (<[qs "/readonly/chat.json" := ArrayDocument []]> ∅)))
    {[ qs "/readonly/chat.json" ]}
    ∅.

Definition panel : AIChatPanel := AIChatPanel_new clockAt disk.

(** The panel after "How do I extrude?" was sent. *)
Definition asked : AIChatPanel :=
  run [CallSendMessage (qs "How do I extrude?")] panel.

(** ... and after the reply timer fired. *)
Definition answered : AIChatPanel := run [TimerFires 3] asked.

(** The same conversation over JSON text, on a disk with the device
    /dev/null, which reads as empty whatever is written to it. *)
Definition textDisk : @FileSystem jsonText :=
  mkFileSystem {[ qs "/dev/null" := [] ]} ∅ {[ qs "/dev/null" := Some [] ]}.

Definition textAnswered : AIChatPanel :=
  run [CallSendMessage (qs "How do I extrude?"); TimerFires 3]
    (AIChatPanel_new clockAt textDisk).

End Sample.

(** ** The rest of AIChatPanel.cpp

    The member functions no property above needed: the reader of an API
    response, the key handler, and the collapsing of the panel.  The
    collapsible part has members of its own, kept in a record of its own. *)

Module GuiRest.

Section PanelRest.
Context {J : JsonText}.

(** QJsonObject::contains(key) *)
Definition QJsonObject_contains (o : QJsonObject) (key : QString) : bool :=
  bool_decide (is_Some (o !! key)).

(** QJsonValue::toArray(): the array, or an empty array. *)
Definition toArray (v : QJsonValue) : QJsonArray :=
  match v with Array a => a | _ => [] end.

Definition QJsonArray_isEmpty (a : QJsonArray) : bool :=
  match a with [] => true | _ => false end.

(** QJsonArray::first(), called on arrays that are not empty. *)
Definition QJsonArray_first (a : QJsonArray) : QJsonValue :=
  default Undefined (head a).

(** AIChatPanel::processApiResponse *)
Definition processApiResponse (response : QJsonObject) : M unit :=
  (* Extract response content from API response *)
  if QJsonObject_contains response (qs "choices") then
    let choices := toArray (member response (qs "choices")) in
    if negb (QJsonArray_isEmpty choices) then
      let firstChoice := toObject (QJsonArray_first choices) in
      let message := toObject (member firstChoice (qs "message")) in
      let content := toString (member message (qs "content")) in
      now <- currentDateTime ;;
      let assistantMsg := mkMessage Assistant content now false in
      history_append assistantMsg ;;
      addMessageBubble assistantMsg
    else ret tt
  else ret tt.

(** Qt::Key_Return, Qt::Key_Enter, Qt::ShiftModifier (qnamespace.h). *)
Definition Key_Return : Z := 0x01000004.
Definition Key_Enter : Z := 0x01000005.
Definition ShiftModifier : Z := 0x02000000.

Record QKeyEvent := mkKeyEvent {
  key : Z;          (* event->key() *)
  modifiers : Z     (* event->modifiers(), a set of flags *)
}.

(** What became of a key event: accepted by the panel, or handed on to
    QWidget::keyPressEvent. *)
Inductive KeyOutcome := Accepted | PassedToQWidget.

(** AIChatPanel::keyPressEvent *)
Definition keyPressEvent (event : QKeyEvent) : M KeyOutcome :=
  if (key event =? Key_Return) || (key event =? Key_Enter) then
    if negb (Z.land (modifiers event) ShiftModifier =? 0) then
      (* Allow new line in multi-line input (if we switch to QTextEdit) *)
      ret PassedToQWidget
    else
      onSendClicked ;;
      ret Accepted
  else ret PassedToQWidget.

(** *** More vocabulary *)

Definition isResponseTimer (t : Timer) : bool :=
  match t with ResponseTimer _ => true | ScrollTimer => false end.

(** The reply timers that have not fired yet. *)
Definition pendingResponses (p : AIChatPanel) : nat :=
  length (List.filter isResponseTimer (timers p)).

Definition isMessageSent (sig : Signal) : bool :=
  match sig with messageSent _ => true | _ => false end.

Definition isResponseReceived (sig : Signal) : bool :=
  match sig with responseReceived _ => true | _ => false end.

(** How often messageSent and responseReceived were emitted. *)
Definition sentCount (p : AIChatPanel) : nat :=
  length (List.filter isMessageSent (emitted p)).

Definition receivedCount (p : AIChatPanel) : nat :=
  length (List.filter isResponseReceived (emitted p)).

(** The message a layout item shows, the loading placeholder apart. *)
Definition shownMessage (it : QLayoutItem) : option AIChatMessage :=
  match it with
  | WidgetItem _ b =>
    if isLoading (m_message b) then None else Some (m_message b)
  | SpacerItem => None
  end.

(** The messages on display, top to bottom. *)
Definition shownMessages (l : list QLayoutItem) : list AIChatMessage :=
  omap shownMessage l.

(** Addresses are handed out in order: what is in the layout, and what
    m_loadingBubble points to, was handed out before; and a widget of the
    layout at the address in m_loadingBubble is a loading bubble. *)
Definition Fresh (l : list QLayoutItem) (lb : option WidgetId) (next : WidgetId)
  : Prop :=
  (∀ w b, WidgetItem w b ∈ l → (w < next)%nat)
  ∧ (∀ w, lb = Some w → (w < next)%nat)
  ∧ (∀ w b, lb = Some w → WidgetItem w b ∈ l → isLoading (m_message b) = true).

(** What every reachable panel satisfies about its history [h] and its
    layout. *)
Definition Displayed (l : list QLayoutItem) (lb : option WidgetId)
  (next : WidgetId) (h : list AIChatMessage) : Prop :=
  Fresh l lb next
  ∧ Forall (λ msg, isLoading msg = false) h
  ∧ h `sublist_of` shownMessages l.

Definition displayed (p : AIChatPanel) : Prop :=
  Displayed (m_messagesLayout p) (m_loadingBubble p) (nextWidget p)
    (m_history p).

(** The bubbles loadConversation adds for the messages it read, the first
    at address [w]. *)
Fixpoint bubblesFrom (w : WidgetId) (msgs : list AIChatMessage)
  : list QLayoutItem :=
  match msgs with
  | [] => []
  | msg :: msgs' =>
    WidgetItem w (AIChatBubble_new msg) :: bubblesFrom (S w) msgs'
  end.

Definition isLoadEvent (e : Event) : bool :=
  match e with CallLoadConversation _ => true | _ => false end.

(** Whether the handling of an event stays within defined behaviour: the
    closure of a reply timer and the handler of a failed network reply call
    removeLoadingBubble. *)
Definition defined (e : Event) (p : AIChatPanel) : bool :=
  match e with
  | TimerFires i =>
    match timers p !! i with
    | Some (ResponseTimer _) => loadingBubbleAlive p
    | _ => true
    end
  | ReplyFinished reply => (error reply =? NoError) || loadingBubbleAlive p
  | _ => true
  end.

(** The states a panel can be in after a run of events every step of which
    is defined. *)
Inductive reachableDefined : AIChatPanel → Prop :=
| reachableDefined_new now fs : reachableDefined (AIChatPanel_new now fs)
| reachableDefined_step p e :
    reachableDefined p → defined e p = true →
    reachableDefined (exec (handle e) p).

End PanelRest.

(** *** Formatting

    The code units formatContent gives a meaning to: the asterisk, the
    backtick and the line feed. *)
Definition asterisk : QChar := 42%N.
Definition backtick : QChar := 96%N.

Definition isMarker (c : QChar) : bool :=
  ((c =? asterisk) || (c =? backtick) || (c =? LF))%N.

(** Text without any of them. *)
Definition plainText (s : QString) : bool :=
  forallb (λ c, negb (isMarker c)) s.

(** What the content label of a bubble shows for the message the bubble
    holds. *)
Definition labelOf (msg : AIChatMessage) : QString :=
  if isLoading msg then tr (qs "Thinking...")
  else formatContent (content msg).

(** *** Collapsing

    The members setCollapsed and its helpers use, the two properties of
    the content widget they read or write, the tool tip of the collapse
    button, and what they start and emit.  The height of the content widget
    is the layout system's to set; what a running animation writes to
    maximumHeight is Qt's and is not followed: of maximumHeight only the
    write of the finished-handler is kept. *)

(** new QPropertyAnimation(m_contentWidget, "maximumHeight"), 200 ms,
    InOutQuad: its start and end value. *)
Record Animation := mkAnimation {
  startValue : Z;
  endValue : Z
}.

(** QWIDGETSIZE_MAX (qwidget.h) *)
Definition QWIDGETSIZE_MAX : Z := 2 ^ 24 - 1.

Record Collapsible := mkCollapsible {
  m_isCollapsed : bool;                 (* = false *)
  m_expandedHeight : Z;                 (* = 400 *)
  contentHeight : Z;                    (* m_contentWidget->height() *)
  contentMaximumHeight : Z;             (* m_contentWidget->maximumHeight() *)
  collapseToolTip : QString;            (* m_collapseButton->toolTip() *)
  started : list Animation;             (* oldest first *)
  collapseSignals : list Signal         (* oldest first *)
}.

(** AIChatPanel::updateCollapseButtonIcon.  Both branches set the same
    icon, SP_ToolBarVerticalExtension; the tool tip is what differs. *)
Definition updateCollapseButtonIcon (c : Collapsible) : Collapsible :=
  mkCollapsible (m_isCollapsed c) (m_expandedHeight c) (contentHeight c)
    (contentMaximumHeight c)
    (if m_isCollapsed c then tr (qs "Expand panel")
     else tr (qs "Collapse panel"))
    (started c) (collapseSignals c).

(** AIChatPanel::setCollapsed *)
Definition setCollapsed (collapsed : bool) (c : Collapsible) : Collapsible :=
  if Bool.eqb (m_isCollapsed c) collapsed then c
  else
    (* m_isCollapsed = collapsed; *)
    let expanded :=
      (* Store current height before collapsing *)
      if collapsed then contentHeight c else m_expandedHeight c in
    let animation :=
      if collapsed then mkAnimation (contentHeight c) 0
      else mkAnimation 0 (if expanded >? 0 then expanded else 400) in
    let c := mkCollapsible collapsed expanded (contentHeight c)
               (contentMaximumHeight c) (collapseToolTip c)
               (started c ++ [animation]) (collapseSignals c) in
    (* Update button icon *)
    let c := updateCollapseButtonIcon c in
    mkCollapsible (m_isCollapsed c) (m_expandedHeight c) (contentHeight c)
      (contentMaximumHeight c) (collapseToolTip c) (started c)
      (collapseSignals c ++ [collapseStateChanged collapsed]).

(** AIChatPanel::toggleCollapsed *)
Definition toggleCollapsed (c : Collapsible) : Collapsible :=
  setCollapsed (negb (m_isCollapsed c)) c.

(** The closure connected to QPropertyAnimation::finished. *)
Definition animationFinished (c : Collapsible) : Collapsible :=
  let c :=
    if negb (m_isCollapsed c) then
      (* Restore normal behavior after expanding *)
      mkCollapsible (m_isCollapsed c) (m_expandedHeight c) (contentHeight c)
        QWIDGETSIZE_MAX (collapseToolTip c) (started c) (collapseSignals c)
    else c in
  updateCollapseButtonIcon c.

(** QEvent::MouseButtonDblClick (qcoreevent.h) *)
Definition MouseButtonDblClick : Z := 4.

(** AIChatPanel::eventFilter: [onHeader] says whether the watched object is
    m_headerWidget; the result is what the filter returns (false is what
    QWidget::eventFilter returns). *)
Definition eventFilter (onHeader : bool) (eventType : Z) (c : Collapsible)
  : bool * Collapsible :=
  (* Double-click on header to toggle collapse *)
  if onHeader && (eventType =? MouseButtonDblClick) then
    (true, toggleCollapsed c)
  else (false, c).

(** The collapsible part as the constructor leaves it: the members at
    their initializers, the tool tip as setupUi's last call sets it. *)
Definition Collapsible_new (height : Z) : Collapsible :=
  updateCollapseButtonIcon
    (mkCollapsible false 400 height QWIDGETSIZE_MAX
       (tr (qs "Collapse/Expand panel")) [] []).

(** What happens to the collapsible part: the slots, the header being
    double-clicked, an animation finishing, the layout system giving the
    content widget a height. *)
Inductive CollapseEvent :=
| CallSetCollapsed (collapsed : bool)
| CallToggleCollapsed
| DoubleClickHeader
| AnimationFinished
| Resized (height : Z).

Definition collapseStep (e : CollapseEvent) (c : Collapsible) : Collapsible :=
  match e with
  | CallSetCollapsed collapsed => setCollapsed collapsed c
  | CallToggleCollapsed => toggleCollapsed c
  | DoubleClickHeader => snd (eventFilter true MouseButtonDblClick c)
  | AnimationFinished => animationFinished c
  | Resized height =>
    mkCollapsible (m_isCollapsed c) (m_expandedHeight c) height
      (contentMaximumHeight c) (collapseToolTip c) (started c)
      (collapseSignals c)
  end.

Definition collapseRun (es : list CollapseEvent) (c : Collapsible)
  : Collapsible :=
  foldl (λ c e, collapseStep e c) c es.

(** The states the collapsible part can be in. *)
Inductive collapseReachable : Collapsible → Prop :=
| collapseReachable_new height : collapseReachable (Collapsible_new height)
| collapseReachable_step c e :
    collapseReachable c → collapseReachable (collapseStep e c).

(** What holds of the collapsible part in every state. *)
Definition CollapseInv (c : Collapsible) : Prop :=
  length (collapseSignals c) = length (started c)
  ∧ m_isCollapsed c = Nat.odd (length (started c))
  ∧ (∀ i sig, collapseSignals c !! i = Some sig →
       sig = collapseStateChanged (Nat.even i))
  ∧ (∀ i a, started c !! i = Some a →
       if Nat.even i then endValue a = 0
       else startValue a = 0 ∧ 0 < endValue a)
  ∧ collapseToolTip c
    = (if m_isCollapsed c then tr (qs "Expand panel")
       else tr (qs "Collapse panel")).

(** The events that neither call setCollapsed nor toggle. *)
Definition isPassive (e : CollapseEvent) : bool :=
  match e with
  | AnimationFinished | Resized _ => true
  | _ => false
  end.

End GuiRest.
Export GuiRest.

(* ====================================================================== *)
(** * Part II.  Properties                                                 *)
(* ====================================================================== *)

(** ** The models on explicit data *)

Example trimmed_sample : trimmed (qs "  hi there ") = qs "hi there".
Proof. reflexivity. Qed.

Example contains_sample :
  contains (toLower (qs "Please HELP me")) (qs "help") = true.
Proof. reflexivity. Qed.

Example bold_sample :
  replaceSpans (qs "**") (qs "<b>") (qs "</b>") (qs "a **b** c ***d***")
  = qs "a <b>b</b> c <b>*d</b>*".
Proof. reflexivity. Qed.

Example arg_sample : arg (qs "Error: %1") (qs "timeout") = qs "Error: timeout".
Proof. reflexivity. Qed.

Example formatContent_sample :
  formatContent (qs "a **b** *c* `d`" ++ [LF] ++ qs "e")
  = qs "a <b>b</b> <i>c</i> <code style='background:#e8e8e8;padding:2px;'>d</code><br>e".
Proof. vm_compute. reflexivity. Qed.

Example toString_sample :
  toString_ISODate (Sample.clockAt 7) = qs "2024-01-15T10:30:07".
Proof. vm_compute. reflexivity. Qed.

Example fromString_sample :
  fromString_ISODate (qs "2024-02-29T23:59:59.123Z")
  = DateTime (mkQDate 2024 2 29) (mkQTime 23 59 59 123) UTC.
Proof. vm_compute. reflexivity. Qed.

Example formatContent_one_line_only :
  formatContent (qs "**a" ++ [LF] ++ qs "b**") = qs "**a<br>b**".
Proof. vm_compute. reflexivity. Qed.

Example formatContent_stars :
  formatContent (qs "****") = qs "<i>*</i>*".
Proof. vm_compute. reflexivity. Qed.

Example fromString_no_such_day :
  fromString_ISODate (qs "2023-02-29T23:59:59") = NullDateTime.
Proof. vm_compute. reflexivity. Qed.

Example asked_sample :
  m_isWaitingForResponse Sample.asked = true
  ∧ m_loadingBubble Sample.asked = Some 2%nat
  ∧ timers Sample.asked
    = [ScrollTimer; ScrollTimer; ScrollTimer;
       ResponseTimer (qs "How do I extrude?")]
  ∧ map content (m_history Sample.asked) = [qs "How do I extrude?"].
Proof. vm_compute. repeat split. Qed.

Example answered_sample :
  map content (m_history Sample.answered)
  = [qs "How do I extrude?"; padResponse]
  ∧ m_isWaitingForResponse Sample.answered = false
  ∧ length (m_messagesLayout Sample.answered) = 4%nat.
Proof. vm_compute. repeat split. Qed.

(** ** Running member functions

    [exec] and [result] through the operations of the state monad. *)

Section Running.
Context {J : JsonText}.

Lemma exec_bind {A B} (m : M A) (k : A → M B) (p : AIChatPanel) :
  exec (bind m k) p = exec (k (result m p)) (exec m p).
Proof. unfold exec, result, bind. destruct (m p). reflexivity. Qed.

Lemma result_bind {A B} (m : M A) (k : A → M B) (p : AIChatPanel) :
  result (bind m k) p = result (k (result m p)) (exec m p).
Proof. unfold exec, result, bind. destruct (m p). reflexivity. Qed.

Lemma exec_ret {A} (a : A) (p : AIChatPanel) : exec (ret a) p = p.
Proof. reflexivity. Qed.

Lemma result_ret {A} (a : A) (p : AIChatPanel) : result (ret a) p = a.
Proof. reflexivity. Qed.

Lemma exec_gets {A} (f : AIChatPanel → A) (p : AIChatPanel) :
  exec (gets f) p = p.
Proof. reflexivity. Qed.

Lemma result_gets {A} (f : AIChatPanel → A) (p : AIChatPanel) :
  result (gets f) p = f p.
Proof. reflexivity. Qed.

End Running.

Create Rewrite HintDb panel.
#[local] Hint Rewrite @exec_bind @result_bind @exec_ret @result_ret
  @exec_gets @result_gets : panel.

(** ** Loading: result and failure *)

Section Loading.
Context {J : JsonText}.

Lemma loadConversation_outcome (p : AIChatPanel) (filepath : QString) :
  loadConversation filepath p
  = match openRead (fileSystem p) filepath with
    | None => (false, p)
    | Some data =>
      if isArray (fromJson data)
      then (true,
            exec (clearConversation ;;
                  forEach (array (fromJson data)) (λ val,
                    let obj := toObject val in
                    let msg :=
                      mkMessage
                        (Role_of_int (toInt (member obj (qs "role"))))
                        (toString (member obj (qs "content")))
                        (fromString_ISODate
                           (toString (member obj (qs "timestamp"))))
                        false in
                    history_append msg ;; addMessageBubble msg)) p)
      else (false, p)
    end.
Proof.
  rewrite (surjective_pairing (loadConversation filepath p)).
  change (fst (loadConversation filepath p))
    with (result (loadConversation filepath) p).
  change (snd (loadConversation filepath p))
    with (exec (loadConversation filepath) p).
  unfold loadConversation. autorewrite with panel.
  destruct (openRead (fileSystem p) filepath) as [data|]; [|reflexivity].
  destruct (isArray (fromJson data)); simpl negb; cbv iota.
  - autorewrite with panel. reflexivity.
  - reflexivity.
Qed.

(** C3.  loadConversation returns false when the file cannot be opened for
    reading, false when the parsed document is not an array, and true in
    every other case. *)
Theorem loadConversation_result (p : AIChatPanel) (filepath : QString) :
  result (loadConversation filepath) p
  = match openRead (fileSystem p) filepath with
    | None => false
    | Some data => isArray (fromJson data)
    end.
Proof.
  unfold result. rewrite loadConversation_outcome.
  destruct (openRead (fileSystem p) filepath) as [data|]; [|reflexivity].
  destruct (isArray (fromJson data)); reflexivity.
Qed.

(** C10.  A load that returns false leaves the panel as it was: history,
    layout and every other member, since both checks come before the
    conversation is cleared. *)
Theorem loadConversation_failure_atomic (p : AIChatPanel) (filepath : QString) :
  result (loadConversation filepath) p = false →
  exec (loadConversation filepath) p = p.
Proof.
  unfold result, exec. rewrite loadConversation_outcome.
  destruct (openRead (fileSystem p) filepath) as [data|]; [|reflexivity].
  destruct (isArray (fromJson data)); [discriminate|reflexivity].
Qed.

End Loading.

(** On the sample panel: a file that does not exist, and a file that is
    not JSON. *)
Lemma loadConversation_failure_atomic_sample :
  result (loadConversation (qs "missing.json")) Sample.asked = false
  ∧ exec (loadConversation (qs "missing.json")) Sample.asked = Sample.asked
  ∧ result (loadConversation (qs "notes.txt")) Sample.asked = false
  ∧ exec (loadConversation (qs "notes.txt")) Sample.asked = Sample.asked.
Proof.
  assert (H1 : result (loadConversation (qs "missing.json")) Sample.asked = false)
    by (vm_compute; reflexivity).
  assert (H2 : result (loadConversation (qs "notes.txt")) Sample.asked = false)
    by (vm_compute; reflexivity).
  split; [exact H1|]. split; [exact (loadConversation_failure_atomic _ _ H1)|].
  split; [exact H2|]. exact (loadConversation_failure_atomic _ _ H2).
Defined.

(** ** The layout *)

Lemma insertWidget_before_last (it last : QLayoutItem) (items : list QLayoutItem) :
  insertWidget (count (items ++ [last]) - 1) it (items ++ [last])
  = items ++ [it; last].
Proof.
  unfold insertWidget, count. rewrite length_app. simpl length.
  replace (Z.of_nat (length items + 1) - 1) with (Z.of_nat (length items)) by lia.
  destruct (Z.ltb_spec (Z.of_nat (length items)) 0) as [H|_]; [lia|].
  rewrite Nat2Z.id, take_app_length, drop_app_length. reflexivity.
Qed.

Lemma insertWidget_empty (it : QLayoutItem) :
  insertWidget (count [] - 1) it [] = [it].
Proof. reflexivity. Qed.

Lemma length_insertWidget (i : Z) (it : QLayoutItem) (l : list QLayoutItem) :
  length (insertWidget i it l) = S (length l).
Proof.
  unfold insertWidget. destruct (i <? 0).
  - rewrite length_app. simpl. lia.
  - rewrite length_app. simpl. rewrite length_take, length_drop. lia.
Qed.

Lemma filter_insertWidget (f : QLayoutItem → bool) (i : Z) (it : QLayoutItem)
  (l : list QLayoutItem) :
  length (List.filter f (insertWidget i it l))
  = (length (List.filter f l) + (if f it then 1 else 0))%nat.
Proof.
  unfold insertWidget. destruct (i <? 0).
  - rewrite List.filter_app, length_app. simpl. destruct (f it); reflexivity.
  - rewrite <- (take_drop (Z.to_nat i) l) at 3.
    rewrite !List.filter_app, !length_app. simpl.
    destruct (f it); simpl; lia.
Qed.

Lemma takeAllButLast_last (items : list QLayoutItem) (last : QLayoutItem) :
  takeAllButLast (items ++ [last]) = [last].
Proof.
  induction items as [|a items IH]; [reflexivity|].
  simpl. destruct (items ++ [last]) eqn:E.
  - destruct items; discriminate.
  - exact IH.
Qed.

(** ** Sending *)

Section Sending.
Context {J : JsonText}.

(** The early return of sendMessage. *)
Lemma sendMessage_returns_early (p : AIChatPanel) (message : QString) :
  isEmpty (trimmed message) || m_isWaitingForResponse p = true →
  sendMessage message p = (tt, p).
Proof.
  intros H. unfold sendMessage, bind, gets. rewrite H. reflexivity.
Qed.

(** The panel after a message got past the guard. *)
Lemma sendMessage_sends (p : AIChatPanel) (message : QString) :
  isEmpty (trimmed message) = false →
  m_isWaitingForResponse p = false →
  let userMsg :=
    mkMessage User (trimmed message) (clock p (clockReads p)) false in
  let loadingMsg :=
    mkMessage Assistant [] (clock p (S (clockReads p))) true in
  let l1 :=
    insertWidget (count (m_messagesLayout p) - 1)
      (WidgetItem (nextWidget p) (AIChatBubble_new userMsg))
      (m_messagesLayout p) in
  let l2 :=
    insertWidget (count l1 - 1)
      (WidgetItem (S (nextWidget p)) (AIChatBubble_new loadingMsg)) l1 in
  exec (sendMessage message) p
  = mkPanel (m_history p ++ [userMsg]) l2 [] false (Some (S (nextWidget p)))
      true (S (S (nextWidget p)))
      (((timers p ++ [ScrollTimer]) ++ [ScrollTimer])
       ++ [ResponseTimer message])
      (emitted p ++ [messageSent message])
      (clock p) (S (S (clockReads p))) (fileSystem p).
Proof.
  intros H1 H2. unfold exec, sendMessage, bind, gets. rewrite H1, H2.
  reflexivity.
Qed.

(** C2, as the code has it.  A message that is not blank (not empty once
    trimmed), sent while the panel is not waiting, adds exactly one entry
    to the history, the trimmed message as a User message, and exactly two
    bubbles to the layout, in front of its last item: the bubble of that
    message and, after it, one loading bubble, which m_loadingBubble then
    points to. *)
Theorem sendMessage_appends_two_bubbles (p : AIChatPanel) (message : QString)
  (items : list QLayoutItem) (last : QLayoutItem) :
  isEmpty (trimmed message) = false →
  m_isWaitingForResponse p = false →
  m_messagesLayout p = items ++ [last] →
  let p' := exec (sendMessage message) p in
  let userMsg :=
    mkMessage User (trimmed message) (clock p (clockReads p)) false in
  let userBubble := AIChatBubble_new userMsg in
  let placeholder :=
    AIChatBubble_new
      (mkMessage Assistant [] (clock p (S (clockReads p))) true) in
  m_history p' = m_history p ++ [userMsg]
  ∧ m_messagesLayout p'
    = items ++ [WidgetItem (nextWidget p) userBubble;
                WidgetItem (S (nextWidget p)) placeholder; last]
  ∧ isLoading (m_message userBubble) = false
  ∧ isLoading (m_message placeholder) = true
  ∧ m_contentLabel placeholder = tr (qs "Thinking...")
  ∧ m_loadingBubble p' = Some (S (nextWidget p)).
Proof.
  intros H1 H2 HL p'. subst p'. rewrite sendMessage_sends by assumption.
  cbn [m_history m_messagesLayout m_loadingBubble].
  rewrite HL, insertWidget_before_last.
  replace (items ++ [WidgetItem (nextWidget p)
                       (AIChatBubble_new
                          (mkMessage User (trimmed message)
                             (clock p (clockReads p)) false)); last])
    with ((items ++ [WidgetItem (nextWidget p)
                       (AIChatBubble_new
                          (mkMessage User (trimmed message)
                             (clock p (clockReads p)) false))]) ++ [last])
    by (rewrite <- app_assoc; reflexivity).
  rewrite insertWidget_before_last, <- app_assoc.
  repeat split; reflexivity.
Qed.

End Sending.

(** C2 on the sample panel: "How do I extrude?" is sent. *)
Lemma sendMessage_appends_two_bubbles_sample :
  let p' := exec (sendMessage (qs "How do I extrude?")) Sample.panel in
  map content (m_history p') = [qs "How do I extrude?"]
  ∧ length (m_messagesLayout p') = 4%nat
  ∧ m_loadingBubble p' = Some 2%nat.
Proof.
  destruct (sendMessage_appends_two_bubbles Sample.panel
              (qs "How do I extrude?")
              [WidgetItem 0%nat
                 (AIChatBubble_new
                    (mkMessage System welcomeText (Sample.clockAt 0) false))]
              SpacerItem)
    as (Hh & Hl & _ & _ & _ & Hb);
    [reflexivity | reflexivity | reflexivity |].
  cbv zeta. rewrite Hh, Hl, Hb. repeat split; reflexivity.
Defined.

(** C2 as stated fails: a message of one blank is not empty, and sending it
    appends nothing, neither to the history nor to the layout; nor does
    sending "hello" while the panel waits for a reply. *)
Lemma sendMessage_nonempty_appends_nothing :
  (isEmpty (qs " ") = false
   ∧ m_history (exec (sendMessage (qs " ")) Sample.panel)
     = m_history Sample.panel
   ∧ m_messagesLayout (exec (sendMessage (qs " ")) Sample.panel)
     = m_messagesLayout Sample.panel)
  ∧ (isEmpty (qs "hello") = false
     ∧ m_history (exec (sendMessage (qs "hello")) Sample.asked)
       = m_history Sample.asked
     ∧ m_messagesLayout (exec (sendMessage (qs "hello")) Sample.asked)
       = m_messagesLayout Sample.asked).
Proof. repeat split; reflexivity. Qed.

(** ** The reply, clearing, network errors *)

Section Replies.
Context {J : JsonText}.

Lemma exec_removeLoadingBubble (p : AIChatPanel) :
  exec removeLoadingBubble p
  = mkPanel (m_history p) (withoutLoadingBubble p) (m_inputField p)
      (m_sendButton p) None (m_isWaitingForResponse p) (nextWidget p)
      (timers p) (emitted p) (clock p) (clockReads p) (fileSystem p).
Proof.
  unfold exec, removeLoadingBubble, withoutLoadingBubble, bind, gets.
  destruct p as [h l i b lb w n ts e c r f]. simpl.
  destruct lb; reflexivity.
Qed.

Lemma exec_responseTimeout (p : AIChatPanel) (message : QString) :
  let assistantMsg :=
    mkMessage Assistant (simulatedResponse message)
      (clock p (clockReads p)) false in
  exec (responseTimeout message) p
  = mkPanel (m_history p ++ [assistantMsg])
      (insertWidget (count (withoutLoadingBubble p) - 1)
         (WidgetItem (nextWidget p) (AIChatBubble_new assistantMsg))
         (withoutLoadingBubble p))
      (m_inputField p) true None false (S (nextWidget p))
      (timers p ++ [ScrollTimer])
      (emitted p ++ [responseReceived (simulatedResponse message)])
      (clock p) (S (clockReads p)) (fileSystem p).
Proof.
  cbv zeta. unfold responseTimeout. rewrite exec_bind, exec_removeLoadingBubble.
  reflexivity.
Qed.

Lemma exec_clearConversation (p : AIChatPanel) :
  let welcome :=
    mkMessage System clearedText (clock p (clockReads p)) false in
  exec clearConversation p
  = mkPanel []
      (insertWidget (count (takeAllButLast (m_messagesLayout p)) - 1)
         (WidgetItem (nextWidget p) (AIChatBubble_new welcome))
         (takeAllButLast (m_messagesLayout p)))
      (m_inputField p) (m_sendButton p) (m_loadingBubble p)
      (m_isWaitingForResponse p) (S (nextWidget p))
      (timers p ++ [ScrollTimer]) (emitted p)
      (clock p) (S (clockReads p)) (fileSystem p).
Proof. reflexivity. Qed.

Lemma exec_onApiReplyFinished_error (p : AIChatPanel) (reply : QNetworkReply) :
  error reply ≠ NoError →
  let errorMsg :=
    mkMessage System (arg (tr (qs "Error: %1")) (errorString reply))
      (clock p (clockReads p)) false in
  exec (onApiReplyFinished reply) p
  = mkPanel (m_history p)
      (insertWidget (count (withoutLoadingBubble p) - 1)
         (WidgetItem (nextWidget p) (AIChatBubble_new errorMsg))
         (withoutLoadingBubble p))
      (m_inputField p) true None false (S (nextWidget p))
      (timers p ++ [ScrollTimer])
      (emitted p ++ [errorOccurred (errorString reply)])
      (clock p) (S (clockReads p)) (fileSystem p).
Proof.
  intros H. cbv zeta. unfold onApiReplyFinished.
  destruct (Z.eqb_spec (error reply) NoError) as [E|_]; [contradiction|].
  simpl negb. cbv iota.
  rewrite exec_bind, exec_bind.
  change (exec (emit (errorOccurred (errorString reply))) p)
    with (mkPanel (m_history p) (m_messagesLayout p) (m_inputField p)
            (m_sendButton p) (m_loadingBubble p) (m_isWaitingForResponse p)
            (nextWidget p) (timers p)
            (emitted p ++ [errorOccurred (errorString reply)])
            (clock p) (clockReads p) (fileSystem p)).
  rewrite exec_removeLoadingBubble. reflexivity.
Qed.

Lemma exec_onApiReplyFinished_ok (p : AIChatPanel) (reply : QNetworkReply) :
  error reply = NoError → exec (onApiReplyFinished reply) p = p.
Proof. intros H. unfold onApiReplyFinished. rewrite H. reflexivity. Qed.

End Replies.

(** ** Searching *)

Lemma startsWith_spec (s p : QString) :
  startsWith s p = true ↔ ∃ r, s = p ++ r.
Proof.
  revert s. induction p as [|a p IH]; intros s; simpl.
  - split; [intros _; exists s; reflexivity | reflexivity].
  - destruct s as [|b s].
    + split; [discriminate | intros [r H]; discriminate].
    + rewrite andb_true_iff, N.eqb_eq, IH. split.
      * intros [-> [r ->]]. exists r. reflexivity.
      * intros [r H]. injection H as -> ->. split; [reflexivity | eauto].
Qed.

Lemma contains_spec (s needle : QString) :
  contains s needle = true ↔ ∃ before after, s = before ++ needle ++ after.
Proof.
  induction s as [|c s IH]; simpl; rewrite orb_true_iff, startsWith_spec.
  - split.
    + intros [[r H]|H]; [|discriminate]. exists [], r. exact H.
    + intros (before & after & H). left.
      destruct before; [|discriminate]. exists after. exact H.
  - rewrite IH. split.
    + intros [[r H]|(before & after & H)].
      * exists [], r. exact H.
      * exists (c :: before), after. rewrite H. reflexivity.
    + intros (before & after & H). destruct before as [|b before].
      * left. exists after. exact H.
      * right. injection H as -> ->. eauto.
Qed.

(** Where a text stands in a text that was made unit by unit: when each
    code unit of [ys] can only come from a unit that gives it alone, the
    units [ys] was made of stand in a row. *)
Lemma flat_map_prefix_origin (f : QChar → QString) (ys : QString) :
  (∀ c, f c ≠ []) →
  (∀ y c, y ∈ ys → y ∈ f c → f c = [y]) →
  ∀ l zs, flat_map f l = ys ++ zs →
  ∃ l2 l3, l = l2 ++ l3 ∧ Forall2 (λ y c, f c = [y]) ys l2.
Proof.
  intros Hne. induction ys as [|y ys IH]; intros Hys l zs E.
  - exists [], l. split; [reflexivity | constructor].
  - destruct l as [|c l]; [discriminate E|]. cbn [flat_map] in E.
    destruct (f c) as [|y' u] eqn:Ec; [destruct (Hne c Ec)|].
    injection E as -> E.
    assert (Hc : f c = [y]).
    { apply Hys; [left | rewrite Ec; left]. }
    rewrite Ec in Hc. injection Hc as ->. cbn [app] in E.
    destruct (IH (λ y0 c0 H, Hys y0 c0 (list_elem_of_further _ _ _ H)) l zs E)
      as (l2 & l3 & -> & HF).
    exists (c :: l2), l3. split; [reflexivity|]. constructor; assumption.
Qed.

Lemma flat_map_origin (f : QChar → QString) (ys : QString) :
  (∀ c, f c ≠ []) →
  (∀ y c, y ∈ ys → y ∈ f c → f c = [y]) →
  ∀ l xs zs, flat_map f l = xs ++ ys ++ zs →
  ∃ l1 l2 l3, l = l1 ++ l2 ++ l3 ∧ Forall2 (λ y c, f c = [y]) ys l2.
Proof.
  intros Hne Hys. induction l as [|c l IH]; intros xs zs E.
  - destruct xs; [|discriminate E]. destruct ys; [|discriminate E].
    exists [], [], []. split; [reflexivity | constructor].
  - cbn [flat_map] in E. apply app_eq_app in E as [m [[E1 E2]|[E1 E2]]].
    + (* the image of c reaches into ys, or ends where xs ends *)
      destruct m as [|y0 m].
      * destruct (IH [] zs) as (l1 & l2 & l3 & -> & HF);
          [cbn [app]; rewrite E2; reflexivity|].
        exists (c :: l1), l2, l3. split; [reflexivity | exact HF].
      * destruct ys as [|y ys'].
        { exists [], [], (c :: l). split; [reflexivity | constructor]. }
        injection E2 as -> E2.
        assert (Hc : f c = [y0]).
        { apply Hys; [left|]. rewrite E1. apply elem_of_app. right. left. }
        rewrite E1 in Hc. destruct xs as [|x xs].
        -- cbn [app] in Hc. injection Hc as ->.
           destruct (flat_map_prefix_origin f (y0 :: ys') Hne Hys (c :: l) zs)
             as (l2 & l3 & E & HF).
           { cbn [flat_map]. rewrite E1. cbn [app] in E2 |- *.
             rewrite E2. reflexivity. }
           exists [], l2, l3. split; [exact E | exact HF].
        -- apply (f_equal length) in Hc. rewrite length_app in Hc.
           simpl in Hc. lia.
    + destruct (IH m zs E2) as (l1 & l2 & l3 & -> & HF).
      exists (c :: l1), l2, l3. split; [reflexivity | exact HF].
Qed.

Lemma lowerUnit_nonempty (c : QChar) : lowerUnit c ≠ [].
Proof.
  unfold lowerUnit.
  destruct ((65 <=? c) && (c <=? 90))%N; [discriminate|].
  destruct ((192 <=? c) && (c <=? 222) && negb (c =? 215))%N; [discriminate|].
  destruct (c =? 8490)%N; [discriminate|].
  destruct (c =? 304)%N; discriminate.
Qed.

(** The units that lower-case to a lower-case ASCII letter alone. *)
Lemma lowerUnit_letter (k c : QChar) :
  (97 ≤ k ≤ 122)%N → (lowerUnit c = [k] ↔ letterIn k c).
Proof.
  intros Hk. unfold lowerUnit, letterIn.
  destruct ((65 <=? c) && (c <=? 90))%N eqn:E1.
  { apply andb_true_iff in E1 as [H1 H2]. apply N.leb_le in H1, H2.
    split.
    - intros H. injection H as H. lia.
    - intros [->|[->|[-> ->]]]; [lia | f_equal; lia | lia]. }
  destruct ((192 <=? c) && (c <=? 222) && negb (c =? 215))%N eqn:E2.
  { apply andb_true_iff in E2 as [H _]. apply andb_true_iff in H as [H1 H2].
    apply N.leb_le in H1, H2. split.
    - intros H. injection H as H. lia.
    - intros [->|[->|[-> ->]]]; lia. }
  destruct (N.eqb_spec c 8490) as [->|E3].
  { split.
    - intros H. injection H as <-. right. right. split; reflexivity.
    - intros [H|[H|[-> _]]]; [lia | lia | reflexivity]. }
  destruct (N.eqb_spec c 304) as [->|E4].
  { split; [discriminate|]. intros [H|[H|[_ H]]]; lia. }
  apply andb_false_iff in E1. rewrite !N.leb_gt in E1.
  split.
  - intros H. injection H as ->. left. reflexivity.
  - intros [->|[->|[_ ->]]]; [reflexivity | lia | congruence].
Qed.

Lemma lowerUnit_origin (k c : QChar) :
  (97 ≤ k ≤ 122)%N → k ≠ 105%N → k ∈ lowerUnit c → lowerUnit c = [k].
Proof.
  intros Hk Hi. unfold lowerUnit.
  destruct ((65 <=? c) && (c <=? 90))%N;
    [intros H; apply list_elem_of_singleton in H; rewrite H; reflexivity|].
  destruct ((192 <=? c) && (c <=? 222) && negb (c =? 215))%N;
    [intros H; apply list_elem_of_singleton in H; rewrite H; reflexivity|].
  destruct (c =? 8490)%N;
    [intros H; apply list_elem_of_singleton in H; rewrite H; reflexivity|].
  destruct (c =? 304)%N.
  - intros H. apply elem_of_cons in H as [H|H]; [congruence|].
    apply list_elem_of_singleton in H. lia.
  - intros H. apply list_elem_of_singleton in H. rewrite H. reflexivity.
Qed.

Lemma keywordLetters_spec (keyword : QString) :
  keywordLetters keyword = true →
  ∀ k, k ∈ keyword → (97 ≤ k ≤ 122)%N ∧ k ≠ 105%N.
Proof.
  unfold keywordLetters. rewrite forallb_forall. intros H k Hk.
  apply list_elem_of_In, H in Hk.
  apply andb_true_iff in Hk as [Hk H3]. apply andb_true_iff in Hk as [H1 H2].
  apply N.leb_le in H1, H2. apply negb_true_iff, N.eqb_neq in H3. auto.
Qed.

Lemma Forall2_letterIn (ks cs : QString) :
  (∀ k, k ∈ ks → (97 ≤ k ≤ 122)%N) →
  Forall2 (λ y c, lowerUnit c = [y]) ks cs ↔ Forall2 letterIn ks cs.
Proof.
  intros H. split; intros HF.
  - induction HF as [|k c ks cs Hc _ IH]; constructor.
    + apply lowerUnit_letter; [apply H; left | exact Hc].
    + apply IH. intros k' Hk'. apply H. right. exact Hk'.
  - induction HF as [|k c ks cs Hc _ IH]; constructor.
    + apply lowerUnit_letter; [apply H; left | exact Hc].
    + apply IH. intros k' Hk'. apply H. right. exact Hk'.
Qed.

Lemma flat_map_singletons (f : QChar → QString) (ys l : QString) :
  Forall2 (λ y c, f c = [y]) ys l → flat_map f l = ys.
Proof.
  induction 1 as [|y c ys l Hc _ IH]; [reflexivity|].
  cbn [flat_map]. rewrite Hc, IH. reflexivity.
Qed.

(** What the code tests, contains on the lower-cased message, is that the
    message mentions the keyword. *)
Lemma contains_mentions (message keyword : QString) :
  keywordLetters keyword = true →
  contains (toLower message) keyword = true ↔ mentions message keyword.
Proof.
  intros Hk. pose proof (keywordLetters_spec keyword Hk) as Hl.
  assert (Hr : ∀ k, k ∈ keyword → (97 ≤ k ≤ 122)%N)
    by (intros k H; apply (Hl k H)).
  rewrite contains_spec. unfold mentions, toLower. split.
  - intros (xs & zs & E).
    assert (Ho : ∀ y c, y ∈ keyword → y ∈ lowerUnit c → lowerUnit c = [y]).
    { intros y c Hy. destruct (Hl y Hy). apply lowerUnit_origin; assumption. }
    destruct (flat_map_origin lowerUnit keyword lowerUnit_nonempty Ho
                message xs zs E) as (l1 & l2 & l3 & -> & HF).
    exists l1, l2, l3. split; [reflexivity|].
    apply Forall2_letterIn; assumption.
  - intros (before & word & after & -> & HF).
    exists (flat_map lowerUnit before), (flat_map lowerUnit after).
    rewrite !flat_map_app. do 2 f_equal.
    apply flat_map_singletons, Forall2_letterIn; assumption.
Qed.

Lemma contains_not_mentions (message keyword : QString) :
  keywordLetters keyword = true →
  contains (toLower message) keyword = false ↔ ¬ mentions message keyword.
Proof.
  intros Hk. rewrite <- (contains_mentions _ _ Hk).
  destruct (contains _ _); split; congruence.
Qed.

(** The choice of the reply, by what the message mentions. *)
Lemma simulatedResponse_spec (message : QString) :
  (mentions message (qs "help") ∧ simulatedResponse message = helpResponse)
  ∨ (¬ mentions message (qs "help") ∧ mentions message (qs "sketch")
     ∧ simulatedResponse message = sketchResponse)
  ∨ (¬ mentions message (qs "help") ∧ ¬ mentions message (qs "sketch")
     ∧ (mentions message (qs "pad") ∨ mentions message (qs "extrude"))
     ∧ simulatedResponse message = padResponse)
  ∨ (¬ mentions message (qs "help") ∧ ¬ mentions message (qs "sketch")
     ∧ ¬ mentions message (qs "pad") ∧ ¬ mentions message (qs "extrude")
     ∧ simulatedResponse message = genericResponse).
Proof.
  unfold simulatedResponse.
  destruct (contains (toLower message) (qs "help")) eqn:H1.
  { left. split; [|reflexivity]. apply contains_mentions; [reflexivity|].
    exact H1. }
  apply contains_not_mentions in H1; [|reflexivity]. right.
  destruct (contains (toLower message) (qs "sketch")) eqn:H2.
  { left. split; [exact H1|]. split; [|reflexivity].
    apply contains_mentions; [reflexivity | exact H2]. }
  apply contains_not_mentions in H2; [|reflexivity]. right.
  destruct (contains (toLower message) (qs "pad")) eqn:H3.
  { left. split; [exact H1|]. split; [exact H2|]. split; [|reflexivity].
    left. apply contains_mentions; [reflexivity | exact H3]. }
  apply contains_not_mentions in H3; [|reflexivity].
  destruct (contains (toLower message) (qs "extrude")) eqn:H4.
  { left. split; [exact H1|]. split; [exact H2|]. split; [|reflexivity].
    right. apply contains_mentions; [reflexivity | exact H4]. }
  apply contains_not_mentions in H4; [|reflexivity]. right.
  repeat split; assumption.
Qed.

Lemma arg_error (e : QString) :
  arg (tr (qs "Error: %1")) e = qs "Error: " ++ e.
Proof. cbv -[app]. rewrite app_nil_r. reflexivity. Qed.

Lemma removeWidget_gone (w : WidgetId) (b : AIChatBubble) (l : list QLayoutItem) :
  WidgetItem w b ∉ removeWidget w l.
Proof.
  unfold removeWidget. rewrite list_elem_of_In, List.filter_In.
  intros [_ H]. simpl in H. rewrite Nat.eqb_refl in H. discriminate.
Qed.

(** ** The claims on the reply, clearing and network errors *)

Section Conversation.
Context {J : JsonText}.

Lemma exec_fire (p : AIChatPanel) (i : nat) (t : Timer) :
  timers p !! i = Some t →
  exec (fire i) p = exec (runTimer t) (withoutTimer i p).
Proof.
  intros H. unfold fire. rewrite exec_bind, result_gets, exec_gets, H.
  rewrite exec_bind. reflexivity.
Qed.

Lemma exec_fire_none (p : AIChatPanel) (i : nat) :
  timers p !! i = None → exec (fire i) p = p.
Proof.
  intros H. unfold fire. rewrite exec_bind, result_gets, exec_gets, H.
  reflexivity.
Qed.

(** C4.  Where the claim fails.  "How do I extrude?" is sent on the new
    sample panel and clearConversation is called before its reply timer
    fires.  The timer is then still pending, with the message (it is the
    fourth of the queue); m_loadingBubble still holds the address of the
    loading bubble, 2; and no bubble of the layout has that address:
    clearConversation took the bubble out of the layout and handed it to
    deleteLater().  The closure of the timer begins with
    removeLoadingBubble, which calls m_loadingBubble->deleteLater(): the
    step is not defined, and no reply is appended by defined behaviour. *)
Theorem reply_after_clear_meets_deleted_bubble :
  let p :=
    run [CallSendMessage (qs "How do I extrude?"); CallClearConversation]
      Sample.panel in
  timers p !! 3%nat = Some (ResponseTimer (qs "How do I extrude?"))
  ∧ m_isWaitingForResponse p = true
  ∧ m_loadingBubble p = Some 2%nat
  ∧ (∀ bubble, WidgetItem 2%nat bubble ∉ m_messagesLayout p)
  ∧ loadingBubbleAlive p = false
  ∧ defined (TimerFires 3) p = false.
Proof.
  cbv zeta.
  split; [vm_compute; reflexivity|]. split; [vm_compute; reflexivity|].
  split; [vm_compute; reflexivity|]. split.
  - intros bubble Hin.
    assert (H : existsb (holds 2%nat)
                  (m_messagesLayout
                     (run [CallSendMessage (qs "How do I extrude?");
                           CallClearConversation] Sample.panel)) = true).
    { apply existsb_exists. exists (WidgetItem 2%nat bubble).
      split; [apply list_elem_of_In, Hin | apply Nat.eqb_refl]. }
    vm_compute in H. discriminate H.
  - split; vm_compute; reflexivity.
Qed.


Lemma handle_appends (e : Event) (p : AIChatPanel) :
  keepsConversation e = true →
  ∃ added, m_history (exec (handle e) p) = m_history p ++ added.
Proof.
  assert (same : ∀ q, m_history q = m_history p →
                      ∃ added, m_history q = m_history p ++ added).
  { intros q ->. exists []. rewrite app_nil_r. reflexivity. }
  assert (send : ∀ m, ∃ added,
             m_history (exec (sendMessage m) p) = m_history p ++ added).
  { intros m.
    destruct (isEmpty (trimmed m) || m_isWaitingForResponse p) eqn:G.
    - unfold exec. rewrite sendMessage_returns_early by exact G.
      apply same. reflexivity.
    - apply orb_false_iff in G as [G1 G2]. rewrite sendMessage_sends by assumption.
      eexists. reflexivity. }
  destruct e as [m| |f|f|text| |yes|i|reply]; simpl; intros K;
    try discriminate.
  - apply send.
  - apply same. unfold saveConversation.
    rewrite exec_bind, exec_bind, exec_gets, result_gets, exec_bind, exec_gets.
    rewrite result_gets.
    destruct (openWrite (fileSystem p) f); reflexivity.
  - apply same. reflexivity.
  - unfold onSendClicked. rewrite exec_bind, exec_gets, result_gets.
    destruct (isEmpty (m_inputField p)); [apply same; reflexivity | apply send].
  - destruct yes; [discriminate | apply same; reflexivity].
  - destruct (timers p !! i) as [[|m]|] eqn:Hi.
    + rewrite (exec_fire _ _ _ Hi). apply same. reflexivity.
    + rewrite (exec_fire _ _ _ Hi). cbn [runTimer].
      rewrite exec_responseTimeout. eexists. reflexivity.
    + rewrite exec_fire_none by exact Hi. apply same. reflexivity.
  - destruct (Z.eq_dec (error reply) NoError) as [E|E].
    + rewrite exec_onApiReplyFinished_ok by exact E. apply same. reflexivity.
    + rewrite exec_onApiReplyFinished_error by exact E. apply same. reflexivity.
Qed.

(** C8.  sendMessage appends to the history or leaves it alone: what it
    adds is nothing or the one User message; its timer adds the one
    Assistant message; clearConversation leaves the history empty; and
    along any run of events without clearing or loading, the history at the
    start is a prefix of the history at the end. *)
Theorem history_append_and_clear :
  (∀ (p : AIChatPanel) (message : QString),
     m_history (exec (sendMessage message) p) = m_history p
     ∨ m_history (exec (sendMessage message) p)
       = m_history p
         ++ [mkMessage User (trimmed message) (clock p (clockReads p)) false])
  ∧ (∀ (p : AIChatPanel) (message : QString),
       m_history (exec (responseTimeout message) p)
       = m_history p
         ++ [mkMessage Assistant (simulatedResponse message)
               (clock p (clockReads p)) false])
  ∧ (∀ p : AIChatPanel, m_history (exec clearConversation p) = [])
  ∧ (∀ (es : list Event) (p : AIChatPanel),
       forallb keepsConversation es = true →
       m_history p `prefix_of` m_history (run es p)).
Proof.
  repeat split.
  - intros p message.
    destruct (isEmpty (trimmed message) || m_isWaitingForResponse p) eqn:G.
    + left. unfold exec. rewrite sendMessage_returns_early by exact G.
      reflexivity.
    + right. apply orb_false_iff in G as [G1 G2].
      rewrite sendMessage_sends by assumption. reflexivity.
  - intros p message. rewrite exec_responseTimeout. reflexivity.
  - intros es. induction es as [|e es IH]; intros p H.
    + reflexivity.
    + simpl in H. apply andb_true_iff in H as [He Hes].
      change (run (e :: es) p) with (run es (exec (handle e) p)).
      etransitivity; [|apply IH, Hes].
      destruct (handle_appends e p He) as [added ->].
      apply prefix_app_r. reflexivity.
Qed.

End Conversation.

(** ** At most one loading bubble *)

Lemma isLoading_AIChatBubble_new (msg : AIChatMessage) :
  isLoading (m_message (AIChatBubble_new msg)) = isLoading msg.
Proof. destruct msg as [r c t []]; reflexivity. Qed.

Lemma filter_nil_iff {A} (f : A → bool) (l : list A) :
  List.filter f l = [] ↔ ∀ x, x ∈ l → f x = false.
Proof.
  induction l as [|a l IH]; simpl.
  - split; [intros _ x Hx; inversion Hx | reflexivity].
  - destruct (f a) eqn:E.
    + split; [discriminate|]. intros H.
      rewrite (H a) in E by (left); discriminate.
    + rewrite IH. split.
      * intros H x Hx. apply elem_of_cons in Hx as [->|Hx]; auto.
      * intros H x Hx. apply H. right. exact Hx.
Qed.

Lemma elem_of_insertWidget (i : Z) (it x : QLayoutItem) (l : list QLayoutItem) :
  x ∈ insertWidget i it l ↔ x = it ∨ x ∈ l.
Proof.
  unfold insertWidget. destruct (i <? 0).
  - rewrite elem_of_app, list_elem_of_singleton. tauto.
  - rewrite <- (take_drop (Z.to_nat i) l) at 3.
    rewrite !elem_of_app, elem_of_cons. tauto.
Qed.

Lemma filter_insertWidget_plain (i : Z) (it : QLayoutItem) (l : list QLayoutItem) :
  showsLoading it = false →
  length (List.filter showsLoading (insertWidget i it l))
  = length (List.filter showsLoading l).
Proof. intros H. rewrite filter_insertWidget, H. lia. Qed.

Lemma Tidy_insert_plain (l : list QLayoutItem) (lb : option WidgetId)
  (waiting : bool) (it : QLayoutItem) :
  showsLoading it = false →
  Tidy l lb waiting →
  Tidy (insertWidget (count l - 1) it l) lb waiting.
Proof.
  intros Hit ([items ->] & Hlb & Hw & Hn). repeat split.
  - rewrite insertWidget_before_last. exists (items ++ [it]).
    rewrite <- app_assoc. reflexivity.
  - intros w b Hin Hl. apply elem_of_insertWidget in Hin as [E|Hin].
    + subst it. simpl in Hit. congruence.
    + eauto.
  - intros E. apply filter_nil_iff. intros x Hx.
    apply elem_of_insertWidget in Hx as [->|Hx]; [exact Hit|].
    specialize (Hw E). rewrite filter_nil_iff in Hw. auto.
  - rewrite filter_insertWidget_plain by exact Hit. exact Hn.
Qed.

Lemma Tidy_insert_message (l : list QLayoutItem) (lb : option WidgetId)
  (waiting : bool) (w : WidgetId) (msg : AIChatMessage) :
  isLoading msg = false →
  Tidy l lb waiting →
  Tidy (insertWidget (count l - 1) (WidgetItem w (AIChatBubble_new msg)) l)
       lb waiting.
Proof.
  intros H. apply Tidy_insert_plain. simpl.
  rewrite isLoading_AIChatBubble_new. exact H.
Qed.

Lemma Tidy_none_loading (l : list QLayoutItem) (lb : option WidgetId)
  (waiting waiting' : bool) :
  Tidy l lb waiting →
  List.filter showsLoading l = [] →
  ∀ lb', Tidy l lb' waiting'.
Proof.
  intros (Hs & _ & _ & _) E lb'. repeat split.
  - exact Hs.
  - intros w b Hin Hl. rewrite filter_nil_iff in E.
    specialize (E _ Hin). simpl in E. congruence.
  - intros _. exact E.
  - rewrite E. simpl. lia.
Qed.

(** Once removeLoadingBubble has run, no bubble shows the loading state. *)
Lemma Tidy_removed (l : list QLayoutItem) (lb : option WidgetId) (waiting : bool) :
  Tidy l lb waiting →
  let l' := match lb with Some w => removeWidget w l | None => l end in
  Tidy l' None false ∧ List.filter showsLoading l' = [].
Proof.
  intros ([items ->] & Hlb & Hw & Hn) l'.
  assert (E : List.filter showsLoading l' = []).
  { apply filter_nil_iff. intros x Hx.
    destruct (showsLoading x) eqn:Hl; [exfalso | reflexivity].
    destruct x as [w b|]; [|discriminate]. simpl in Hl.
    subst l'. destruct lb as [w0|].
    - unfold removeWidget in Hx.
      apply list_elem_of_In, List.filter_In in Hx as [Hx Hh].
      apply list_elem_of_In in Hx.
      specialize (Hlb _ _ Hx Hl). injection Hlb as ->.
      simpl in Hh. rewrite Nat.eqb_refl in Hh. discriminate.
    - specialize (Hlb _ _ Hx Hl). discriminate. }
  split; [|exact E]. repeat split.
  - subst l'. destruct lb as [w0|]; [|eauto].
    unfold removeWidget. rewrite List.filter_app. simpl. eauto.
  - intros w b Hin Hl. rewrite filter_nil_iff in E.
    specialize (E _ Hin). simpl in E. congruence.
  - intros _. exact E.
  - rewrite E. simpl. lia.
Qed.

Lemma Tidy_cleared (l : list QLayoutItem) (lb : option WidgetId) (waiting : bool) :
  Tidy l lb waiting →
  Tidy (takeAllButLast l) lb waiting
  ∧ List.filter showsLoading (takeAllButLast l) = [].
Proof.
  intros ([items ->] & _). rewrite takeAllButLast_last.
  split; [|reflexivity]. repeat split.
  - exists []. reflexivity.
  - intros w b Hin. apply list_elem_of_singleton in Hin. discriminate.
  - simpl. lia.
Qed.

Lemma Tidy_sent (l : list QLayoutItem) (lb : option WidgetId)
  (w w' : WidgetId) (userMsg loadingMsg : AIChatMessage) :
  isLoading userMsg = false →
  Tidy l lb false →
  let l1 := insertWidget (count l - 1)
              (WidgetItem w (AIChatBubble_new userMsg)) l in
  Tidy (insertWidget (count l1 - 1)
          (WidgetItem w' (AIChatBubble_new loadingMsg)) l1) (Some w') true.
Proof.
  intros Hu HT l1.
  pose proof (Tidy_insert_message l lb false w userMsg Hu HT) as HT1.
  fold l1 in HT1. destruct HT1 as ([items E] & Hlb & Hw & Hn).
  specialize (Hw eq_refl). repeat split.
  - rewrite E, insertWidget_before_last.
    exists (items ++ [WidgetItem w' (AIChatBubble_new loadingMsg)]).
    rewrite <- app_assoc. reflexivity.
  - intros w0 b Hin Hl. apply elem_of_insertWidget in Hin as [Hin|Hin].
    + injection Hin as -> _. reflexivity.
    + rewrite filter_nil_iff in Hw. specialize (Hw _ Hin). simpl in Hw.
      congruence.
  - discriminate.
  - rewrite filter_insertWidget, Hw.
    destruct (showsLoading _); simpl; lia.
Qed.

Section Invariant.
Context {J : JsonText}.

Lemma AIChatPanel_new_eq (now : nat → QDateTime) (fs : FileSystem) :
  AIChatPanel_new now fs
  = mkPanel []
      (insertWidget (count [SpacerItem] - 1)
         (WidgetItem 0%nat
            (AIChatBubble_new (mkMessage System welcomeText (now 0%nat) false)))
         [SpacerItem])
      [] true None false 1%nat [ScrollTimer] [] now 1%nat fs.
Proof. reflexivity. Qed.

Lemma tidy_new (now : nat → QDateTime) (fs : FileSystem) :
  tidy (AIChatPanel_new now fs).
Proof.
  rewrite AIChatPanel_new_eq. unfold tidy.
  cbn [m_messagesLayout m_loadingBubble m_isWaitingForResponse].
  apply Tidy_insert_message; [reflexivity|].
  repeat split.
  - exists []. reflexivity.
  - intros w b Hin. apply list_elem_of_singleton in Hin. discriminate.
  - simpl. lia.
Qed.

Lemma tidy_sendMessage (p : AIChatPanel) (message : QString) :
  tidy p → tidy (exec (sendMessage message) p).
Proof.
  intros H.
  destruct (isEmpty (trimmed message) || m_isWaitingForResponse p) eqn:G.
  - unfold exec. rewrite sendMessage_returns_early by exact G. exact H.
  - apply orb_false_iff in G as [G1 G2]. rewrite sendMessage_sends by assumption.
    unfold tidy in *. cbn [m_messagesLayout m_loadingBubble m_isWaitingForResponse].
    rewrite G2 in H. eapply Tidy_sent; [reflexivity | exact H].
Qed.

Lemma tidy_responseTimeout (p : AIChatPanel) (message : QString) :
  tidy p → tidy (exec (responseTimeout message) p).
Proof.
  intros H. rewrite exec_responseTimeout. unfold tidy in *.
  cbn [m_messagesLayout m_loadingBubble m_isWaitingForResponse].
  apply Tidy_insert_message; [reflexivity|].
  apply (Tidy_removed _ _ _ H).
Qed.

Lemma tidy_clearConversation (p : AIChatPanel) :
  tidy p → tidy (exec clearConversation p).
Proof.
  intros H. rewrite exec_clearConversation. unfold tidy in *.
  cbn [m_messagesLayout m_loadingBubble m_isWaitingForResponse].
  apply Tidy_insert_message; [reflexivity|].
  apply (Tidy_cleared _ _ _ H).
Qed.

Lemma tidy_forEach_bubbles (vals : list QJsonValue)
  (decode : QJsonValue → AIChatMessage) (p : AIChatPanel) :
  (∀ v, isLoading (decode v) = false) →
  tidy p →
  tidy (exec (forEach vals (λ val,
                history_append (decode val) ;; addMessageBubble (decode val))) p).
Proof.
  intros Hd. revert p. induction vals as [|v vals IH]; intros p H.
  - exact H.
  - cbn [forEach]. rewrite exec_bind. apply IH.
    unfold tidy in *. apply Tidy_insert_message; [apply Hd | exact H].
Qed.

Lemma tidy_handle (e : Event) (p : AIChatPanel) :
  tidy p → tidy (exec (handle e) p).
Proof.
  intros H. destruct e as [m| |f|f|text| |yes|i|reply]; cbn [handle].
  - apply tidy_sendMessage, H.
  - apply tidy_clearConversation, H.
  - rewrite exec_bind, exec_ret. unfold exec.
    rewrite loadConversation_outcome.
    destruct (openRead (fileSystem p) f) as [data|]; [|exact H].
    destruct (isArray (fromJson data)); [|exact H].
    cbn [snd]. rewrite exec_bind.
    apply (tidy_forEach_bubbles _ messageOfValue); [reflexivity|].
    apply tidy_clearConversation, H.
  - rewrite exec_bind, exec_ret. unfold saveConversation.
    rewrite exec_bind, exec_bind, exec_gets, result_gets, exec_gets.
    rewrite result_gets.
    destruct (openWrite (fileSystem p) f); exact H.
  - exact H.
  - unfold onSendClicked. rewrite exec_bind, exec_gets, result_gets.
    destruct (isEmpty (m_inputField p)); [exact H | apply tidy_sendMessage, H].
  - destruct yes; [apply tidy_clearConversation, H | exact H].
  - destruct (timers p !! i) as [[|m]|] eqn:Hi.
    + rewrite (exec_fire _ _ _ Hi). exact H.
    + rewrite (exec_fire _ _ _ Hi). cbn [runTimer].
      apply tidy_responseTimeout. exact H.
    + rewrite exec_fire_none by exact Hi. exact H.
  - destruct (Z.eq_dec (error reply) NoError) as [E|E].
    + rewrite exec_onApiReplyFinished_ok by exact E. exact H.
    + rewrite exec_onApiReplyFinished_error by exact E. unfold tidy in *.
      cbn [m_messagesLayout m_loadingBubble m_isWaitingForResponse].
      apply Tidy_insert_message; [reflexivity|].
      apply (Tidy_removed _ _ _ H).
Qed.

Lemma reachable_tidy (p : AIChatPanel) : reachable p → tidy p.
Proof.
  induction 1 as [now fs | p e _ IH]; [apply tidy_new | apply tidy_handle, IH].
Qed.

(** C9.  While the panel waits for a response, sendMessage changes nothing:
    every member is as before (history, input field, layout) and the list
    of emitted signals has not grown.  The flag is set by a send that gets
    past the guard and cleared by the reply timer and by a network error.
    And in every state the panel can reach, at most one bubble of the layout
    shows the loading state. *)
Theorem waiting_blocks_sending :
  (∀ (p : AIChatPanel) (message : QString),
     m_isWaitingForResponse p = true →
     sendMessage message p = (tt, p))
  ∧ (∀ (p : AIChatPanel) (message : QString),
       isEmpty (trimmed message) = false →
       m_isWaitingForResponse p = false →
       m_isWaitingForResponse (exec (sendMessage message) p) = true)
  ∧ (∀ (p : AIChatPanel) (message : QString),
       m_isWaitingForResponse (exec (responseTimeout message) p) = false)
  ∧ (∀ (p : AIChatPanel) (reply : QNetworkReply),
       error reply ≠ NoError →
       m_isWaitingForResponse (exec (onApiReplyFinished reply) p) = false)
  ∧ (∀ p : AIChatPanel, reachable p → (loadingBubbles p ≤ 1)%nat).
Proof.
  split; [|split; [|split; [|split]]].
  - intros p message H. apply sendMessage_returns_early.
    rewrite H. apply orb_true_r.
  - intros p message H1 H2. rewrite sendMessage_sends by assumption.
    reflexivity.
  - intros p message. rewrite exec_responseTimeout. reflexivity.
  - intros p reply H. rewrite exec_onApiReplyFinished_error by exact H.
    reflexivity.
  - intros p H. apply reachable_tidy in H as (_ & _ & _ & H). exact H.
Qed.

End Invariant.

(** ** Date-times and their ISO text *)

Lemma digitOf_digitChar (d : Z) : 0 ≤ d ≤ 9 → digitOf (digitChar d) = Some d.
Proof.
  intros H. unfold digitOf, digitChar.
  destruct (N.leb_spec 48 (Z.to_N (48 + d))) as [_|H1]; [|lia].
  destruct (N.leb_spec (Z.to_N (48 + d)) 57) as [_|H2]; [|lia].
  simpl. f_equal. lia.
Qed.

Lemma isDigit_digitChar (d : Z) : 0 ≤ d ≤ 9 → isDigit (digitChar d) = true.
Proof.
  intros H. unfold isDigit, digitChar.
  destruct (N.leb_spec 48 (Z.to_N (48 + d))) as [_|H1]; [|lia].
  destruct (N.leb_spec (Z.to_N (48 + d)) 57) as [_|H2]; [|lia].
  reflexivity.
Qed.

(** Linear arithmetic with division and remainder by constants. *)
#[local] Ltac divlia := Z.to_euclidean_division_equations; lia.

Lemma number_pad2 (n : Z) : 0 ≤ n < 100 → number (pad2 n) = Some n.
Proof.
  intros H. unfold number, pad2. cbn [number_from].
  rewrite !digitOf_digitChar by divlia. cbn. f_equal. divlia.
Qed.

Lemma number_pad4 (n : Z) : 0 ≤ n < 10000 → number (pad4 n) = Some n.
Proof.
  intros H. unfold number, pad4. cbn [number_from].
  rewrite !digitOf_digitChar by divlia. cbn. f_equal. divlia.
Qed.

Lemma daysInMonth_le (y m : Z) : daysInMonth y m ≤ 31.
Proof.
  unfold daysInMonth.
  destruct (m =? 2); [destruct (isLeapYear y); lia|].
  destruct ((m =? 4) || (m =? 6) || (m =? 9) || (m =? 11)); lia.
Qed.

Lemma QDate_isValid_bounds (d : QDate) :
  QDate_isValid d = true → 1 ≤ month d ≤ 12 ∧ 1 ≤ day d ≤ 31.
Proof.
  unfold QDate_isValid. rewrite !andb_true_iff, !Z.leb_le.
  pose proof (daysInMonth_le (year d) (month d)). lia.
Qed.

Lemma QTime_isValid_bounds (t : QTime) :
  QTime_isValid t = true →
  0 ≤ hour t < 24 ∧ 0 ≤ minute t < 60 ∧ 0 ≤ second t < 60 ∧ 0 ≤ msec t < 1000.
Proof.
  unfold QTime_isValid. rewrite !andb_true_iff, !Z.leb_le, !Z.ltb_lt. lia.
Qed.

Lemma parseDate_text (d : QDate) :
  QDate_isValid d = true → 0 ≤ year d ≤ 9999 →
  parseDate (pad4 (year d) ++ [dash] ++ pad2 (month d) ++ [dash] ++ pad2 (day d))
  = Some d.
Proof.
  intros Hv Hy. pose proof (QDate_isValid_bounds d Hv) as [Hm Hd].
  destruct d as [y m dd]. cbn [year month day] in *.
  unfold parseDate, pad4, pad2. cbn [app].
  change [digitChar (y / 1000); digitChar (y / 100 mod 10);
          digitChar (y / 10 mod 10); digitChar (y mod 10)] with (pad4 y).
  change [digitChar (m / 10); digitChar (m mod 10)] with (pad2 m).
  change [digitChar (dd / 10); digitChar (dd mod 10)] with (pad2 dd).
  rewrite number_pad4, !number_pad2 by lia.
  cbn. rewrite Hv. reflexivity.
Qed.

Lemma parseTime_text (t : QTime) (spec : TimeSpec) :
  QTime_isValid t = true →
  parseTime (pad2 (hour t) ++ [colon] ++ pad2 (minute t) ++ [colon]
             ++ pad2 (second t)
             ++ match spec with LocalTime => [] | UTC => [charZ] end)
  = Some (mkQTime (hour t) (minute t) (second t) 0, spec).
Proof.
  intros Hv. pose proof (QTime_isValid_bounds t Hv) as (Hh & Hm & Hs & Hms).
  assert (Hv0 : QTime_isValid (mkQTime (hour t) (minute t) (second t) 0) = true).
  { unfold QTime_isValid in *. cbn [hour minute second msec] in *.
    rewrite !andb_true_iff, !Z.leb_le, !Z.ltb_lt. lia. }
  destruct t as [h m s ms]. cbn [hour minute second msec] in *.
  unfold parseTime, pad2. cbn [app].
  change [digitChar (h / 10); digitChar (h mod 10)] with (pad2 h).
  change [digitChar (m / 10); digitChar (m mod 10)] with (pad2 m).
  change [digitChar (s / 10); digitChar (s mod 10)] with (pad2 s).
  rewrite !number_pad2 by lia.
  destruct spec; cbn; rewrite Hv0; reflexivity.
Qed.

(** Reading back what toString(Qt::ISODate) wrote gives the date-time
    without its milliseconds. *)
Lemma fromString_toString (dt : QDateTime) :
  storable dt = true →
  fromString_ISODate (toString_ISODate dt) = withoutMsecs dt.
Proof.
  destruct dt as [|d t spec]; [reflexivity|].
  unfold storable, toString_ISODate. intros H. rewrite H.
  apply andb_true_iff in H as [H Hy2]. apply andb_true_iff in H as [H Hy1].
  cbn [isValid] in H. apply andb_true_iff in H as [Hd Ht].
  apply Z.leb_le in Hy1, Hy2.
  unfold fromString_ISODate.
  replace (take 10 _)
    with (pad4 (year d) ++ [dash] ++ pad2 (month d) ++ [dash] ++ pad2 (day d))
    by reflexivity.
  rewrite parseDate_text by (assumption || lia).
  replace (drop 10 _)
    with (charT :: (pad2 (hour t) ++ [colon] ++ pad2 (minute t) ++ [colon]
                    ++ pad2 (second t)
                    ++ match spec with LocalTime => [] | UTC => [charZ] end))
    by reflexivity.
  rewrite N.eqb_refl, parseTime_text by assumption. reflexivity.
Qed.

(** What toString(Qt::ISODate) writes for a valid date-time of the years
    0..9999 has the ISO 8601 shape; for any other date-time it is empty. *)
Lemma toString_ISODate_shape (dt : QDateTime) :
  if storable dt && isValid dt then iso8601 (toString_ISODate dt) = true
  else toString_ISODate dt = [].
Proof.
  destruct dt as [|d t spec]; [reflexivity|].
  unfold storable, toString_ISODate.
  destruct (isValid (DateTime d t spec) && (0 <=? year d) && (year d <=? 9999))
    eqn:H; [|reflexivity].
  apply andb_true_iff in H as [H Hy2]. apply andb_true_iff in H as [H Hy1].
  rewrite H. cbn [andb].
  cbn [isValid] in H. apply andb_true_iff in H as [Hd Ht].
  apply Z.leb_le in Hy1, Hy2.
  pose proof (QDate_isValid_bounds d Hd) as [Hm Hdd].
  pose proof (QTime_isValid_bounds t Ht) as (Hh & Hmi & Hs & _).
  unfold pad4, pad2. cbn [app iso8601 forallb].
  rewrite !isDigit_digitChar by divlia.
  destruct spec; reflexivity.
Qed.


Lemma digitOf_range (c : QChar) (d : Z) : digitOf c = Some d → 0 ≤ d ≤ 9.
Proof.
  unfold digitOf.
  destruct (N.leb_spec 48 c), (N.leb_spec c 57); simpl; intros [= <-]; lia.
Qed.

Lemma parseDate_valid (s : QString) (d : QDate) :
  parseDate s = Some d → QDate_isValid d = true ∧ 0 ≤ year d ≤ 9999.
Proof.
  unfold parseDate. do 10 (destruct s as [|? s]; [discriminate|]).
  destruct s; [|discriminate]. unfold number. cbn [number_from].
  intros H.
  repeat match type of H with
         | context [digitOf ?c] =>
           let E := fresh "E" in
           destruct (digitOf c) eqn:E; cbn in H;
           [apply digitOf_range in E|]
         | context [if ?b then _ else _] =>
           let E := fresh "B" in destruct b eqn:E; cbn in H
         end; try discriminate.
  injection H as <-. split; [assumption|]. cbn [year]. lia.
Qed.

Lemma parseTime_valid (s : QString) (t : QTime) (spec : TimeSpec) :
  parseTime s = Some (t, spec) → QTime_isValid t = true.
Proof.
  unfold parseTime. do 8 (destruct s as [|? s]; [discriminate|]).
  intros H.
  repeat match type of H with
         | context [if ?b then _ else _] =>
           let E := fresh "B" in destruct b eqn:E; cbn in H
         | context [mbind _ ?o] =>
           let E := fresh "E" in
           let x := fresh "x" in
           destruct o as [x|] eqn:E; cbn in H;
           try match type of x with (_ * _)%type => destruct x end
         end; try discriminate.
  injection H as <- <-. assumption.
Qed.

(** ** Saving and loading *)

Lemma keys_differ :
  qs "role" ≠ qs "content" ∧ qs "role" ≠ qs "timestamp"
  ∧ qs "content" ≠ qs "timestamp".
Proof. repeat split; discriminate. Qed.

Lemma messageObject_role (msg : AIChatMessage) :
  messageObject msg !! qs "role"
  = Some (Double (Whole (Role_to_int (role msg)))).
Proof.
  destruct keys_differ as (H1 & H2 & H3). unfold messageObject.
  rewrite lookup_insert_ne by congruence.
  rewrite lookup_insert_ne by congruence.
  apply lookup_insert_eq.
Qed.

Lemma messageObject_content (msg : AIChatMessage) :
  messageObject msg !! qs "content" = Some (String (content msg)).
Proof.
  destruct keys_differ as (H1 & H2 & H3). unfold messageObject.
  rewrite lookup_insert_ne by congruence.
  apply lookup_insert_eq.
Qed.

Lemma messageObject_timestamp (msg : AIChatMessage) :
  messageObject msg !! qs "timestamp"
  = Some (String (toString_ISODate (timestamp msg))).
Proof. unfold messageObject. apply lookup_insert_eq. Qed.


Lemma int32_id (z : Z) : isInt z = true → int32 z = z.
Proof.
  unfold isInt, int32. rewrite andb_true_iff, !Z.leb_le. intros [H1 H2].
  rewrite Z.mod_small by lia. lia.
Qed.

Lemma isInt_int32 (z : Z) : isInt (int32 z) = true.
Proof.
  unfold isInt, int32. rewrite andb_true_iff, !Z.leb_le.
  pose proof (Z.mod_pos_bound (z + 2147483648) 4294967296). lia.
Qed.


Lemma Role_of_int_to_int (r : Role) :
  Role_of_int (toInt (Double (Whole (Role_to_int r)))) = int32 r.
Proof.
  unfold Role_of_int, Role_to_int, toInt.
  pose proof (isInt_int32 r) as H. unfold isInt in H. rewrite H.
  reflexivity.
Qed.

(** Decoding the object of a message: the role comes back as the int it
    was written as. *)
Lemma messageOfValue_messageObject (msg : AIChatMessage) :
  storable (timestamp msg) = true →
  messageOfValue (Object (messageObject msg))
  = mkMessage (int32 (role msg)) (content msg)
      (withoutMsecs (timestamp msg)) false.
Proof.
  intros H. unfold messageOfValue, member. cbn [toObject].
  rewrite messageObject_role, messageObject_content, messageObject_timestamp.
  cbn [default from_option id QJson.toString].
  rewrite Role_of_int_to_int, fromString_toString by exact H.
  reflexivity.
Qed.

(** The loop of saveConversation. *)
Lemma foldl_appendMessage (h : list AIChatMessage) (messages : QJsonArray) :
  foldl appendMessage messages h
  = messages ++ map (λ msg, Object (messageObject msg)) h.
Proof.
  revert messages. induction h as [|msg h IH]; intros messages; simpl.
  - rewrite app_nil_r. reflexivity.
  - rewrite IH. unfold appendMessage at 1. fold (messageObject msg).
    rewrite <- app_assoc. reflexivity.
Qed.

Section SaveLoad.
Context {J : JsonText}.

Lemma saveConversation_outcome (p : AIChatPanel) (filepath : QString) :
  saveConversation filepath p
  = if openWrite (fileSystem p) filepath
    then (true,
          withFileSystem
            (writeAll (fileSystem p) filepath
               (toJson (ArrayDocument
                          (map (λ msg, Object (messageObject msg))
                               (m_history p))))) p)
    else (false, p).
Proof.
  unfold saveConversation, bind, gets. rewrite foldl_appendMessage.
  destruct (openWrite (fileSystem p) filepath); reflexivity.
Qed.

(** The loop of loadConversation. *)
Lemma forEach_history (vals : list QJsonValue) (p : AIChatPanel) :
  m_history (exec (forEach vals (λ val,
               let obj := toObject val in
               let msg :=
                 mkMessage (Role_of_int (toInt (member obj (qs "role"))))
                           (toString (member obj (qs "content")))
                           (fromString_ISODate
                              (toString (member obj (qs "timestamp"))))
                           false in
               history_append msg ;; addMessageBubble msg)) p)
  = m_history p ++ map messageOfValue vals.
Proof.
  revert p. induction vals as [|v vals IH]; intros p.
  - simpl. rewrite app_nil_r. reflexivity.
  - cbn [forEach]. rewrite exec_bind, IH. cbn [map].
    change (m_history (exec _ p)) with (m_history p ++ [messageOfValue v]).
    rewrite <- app_assoc. reflexivity.
Qed.

Lemma loadConversation_history (p : AIChatPanel) (filepath : QString)
  (data : QByteArray) (messages : QJsonArray) :
  openRead (fileSystem p) filepath = Some data →
  fromJson data = ArrayDocument messages →
  loadConversation filepath p
  = (true, exec (loadConversation filepath) p)
  ∧ m_history (exec (loadConversation filepath) p) = map messageOfValue messages.
Proof.
  intros Ho Hd. unfold exec at 1 2. rewrite loadConversation_outcome, Ho, Hd.
  cbn [isArray array snd]. split; [reflexivity|].
  rewrite exec_bind, forEach_history. reflexivity.
Qed.


(** What a load makes of a file that holds the text a save wrote of a
    history [h]. *)
Lemma loadConversation_of_saved (q : AIChatPanel) (filepath : QString)
  (h : list AIChatMessage) :
  let doc := ArrayDocument (map (λ msg, Object (messageObject msg)) h) in
  openRead (fileSystem q) filepath = Some (toJson doc) →
  fromJson (toJson doc) = doc →
  Forall (λ msg, storable (timestamp msg) = true) h →
  result (loadConversation filepath) q = true
  ∧ m_history (exec (loadConversation filepath) q)
    = map (λ msg, mkMessage (int32 (role msg)) (content msg)
                    (withoutMsecs (timestamp msg)) false) h.
Proof.
  intros doc Ho RT Hst.
  destruct (loadConversation_history q filepath (toJson doc)
              (map (λ msg, Object (messageObject msg)) h) Ho RT)
    as [Hr Hh].
  unfold result. rewrite Hr. cbn [fst]. rewrite Hh. split; [reflexivity|].
  rewrite map_map. apply map_ext_Forall.
  eapply Forall_impl; [exact Hst|]. intros msg Hm. cbv beta.
  apply messageOfValue_messageObject, Hm.
Qed.

(** The document saveConversation builds. *)
Lemma document_of_history (h : list AIChatMessage) :
  ArrayDocument (foldl appendMessage [] h)
  = ArrayDocument (map (λ msg, Object (messageObject msg)) h).
Proof. rewrite foldl_appendMessage. reflexivity. Qed.

(** C1, as the code has it.  Let [written] be the text saveConversation
    makes of the history.  When the file, read after the save, gives that
    text back (it could be opened for writing and keeps what is written to
    it), the text parses back to the document it was written from, every
    role is an int and every time stamp is null or a valid date-time of the
    years 1..9999, then loading the file succeeds and the history it leaves
    has the same length and, at every index, the same role, the same
    content and the time stamp without its milliseconds. *)
Theorem save_then_load (p : AIChatPanel) (filepath : QString) :
  let document := ArrayDocument (foldl appendMessage [] (m_history p)) in
  let written := toJson document in
  let saved := exec (saveConversation filepath) p in
  let loaded := exec (loadConversation filepath) saved in
  openRead (fileSystem saved) filepath = Some written →
  fromJson written = document →
  Forall (λ msg, isInt (role msg) = true ∧ storable (timestamp msg) = true)
         (m_history p) →
  result (loadConversation filepath) saved = true
  ∧ length (getHistory loaded) = length (getHistory p)
  ∧ ∀ (i : nat) (msg msg' : AIChatMessage),
      getHistory p !! i = Some msg →
      getHistory loaded !! i = Some msg' →
      role msg' = role msg
      ∧ content msg' = content msg
      ∧ timestamp msg' = withoutMsecs (timestamp msg).
Proof.
  intros document written saved loaded Ho RT Hst.
  subst written document. rewrite document_of_history in Ho, RT.
  assert (Hs : m_history saved = m_history p).
  { unfold saved, exec. rewrite saveConversation_outcome.
    destruct (openWrite (fileSystem p) filepath); reflexivity. }
  destruct (loadConversation_of_saved saved filepath (m_history p) Ho RT)
    as [Hr Hh].
  { eapply Forall_impl; [exact Hst|]. intros msg [_ H]. exact H. }
  subst loaded. unfold getHistory. rewrite Hh.
  split; [exact Hr|]. split; [apply length_map|].
  intros i msg msg' Hi Hi'. rewrite list_lookup_fmap, Hi in Hi'.
  injection Hi' as <-. cbn [role content timestamp].
  rewrite Forall_forall in Hst.
  destruct (Hst msg) as [Hint _]; [eapply list_elem_of_lookup_2, Hi|].
  rewrite (int32_id _ Hint). auto.
Qed.

(** The loss does not depend on the codec or on the file: a message whose
    time stamp has milliseconds never comes back as it was. *)
Lemma milliseconds_do_not_survive (p : AIChatPanel) (filepath : QString)
  (i : nat) (msg : AIChatMessage) (d : QDate) (t : QTime) (spec : TimeSpec) :
  let document := ArrayDocument (foldl appendMessage [] (m_history p)) in
  let saved := exec (saveConversation filepath) p in
  openRead (fileSystem saved) filepath = Some (toJson document) →
  fromJson (toJson document) = document →
  Forall (λ msg, storable (timestamp msg) = true) (m_history p) →
  getHistory p !! i = Some msg →
  timestamp msg = DateTime d t spec →
  msec t ≠ 0 →
  getHistory (exec (loadConversation filepath) saved) ≠ getHistory p.
Proof.
  intros document saved Ho RT Hst Hi Ht Hms Heq.
  subst document. rewrite document_of_history in Ho, RT.
  destruct (loadConversation_of_saved saved filepath (m_history p) Ho RT Hst)
    as [_ Hh].
  unfold getHistory in *. rewrite Hh in Heq.
  apply (f_equal (λ h, timestamp <$> h !! i)) in Heq.
  rewrite list_lookup_fmap, Hi in Heq. cbn in Heq. rewrite Ht in Heq.
  cbn in Heq. injection Heq as Heq. apply Hms. rewrite <- Heq. reflexivity.
Qed.

End SaveLoad.


Lemma Forall_stored_as_is (h : list AIChatMessage) :
  forallb (λ msg, isInt (role msg) && storable (timestamp msg)) h = true →
  Forall (λ msg, isInt (role msg) = true ∧ storable (timestamp msg) = true) h.
Proof.
  induction h as [|msg h IH]; simpl; [constructor|].
  rewrite !andb_true_iff. intros [[H1 H2] H3]. constructor; auto.
Qed.


(** C1 on the sample panel, saved as JSON text. *)
Lemma save_then_load_sample :
  let saved := exec (saveConversation (qs "chat.json")) Sample.textAnswered in
  let loaded := exec (loadConversation (qs "chat.json")) saved in
  result (loadConversation (qs "chat.json")) saved = true
  ∧ length (getHistory loaded) = 2%nat
  ∧ map content (getHistory loaded) = map content (getHistory Sample.textAnswered).
Proof.
  destruct (save_then_load (J := jsonText) Sample.textAnswered
              (qs "chat.json"))
    as (Hr & Hl & Hm).
  - vm_compute. reflexivity.
  - vm_compute. reflexivity.
  - apply Forall_stored_as_is. vm_compute. reflexivity.
  - split; [exact Hr|]. split; [exact Hl|]. vm_compute. reflexivity.
Defined.

(** C1 as stated fails: the first message of the sample conversation was
    stamped a quarter of a second past 10:30:01; after saving and loading it
    is stamped 10:30:01 sharp.  And when the file cannot be opened for
    writing, the load that follows reads what the file held before: here an
    empty conversation. *)
Lemma save_then_load_changes_history :
  (let saved := exec (saveConversation (qs "chat.json")) Sample.answered in
   let loaded := exec (loadConversation (qs "chat.json")) saved in
   result (saveConversation (qs "chat.json")) Sample.answered = true
   ∧ result (loadConversation (qs "chat.json")) saved = true
   ∧ timestamp <$> getHistory Sample.answered !! 0%nat
     = Some (DateTime (mkQDate 2024 1 15) (mkQTime 10 30 1 250) LocalTime)
   ∧ timestamp <$> getHistory loaded !! 0%nat
     = Some (DateTime (mkQDate 2024 1 15) (mkQTime 10 30 1 0) LocalTime)
   ∧ getHistory loaded ≠ getHistory Sample.answered)
  ∧ (let saved :=
       exec (saveConversation (qs "/readonly/chat.json")) Sample.answered in
     let loaded := exec (loadConversation (qs "/readonly/chat.json")) saved in
     result (saveConversation (qs "/readonly/chat.json")) Sample.answered
     = false
     ∧ result (loadConversation (qs "/readonly/chat.json")) saved = true
     ∧ length (getHistory Sample.answered) = 2%nat
     ∧ getHistory loaded = []).
Proof.
  cbv zeta. split.
  - split; [vm_compute; reflexivity|]. split; [vm_compute; reflexivity|].
    split; [vm_compute; reflexivity|]. split; [vm_compute; reflexivity|].
    intros H.
    apply (f_equal (λ h, timestamp <$> h !! 0%nat)) in H.
    vm_compute in H. discriminate.
  - repeat split; vm_compute; reflexivity.
Qed.

(** A save that returns true need not be read back: the code does not look
    at what write() returns.  The sample conversation is saved to /dev/null;
    the save returns true, and the load that follows finds no array and
    returns false. *)
Lemma save_to_device_then_load :
  let saved := exec (saveConversation (qs "/dev/null")) Sample.textAnswered in
  result (saveConversation (qs "/dev/null")) Sample.textAnswered = true
  ∧ openRead (fileSystem saved) (qs "/dev/null") = Some []
  ∧ result (loadConversation (qs "/dev/null")) saved = false.
Proof.
  cbv zeta. split; [|split]; vm_compute; reflexivity.
Qed.


(** ** The bubble formatter *)

Lemma startsWith_prefix (s p : QString) :
  startsWith s p = true ↔ p `prefix_of` s.
Proof. apply startsWith_spec. Qed.

Lemma startsWith_not_prefix (s p : QString) :
  startsWith s p = false ↔ ¬ p `prefix_of` s.
Proof.
  rewrite <- startsWith_prefix. destruct (startsWith s p); split; congruence.
Qed.

(** What the lazy scan finds: the shortest continuation on the line after
    which D follows. *)
Lemma lazySpan_found (D : QString) (s cap0 cap : QString) (n : nat) :
  lazySpan D cap0 s = Some (cap, n) →
  ∃ mid rest,
    s = mid ++ D ++ rest
    ∧ cap = rev cap0 ++ mid
    ∧ n = (length cap0 + length mid)%nat
    ∧ (LF ∉ mid)
    ∧ ∀ k, (k < length mid)%nat → ¬ (D `prefix_of` drop k s).
Proof.
  revert cap0. induction s as [|c s IH]; intros cap0; simpl.
  - destruct (startsWith [] D) eqn:E; [|discriminate].
    intros [= <- <-]. apply startsWith_spec in E as [rest E].
    exists [], rest. rewrite app_nil_r.
    split; [exact E|]. split; [reflexivity|]. split; [simpl; lia|].
    split; [apply not_elem_of_nil|]. intros k Hk. simpl in Hk. lia.
  - destruct (startsWith (c :: s) D) eqn:E.
    + intros [= <- <-]. apply startsWith_spec in E as [rest E].
      exists [], rest. rewrite app_nil_r.
      split; [exact E|]. split; [reflexivity|]. split; [simpl; lia|].
      split; [apply not_elem_of_nil|]. intros k Hk. simpl in Hk. lia.
    + destruct (N.eqb_spec c LF) as [->|Hc]; [discriminate|].
      intros H. apply IH in H as (mid & rest & -> & -> & -> & Hnl & Hmin).
      exists (c :: mid), rest.
      split; [reflexivity|].
      split; [simpl; rewrite <- app_assoc; reflexivity|].
      split; [simpl; lia|]. split.
      * intros Hin. apply elem_of_cons in Hin as [Hin|Hin]; [congruence|auto].
      * intros [|k] Hk.
        -- simpl. apply startsWith_not_prefix. exact E.
        -- simpl. apply Hmin. simpl in Hk. lia.
Qed.

Lemma lazySpan_none (D : QString) (s cap0 : QString) :
  lazySpan D cap0 s = None →
  ∀ mid rest, s = mid ++ D ++ rest → LF ∈ mid.
Proof.
  revert cap0. induction s as [|c s IH]; intros cap0; simpl.
  - destruct (startsWith [] D) eqn:E; [discriminate|]. intros _ mid rest H.
    apply startsWith_not_prefix in E. exfalso. apply E.
    destruct mid; [|discriminate]. exists rest. exact H.
  - destruct (startsWith (c :: s) D) eqn:E; [discriminate|].
    apply startsWith_not_prefix in E.
    intros H mid rest Hs. destruct mid as [|c' mid].
    + exfalso. apply E. exists rest. exact Hs.
    + injection Hs as <- Hs.
      destruct (N.eqb_spec c LF) as [->|Hc]; [left|].
      right. eapply IH; eassumption.
Qed.

Lemma drop_app_length' {A} (l k : list A) (n : nat) :
  n = length l → drop n (l ++ k) = k.
Proof. intros ->. apply drop_app_length. Qed.

Lemma matchSpanAt_found (D s cap : QString) (n : nat) :
  matchSpanAt D s = Some (cap, n) →
  ∃ rest, SpanAt D s cap rest
          ∧ n = (length D + length cap + length D)%nat
          ∧ drop n s = rest.
Proof.
  unfold matchSpanAt. destruct (startsWith s D) eqn:E; [|discriminate].
  apply startsWith_spec in E as [r ->]. rewrite drop_app_length.
  destruct r as [|c r]; [discriminate|].
  destruct (N.eqb_spec c LF) as [->|Hc]; [discriminate|].
  destruct (lazySpan D [c] r) as [[cap' n']|] eqn:L; [|discriminate].
  intros [= <- <-].
  apply lazySpan_found in L as (mid & rest & -> & -> & -> & Hnl & Hmin).
  exists rest. simpl rev. simpl app at 1. split; [|split].
  - split; [reflexivity|]. split; [discriminate|]. split.
    + intros Hin. apply elem_of_cons in Hin as [Hin|Hin]; [congruence|auto].
    + intros [|k] Hk; [lia|]. simpl in Hk |- *. apply Hmin. lia.
  - simpl. lia.
  - replace (D ++ c :: mid ++ D ++ rest)
      with ((D ++ (c :: mid) ++ D) ++ rest)
      by (rewrite <- !app_assoc; reflexivity).
    apply drop_app_length'. rewrite !length_app. simpl. lia.
Qed.

Lemma matchSpanAt_none (D s : QString) :
  matchSpanAt D s = None → ∀ cap rest, ¬ SpanAt D s cap rest.
Proof.
  intros H cap rest (-> & Hne & Hnl & _). revert H.
  unfold matchSpanAt.
  destruct (startsWith (D ++ cap ++ D ++ rest) D) eqn:E.
  2:{ apply startsWith_not_prefix in E. destruct E. eexists. reflexivity. }
  rewrite drop_app_length. destruct cap as [|c mid]; [congruence|].
  simpl. destruct (N.eqb_spec c LF) as [->|Hc].
  { destruct Hnl. left. }
  destruct (lazySpan D [c] (mid ++ D ++ rest)) as [[cap' n']|] eqn:L;
    [discriminate|].
  intros _. apply Hnl. right.
  eapply lazySpan_none; [exact L | reflexivity].
Qed.

Lemma replaceSpans_from_skip (D opening closing : QString) (k : nat) (s : QString) :
  replaceSpans_from D opening closing k s
  = replaceSpans_from D opening closing 0 (drop k s).
Proof.
  revert k. induction s as [|c s IH]; intros [|k]; try reflexivity.
  simpl replaceSpans_from at 1. rewrite IH. reflexivity.
Qed.

(** The function does what is meant. *)
Lemma replaceSpans_Substituted (D opening closing s : QString) :
  Substituted D opening closing s (replaceSpans D opening closing s).
Proof.
  unfold replaceSpans.
  induction s as [s IH] using (induction_ltof1 _ (@length QChar)).
  unfold ltof in IH. destruct s as [|c s]; [constructor|].
  cbn [replaceSpans_from].
  destruct (matchSpanAt D (c :: s)) as [[cap n]|] eqn:E.
  - apply matchSpanAt_found in E as (rest & Hspan & -> & Hrest).
    rewrite replaceSpans_from_skip.
    assert (Hn : (1 ≤ length D + length cap + length D)%nat).
    { destruct Hspan as (_ & Hne & _). destruct cap; [congruence|].
      simpl. lia. }
    destruct (length D + length cap + length D)%nat as [|m]; [lia|].
    cbn [drop] in Hrest. replace (S m - 1)%nat with m by lia.
    rewrite Hrest.
    eapply Substituted_span; [exact Hspan|]. apply IH.
    destruct Hspan as (Hs & Hne & _). rewrite Hs, !length_app.
    destruct cap; [congruence|]. simpl. lia.
  - apply Substituted_copy; [apply matchSpanAt_none, E|].
    apply IH. simpl. lia.
Qed.

Lemma SpanAt_functional (D s cap1 rest1 cap2 rest2 : QString) :
  SpanAt D s cap1 rest1 → SpanAt D s cap2 rest2 →
  cap1 = cap2 ∧ rest1 = rest2.
Proof.
  intros (-> & Hne1 & _ & Hmin1) (E & Hne2 & _ & Hmin2).
  apply app_inv_head in E.
  assert (Hlen : length cap1 = length cap2).
  { destruct (Nat.lt_total (length cap1) (length cap2)) as [H|[H|H]];
      [exfalso | exact H | exfalso].
    - apply (Hmin2 (length cap1)).
      + destruct cap1; [congruence|]. simpl. simpl in H. lia.
      + rewrite <- E, drop_app_length. eexists. reflexivity.
    - apply (Hmin1 (length cap2)).
      + destruct cap2; [congruence|]. simpl. simpl in H. lia.
      + rewrite E, drop_app_length. eexists. reflexivity. }
  apply app_inj_1 in E as [-> E]; [|exact Hlen].
  apply app_inv_head in E. auto.
Qed.

(** ... and nothing else is meant: the relation has one outcome. *)
Lemma Substituted_functional (D opening closing s out1 out2 : QString) :
  Substituted D opening closing s out1 →
  Substituted D opening closing s out2 →
  out1 = out2.
Proof.
  intros H1. revert out2.
  induction H1 as [|s cap rest out Hspan _ IH|c s out Hno _ IH];
    intros out2 H2.
  - inversion H2 as [|s' cap' rest' out' Hspan' _|]; subst; [reflexivity|].
    destruct Hspan' as (E & Hne & _). destruct D, cap'; try discriminate.
    congruence.
  - inversion H2 as [|s' cap' rest' out' Hspan' H'|c' s' out' Hno' H']; subst.
    + destruct Hspan as (E & Hne & _). destruct D, cap; try discriminate.
      congruence.
    + destruct (SpanAt_functional _ _ _ _ _ _ Hspan Hspan') as [-> ->].
      rewrite (IH _ H'). reflexivity.
    + destruct (Hno' _ _ Hspan).
  - inversion H2 as [|s' cap' rest' out' Hspan' H'|c' s' out' Hno' H']; subst.
    + destruct (Hno _ _ Hspan').
    + rewrite (IH _ H'). reflexivity.
Qed.

Lemma replace_lineBreaks (s : QString) :
  replace [LF] (qs "<br>") s = lineBreaks s.
Proof.
  unfold replace, lineBreaks.
  induction s as [|c s IH]; [reflexivity|].
  cbn [replace_from startsWith flat_map]. rewrite andb_true_r, N.eqb_sym.
  destruct (c =? LF)%N; cbn [length Nat.sub]; rewrite IH; reflexivity.
Qed.


(** ** The claims on the sample panel *)

Lemma reachable_asked : reachable Sample.asked.
Proof.
  change Sample.asked
    with (exec (handle (CallSendMessage (qs "How do I extrude?")))
               (AIChatPanel_new Sample.clockAt Sample.disk)).
  apply reachable_step, reachable_new.
Qed.

(** C8: on the sample panel, sending, letting the timer fire and saving
    keep what was in the history. *)
Lemma history_append_and_clear_sample :
  m_history (exec clearConversation Sample.answered) = []
  ∧ m_history Sample.asked
    `prefix_of` m_history (run [TimerFires 3;
                                CallSaveConversation (qs "chat.json");
                                CallSendMessage (qs "and a sketch?")]
                               Sample.asked).
Proof.
  destruct (history_append_and_clear (J := documentText))
    as (_ & _ & Hc & Hr).
  split; [apply Hc | apply Hr; reflexivity].
Defined.

(** C9: the sample panel waits; "hello" is ignored; one loading bubble. *)
Lemma waiting_blocks_sending_sample :
  m_isWaitingForResponse Sample.asked = true
  ∧ sendMessage (qs "hello") Sample.asked = (tt, Sample.asked)
  ∧ (loadingBubbles Sample.asked ≤ 1)%nat.
Proof.
  destruct (waiting_blocks_sending (J := documentText))
    as (Hb & _ & _ & _ & Hr).
  split; [reflexivity|].
  split; [apply Hb; reflexivity | apply Hr, reachable_asked].
Defined.

(* ====================================================================== *)
(** * Part III.  More properties of the code                               *)
(* ====================================================================== *)

(** ** Invariants of the event loop *)

Section EventLoop.
Context {J : JsonText}.

Lemma forEach_invariant {A} (P : AIChatPanel → Prop) (body : A → M unit)
  (l : list A) (p : AIChatPanel) :
  (∀ q x, P q → P (exec (body x) q)) →
  P p → P (exec (forEach l body) p).
Proof.
  intros Hb. revert p. induction l as [|x l IH]; intros p Hp; [exact Hp|].
  cbn [forEach]. rewrite exec_bind. apply IH, Hb, Hp.
Qed.

(** What it takes for a property of the panel to survive every event but
    the loading of a file. *)
Lemma handle_invariant_but_load (P : AIChatPanel → Prop) :
  (∀ p m, P p → P (exec (sendMessage m) p)) →
  (∀ p, P p → P (exec clearConversation p)) →
  (∀ p fs, P p → P (withFileSystem fs p)) →
  (∀ p text, P p → P (exec (set_m_inputField text) p)) →
  (∀ p i, timers p !! i = Some ScrollTimer → P p → P (withoutTimer i p)) →
  (∀ p i m, timers p !! i = Some (ResponseTimer m) → P p →
     P (exec (responseTimeout m) (withoutTimer i p))) →
  (∀ p reply, error reply ≠ NoError → P p →
     P (exec (onApiReplyFinished reply) p)) →
  ∀ e p, isLoadEvent e = false → P p → P (exec (handle e) p).
Proof.
  intros Hsend Hclear Hfs Htype Hscroll Htimer Herror e p He Hp.
  destruct e as [m| |f|f|text| |yes|i|reply]; cbn [handle];
    try discriminate He.
  - apply Hsend, Hp.
  - apply Hclear, Hp.
  - rewrite exec_bind, exec_ret. unfold exec. rewrite saveConversation_outcome.
    destruct (openWrite (fileSystem p) f); [apply Hfs, Hp | exact Hp].
  - apply Htype, Hp.
  - unfold onSendClicked. rewrite exec_bind, exec_gets, result_gets.
    destruct (isEmpty (m_inputField p)); [exact Hp | apply Hsend, Hp].
  - destruct yes; [apply Hclear, Hp | exact Hp].
  - destruct (timers p !! i) as [[|m]|] eqn:Hi.
    + rewrite (exec_fire _ _ _ Hi). apply Hscroll; assumption.
    + rewrite (exec_fire _ _ _ Hi). apply Htimer; assumption.
    + rewrite exec_fire_none by exact Hi. exact Hp.
  - destruct (Z.eq_dec (error reply) NoError) as [E|E].
    + rewrite exec_onApiReplyFinished_ok by exact E. exact Hp.
    + apply Herror; assumption.
Qed.

(** ... and every event. *)
Lemma handle_invariant (P : AIChatPanel → Prop) :
  (∀ p m, P p → P (exec (sendMessage m) p)) →
  (∀ p, P p → P (exec clearConversation p)) →
  (∀ p val, P p →
     P (exec (history_append (messageOfValue val) ;;
              addMessageBubble (messageOfValue val)) p)) →
  (∀ p fs, P p → P (withFileSystem fs p)) →
  (∀ p text, P p → P (exec (set_m_inputField text) p)) →
  (∀ p i, timers p !! i = Some ScrollTimer → P p → P (withoutTimer i p)) →
  (∀ p i m, timers p !! i = Some (ResponseTimer m) → P p →
     P (exec (responseTimeout m) (withoutTimer i p))) →
  (∀ p reply, error reply ≠ NoError → P p →
     P (exec (onApiReplyFinished reply) p)) →
  ∀ e p, P p → P (exec (handle e) p).
Proof.
  intros Hsend Hclear Hload Hfs Htype Hscroll Htimer Herror e p Hp.
  destruct (isLoadEvent e) eqn:He.
  2:{ apply handle_invariant_but_load; assumption. }
  destruct e as [| |f| | | | | |]; try discriminate He. cbn [handle].
  rewrite exec_bind, exec_ret. unfold exec. rewrite loadConversation_outcome.
  destruct (openRead (fileSystem p) f) as [data|]; [|exact Hp].
  destruct (isArray (fromJson data)); [|exact Hp].
  cbn [snd]. rewrite exec_bind.
  apply (forEach_invariant P
           (λ val, history_append (messageOfValue val) ;;
                   addMessageBubble (messageOfValue val))).
  - intros q val. apply Hload.
  - apply Hclear, Hp.
Qed.

(** sendMessage, by cases on its guard. *)
Lemma sendMessage_cases (P : AIChatPanel → Prop) (p : AIChatPanel)
  (message : QString) :
  P p →
  (isEmpty (trimmed message) = false →
   m_isWaitingForResponse p = false →
   P (mkPanel
        (m_history p
         ++ [mkMessage User (trimmed message) (clock p (clockReads p)) false])
        (insertWidget
           (count
              (insertWidget (count (m_messagesLayout p) - 1)
                 (WidgetItem (nextWidget p)
                    (AIChatBubble_new
                       (mkMessage User (trimmed message)
                          (clock p (clockReads p)) false)))
                 (m_messagesLayout p)) - 1)
           (WidgetItem (S (nextWidget p))
              (AIChatBubble_new
                 (mkMessage Assistant [] (clock p (S (clockReads p))) true)))
           (insertWidget (count (m_messagesLayout p) - 1)
              (WidgetItem (nextWidget p)
                 (AIChatBubble_new
                    (mkMessage User (trimmed message)
                       (clock p (clockReads p)) false)))
              (m_messagesLayout p)))
        [] false (Some (S (nextWidget p))) true (S (S (nextWidget p)))
        (((timers p ++ [ScrollTimer]) ++ [ScrollTimer])
         ++ [ResponseTimer message])
        (emitted p ++ [messageSent message])
        (clock p) (S (S (clockReads p))) (fileSystem p))) →
  P (exec (sendMessage message) p).
Proof.
  intros Hp Hsent.
  destruct (isEmpty (trimmed message) || m_isWaitingForResponse p) eqn:G.
  - unfold exec. rewrite sendMessage_returns_early by exact G. exact Hp.
  - apply orb_false_iff in G as [G1 G2].
    rewrite sendMessage_sends by assumption. apply Hsent; assumption.
Qed.

Lemma filter_without (A : Type) (f : A → bool) (l : list A) (i : nat) (x : A) :
  l !! i = Some x →
  (length (List.filter f (take i l ++ drop (S i) l)) + (if f x then 1 else 0)
   = length (List.filter f l))%nat.
Proof.
  intros H. rewrite <- (take_drop_middle l i x H) at 3.
  rewrite !List.filter_app, !length_app. simpl.
  destruct (f x); simpl; lia.
Qed.

Lemma filter_snoc_length (A : Type) (f : A → bool) (l : list A) (x : A) :
  length (List.filter f (l ++ [x]))
  = (length (List.filter f l) + (if f x then 1 else 0))%nat.
Proof.
  rewrite List.filter_app, length_app. simpl. destruct (f x); reflexivity.
Qed.

(** X1.  In every state the panel can reach, the send button is enabled
    exactly when the panel is not waiting for a response: sendMessage,
    its timer and the error handler always set the two together, and
    clearing or loading touches neither. *)
Theorem send_button_tracks_waiting (p : AIChatPanel) :
  reachable p → m_sendButton p = negb (m_isWaitingForResponse p).
Proof.
  induction 1 as [now fs | p e _ IH]; [reflexivity|].
  revert e p IH.
  apply (handle_invariant
           (λ p, m_sendButton p = negb (m_isWaitingForResponse p))).
  - intros p m Hp.
    apply (sendMessage_cases
             (λ p, m_sendButton p = negb (m_isWaitingForResponse p)));
      [exact Hp | reflexivity].
  - intros p Hp. exact Hp.
  - intros p val Hp. exact Hp.
  - intros p fs Hp. exact Hp.
  - intros p text Hp. exact Hp.
  - intros p i _ Hp. exact Hp.
  - intros p i m _ _. rewrite exec_responseTimeout. reflexivity.
  - intros p reply E _. rewrite exec_onApiReplyFinished_error by exact E.
    reflexivity.
Qed.

(** X2.  Replies are accounted for: in every state the panel can reach,
    the number of messageSent signals emitted equals the number of
    responseReceived signals emitted plus the number of reply timers still
    pending.  Clearing, loading and network errors neither drop a pending
    reply nor add one. *)
Theorem every_sent_message_gets_one_reply (p : AIChatPanel) :
  reachable p → sentCount p = (receivedCount p + pendingResponses p)%nat.
Proof.
  induction 1 as [now fs | p e _ IH]; [reflexivity|].
  revert e p IH.
  apply (handle_invariant
           (λ p, sentCount p = (receivedCount p + pendingResponses p)%nat)).
  - intros p m Hp.
    apply (sendMessage_cases
             (λ p, sentCount p = (receivedCount p + pendingResponses p)%nat));
      [exact Hp | intros _ _].
    unfold sentCount, receivedCount, pendingResponses in *.
    cbn [emitted timers]. rewrite !filter_snoc_length. simpl. lia.
  - intros p Hp. rewrite exec_clearConversation.
    unfold sentCount, receivedCount, pendingResponses in *.
    cbn [emitted timers]. rewrite filter_snoc_length. simpl. lia.
  - intros p val Hp.
    unfold sentCount, receivedCount, pendingResponses in *.
    cbn [emitted timers exec bind history_append addMessageBubble
         scrollToBottom singleShot gets set_timers set_m_history newWidget
         set_nextWidget set_m_messagesLayout ret snd fst].
    rewrite filter_snoc_length. simpl. lia.
  - intros p fs Hp. exact Hp.
  - intros p text Hp. exact Hp.
  - intros p i Hi Hp. unfold sentCount, receivedCount, pendingResponses in *.
    cbn [withoutTimer emitted timers].
    pose proof (filter_without _ isResponseTimer _ _ _ Hi) as Hf.
    simpl in Hf. lia.
  - intros p i m Hi Hp. rewrite exec_responseTimeout.
    unfold sentCount, receivedCount, pendingResponses in *.
    cbn [withoutTimer emitted timers]. rewrite !filter_snoc_length.
    pose proof (filter_without _ isResponseTimer _ _ _ Hi) as Hf.
    simpl in Hf |- *. lia.
  - intros p reply E Hp. rewrite exec_onApiReplyFinished_error by exact E.
    unfold sentCount, receivedCount, pendingResponses in *.
    cbn [emitted timers]. rewrite !filter_snoc_length. simpl. lia.
Qed.

(** X3.  The panel does not wait for nothing: in every state it can
    reach in which the waiting flag is set (and the send button is therefore
    disabled), the single-shot timer of some sent message is still pending;
    clearing the conversation or loading a file cancels no timer. *)
Theorem waiting_has_pending_timer (p : AIChatPanel) :
  reachable p →
  m_isWaitingForResponse p = true →
  ∃ i message, timers p !! i = Some (ResponseTimer message).
Proof.
  intros Hr Hw.
  assert (Hn : (1 ≤ pendingResponses p)%nat).
  { revert Hw. induction Hr as [now fs | p e _ IH]; [discriminate|].
    revert e p IH.
    apply (handle_invariant
             (λ p, m_isWaitingForResponse p = true
                   → (1 ≤ pendingResponses p)%nat)).
    - intros p m Hp.
      apply (sendMessage_cases
               (λ p, m_isWaitingForResponse p = true
                     → (1 ≤ pendingResponses p)%nat));
        [exact Hp | intros _ _ _].
      unfold pendingResponses. cbn [timers].
      rewrite filter_snoc_length. simpl. lia.
    - intros p Hp Hw. specialize (Hp Hw). rewrite exec_clearConversation.
      unfold pendingResponses in *. cbn [timers].
      rewrite filter_snoc_length. simpl. lia.
    - intros p val Hp Hw. specialize (Hp Hw).
      unfold pendingResponses in *.
      cbn [timers exec bind history_append addMessageBubble
           scrollToBottom singleShot gets set_timers set_m_history newWidget
           set_nextWidget set_m_messagesLayout ret snd fst].
      rewrite filter_snoc_length. simpl. lia.
    - intros p fs Hp. exact Hp.
    - intros p text Hp. exact Hp.
    - intros p i Hi Hp Hw. specialize (Hp Hw).
      unfold pendingResponses in *. cbn [withoutTimer timers].
      pose proof (filter_without _ isResponseTimer _ _ _ Hi) as Hf.
      simpl in Hf. lia.
    - intros p i m _ _. rewrite exec_responseTimeout. discriminate.
    - intros p reply E _. rewrite exec_onApiReplyFinished_error by exact E.
      discriminate. }
  unfold pendingResponses in Hn.
  destruct (List.filter isResponseTimer (timers p)) as [|t ts] eqn:E;
    [simpl in Hn; lia|].
  assert (Hin : In t (List.filter isResponseTimer (timers p)))
    by (rewrite E; left; reflexivity).
  apply List.filter_In in Hin as [Hin Ht].
  destruct t as [|message]; [discriminate|].
  apply list_elem_of_In, list_elem_of_lookup in Hin as [i Hi].
  exists i, message. exact Hi.
Qed.

Lemma m_message_AIChatBubble_new (msg : AIChatMessage) :
  m_message (AIChatBubble_new msg) = msg.
Proof. destruct msg as [r c t []]; reflexivity. Qed.

Lemma shownMessage_new (w : WidgetId) (msg : AIChatMessage) :
  shownMessage (WidgetItem w (AIChatBubble_new msg))
  = if isLoading msg then None else Some msg.
Proof. cbn [shownMessage]. rewrite m_message_AIChatBubble_new. reflexivity. Qed.

Lemma shownMessages_before_last (items : list QLayoutItem) (it : QLayoutItem) :
  shownMessages (items ++ [it; SpacerItem])
  = shownMessages items ++ option_list (shownMessage it).
Proof.
  unfold shownMessages. rewrite omap_app. simpl.
  destruct (shownMessage it); reflexivity.
Qed.

Lemma shownMessages_last (items : list QLayoutItem) :
  shownMessages (items ++ [SpacerItem]) = shownMessages items.
Proof. unfold shownMessages. rewrite omap_app. apply app_nil_r. Qed.

Lemma shownMessages_removeWidget (w : WidgetId) (l : list QLayoutItem) :
  (∀ b, WidgetItem w b ∈ l → isLoading (m_message b) = true) →
  shownMessages (removeWidget w l) = shownMessages l.
Proof.
  unfold shownMessages, removeWidget.
  induction l as [|it l IH]; intros H; [reflexivity|].
  assert (IH' := IH (λ b Hb, H b (list_elem_of_further _ _ _ Hb))).
  change (omap shownMessage (it :: l))
    with (match shownMessage it with
          | Some y => y :: omap shownMessage l
          | None => omap shownMessage l
          end).
  cbn [List.filter]. destruct (holds w it) eqn:E; cbn [negb].
  - destruct it as [w' b|]; [|discriminate].
    apply Nat.eqb_eq in E. subst w'. rewrite IH'.
    cbn [shownMessage]. rewrite (H b) by left. reflexivity.
  - change (omap shownMessage (it :: List.filter (λ it, negb (holds w it)) l))
      with (match shownMessage it with
            | Some y =>
              y :: omap shownMessage (List.filter (λ it, negb (holds w it)) l)
            | None => omap shownMessage (List.filter (λ it, negb (holds w it)) l)
            end).
    rewrite IH'. reflexivity.
Qed.

Lemma elem_of_removeWidget (w : WidgetId) (x : QLayoutItem) (l : list QLayoutItem) :
  x ∈ removeWidget w l → x ∈ l.
Proof.
  unfold removeWidget. rewrite !list_elem_of_In, List.filter_In. tauto.
Qed.

Lemma elem_of_before_last (items : list QLayoutItem) (it x : QLayoutItem) :
  x ∈ items ++ [it; SpacerItem] ↔ x = it ∨ x ∈ items ++ [SpacerItem].
Proof.
  rewrite !elem_of_app, !elem_of_cons, !elem_of_nil. tauto.
Qed.

(** A bubble is added in front of the stretch, at the next address; the
    message is appended to the history or not. *)
Lemma Displayed_add (items : list QLayoutItem) (lb : option WidgetId)
  (next : WidgetId) (h : list AIChatMessage) (msg : AIChatMessage)
  (stored : bool) :
  isLoading msg = false →
  Displayed (items ++ [SpacerItem]) lb next h →
  Displayed (items ++ [WidgetItem next (AIChatBubble_new msg); SpacerItem])
    lb (S next) (if stored then h ++ [msg] else h).
Proof.
  intros Hm ((Hid & Hlb & Hl) & Hh & Hs). split; [split; [|split]|split].
  - intros w b Hin. apply elem_of_before_last in Hin as [Hin|Hin].
    + injection Hin as -> _. lia.
    + specialize (Hid _ _ Hin). lia.
  - intros w Hw. specialize (Hlb _ Hw). lia.
  - intros w b Hw Hin. apply elem_of_before_last in Hin as [Hin|Hin].
    + injection Hin as -> _. specialize (Hlb _ Hw). lia.
    + eauto.
  - destruct stored; [|exact Hh]. apply Forall_app. split; [exact Hh|].
    repeat constructor. exact Hm.
  - rewrite shownMessages_before_last, shownMessage_new, Hm.
    rewrite shownMessages_last in Hs. cbn [option_list].
    destruct stored.
    + apply sublist_app; [exact Hs | reflexivity].
    + apply sublist_inserts_r. exact Hs.
Qed.

(** The loading bubble is taken out. *)
Lemma Displayed_removed (l : list QLayoutItem) (lb : option WidgetId)
  (next : WidgetId) (h : list AIChatMessage) :
  Displayed l lb next h →
  Displayed (match lb with Some w => removeWidget w l | None => l end)
    None next h.
Proof.
  intros ((Hid & Hlb & Hl) & Hh & Hs). split; [split; [|split]|split].
  - intros w b Hin. destruct lb; [apply elem_of_removeWidget in Hin|]; eauto.
  - discriminate.
  - discriminate.
  - exact Hh.
  - destruct lb as [w|]; [|exact Hs].
    rewrite shownMessages_removeWidget; [exact Hs|]. intros b. apply Hl.
    reflexivity.
Qed.

Lemma displayed_sendMessage (p : AIChatPanel) (message : QString) :
  tidy p → displayed p → displayed (exec (sendMessage message) p).
Proof.
  intros ([items E] & _) Hd.
  apply (sendMessage_cases displayed); [exact Hd | intros _ _].
  unfold displayed in *.
  cbn [m_messagesLayout m_loadingBubble nextWidget m_history].
  rewrite E in Hd |- *. rewrite insertWidget_before_last.
  set (userMsg := mkMessage User (trimmed message) (clock p (clockReads p)) false).
  set (loadingMsg := mkMessage Assistant [] (clock p (S (clockReads p))) true).
  pose proof (Displayed_add items _ _ _ userMsg true eq_refl Hd)
    as ((Hid & Hlb & Hl) & Hh & Hs).
  replace (items ++ [WidgetItem (nextWidget p) (AIChatBubble_new userMsg);
                     SpacerItem])
    with ((items ++ [WidgetItem (nextWidget p) (AIChatBubble_new userMsg)])
          ++ [SpacerItem]) in *
    by (rewrite <- app_assoc; reflexivity).
  rewrite insertWidget_before_last.
  split; [split; [|split]|split].
  - intros w b Hin. apply elem_of_before_last in Hin as [Hin|Hin].
    + injection Hin as -> _. lia.
    + specialize (Hid _ _ Hin). lia.
  - intros w [= <-]. lia.
  - intros w b [= <-] Hin. apply elem_of_before_last in Hin as [Hin|Hin].
    + injection Hin as ->. apply isLoading_AIChatBubble_new.
    + specialize (Hid _ _ Hin). lia.
  - exact Hh.
  - rewrite shownMessages_before_last, shownMessage_new.
    cbn [isLoading loadingMsg option_list]. rewrite app_nil_r.
    rewrite shownMessages_last in Hs. exact Hs.
Qed.

Lemma displayed_clearConversation (p : AIChatPanel) :
  tidy p → displayed p → displayed (exec clearConversation p).
Proof.
  intros ([items E] & _) ((Hid & Hlb & Hl) & _).
  rewrite exec_clearConversation. unfold displayed.
  cbn [m_messagesLayout m_loadingBubble nextWidget m_history].
  rewrite E, takeAllButLast_last.
  change [SpacerItem] with ([] ++ [SpacerItem]).
  rewrite insertWidget_before_last.
  apply (Displayed_add [] _ _ []
           (mkMessage System clearedText (clock p (clockReads p)) false)
           false eq_refl).
  split; [split; [|split]|split].
  - intros w b Hin. apply list_elem_of_singleton in Hin. discriminate.
  - exact Hlb.
  - intros w b _ Hin. apply list_elem_of_singleton in Hin. discriminate.
  - constructor.
  - apply sublist_nil_l.
Qed.

Lemma displayed_step (e : Event) (p : AIChatPanel) :
  tidy p ∧ displayed p → tidy (exec (handle e) p) ∧ displayed (exec (handle e) p).
Proof.
  intros [Ht Hd]. split; [apply tidy_handle, Ht|].
  revert e p Ht Hd.
  assert (G : ∀ e p, tidy p ∧ displayed p →
                     tidy (exec (handle e) p) → displayed (exec (handle e) p));
    [|intros e p Ht Hd; apply G; [split; assumption | apply tidy_handle, Ht]].
  intros e p HP _. revert e p HP.
  assert (G : ∀ e p, tidy p ∧ displayed p →
                     tidy p ∧ displayed (exec (handle e) p));
    [|intros e p HP; apply (G e p HP)].
  intros e p [Ht Hd]. split; [exact Ht|]. revert Ht Hd.
  (* by cases on the event, with the layout known to end in the stretch *)
  destruct e as [m| |f|f|text| |yes|i|reply]; cbn [handle]; intros Ht Hd.
  - apply displayed_sendMessage; assumption.
  - apply displayed_clearConversation; assumption.
  - rewrite exec_bind, exec_ret. unfold exec. rewrite loadConversation_outcome.
    destruct (openRead (fileSystem p) f) as [data|]; [|exact Hd].
    destruct (isArray (fromJson data)); [|exact Hd].
    cbn [snd]. rewrite exec_bind.
    assert (H0 : tidy (exec clearConversation p)
                 ∧ displayed (exec clearConversation p)).
    { split; [apply tidy_clearConversation, Ht|].
      apply displayed_clearConversation; assumption. }
    apply (forEach_invariant (λ q, tidy q ∧ displayed q)
             (λ val, history_append (messageOfValue val) ;;
                     addMessageBubble (messageOfValue val)));
      [|exact H0].
    intros q val [Hq1 Hq2]. split.
    + unfold tidy in *. apply Tidy_insert_message; [reflexivity | exact Hq1].
    + destruct Hq1 as ([items E] & _). unfold displayed in *.
      change (Displayed
                (insertWidget (count (m_messagesLayout q) - 1)
                   (WidgetItem (nextWidget q)
                      (AIChatBubble_new (messageOfValue val)))
                   (m_messagesLayout q))
                (m_loadingBubble q) (S (nextWidget q))
                (m_history q ++ [messageOfValue val])).
      rewrite E in Hq2 |- *. rewrite insertWidget_before_last.
      apply (Displayed_add items _ _ _ (messageOfValue val) true eq_refl Hq2).
  - rewrite exec_bind, exec_ret. unfold exec. rewrite saveConversation_outcome.
    destruct (openWrite (fileSystem p) f); exact Hd.
  - exact Hd.
  - unfold onSendClicked. rewrite exec_bind, exec_gets, result_gets.
    destruct (isEmpty (m_inputField p));
      [exact Hd | apply displayed_sendMessage; assumption].
  - destruct yes; [|exact Hd].
    apply displayed_clearConversation; assumption.
  - destruct (timers p !! i) as [[|m]|] eqn:Hi.
    + rewrite (exec_fire _ _ _ Hi). exact Hd.
    + rewrite (exec_fire _ _ _ Hi). cbn [runTimer].
      rewrite exec_responseTimeout. unfold displayed in *.
      unfold withoutLoadingBubble, withoutTimer.
      cbn [m_messagesLayout m_loadingBubble nextWidget m_history
           clock clockReads].
      pose proof (Tidy_removed _ _ _ Ht) as [([items E] & _) _].
      pose proof (Displayed_removed _ _ _ _ Hd) as Hd'.
      cbv zeta in E. rewrite E in Hd' |- *. rewrite insertWidget_before_last.
      apply (Displayed_add items _ _ _
               (mkMessage Assistant (simulatedResponse m)
                  (clock p (clockReads p)) false) true eq_refl Hd').
    + rewrite exec_fire_none by exact Hi. exact Hd.
  - destruct (Z.eq_dec (error reply) NoError) as [E|E].
    + rewrite exec_onApiReplyFinished_ok by exact E. exact Hd.
    + rewrite exec_onApiReplyFinished_error by exact E. unfold displayed in *.
      cbn [m_messagesLayout m_loadingBubble nextWidget m_history].
      pose proof (Tidy_removed _ _ _ Ht) as [([items E'] & _) _].
      pose proof (Displayed_removed _ _ _ _ Hd) as Hd'.
      unfold withoutLoadingBubble.
      cbv zeta in E'. rewrite E' in Hd' |- *. rewrite insertWidget_before_last.
      apply (Displayed_add items _ _ _
               (mkMessage System (arg (tr (qs "Error: %1")) (errorString reply))
                  (clock p (clockReads p)) false) false eq_refl Hd').
Qed.

Lemma reachable_displayed (p : AIChatPanel) :
  reachable p → tidy p ∧ displayed p.
Proof.
  induction 1 as [now fs | p e _ IH]; [|apply displayed_step, IH].
  split; [apply tidy_new|]. rewrite AIChatPanel_new_eq. unfold displayed.
  cbn [m_messagesLayout m_loadingBubble nextWidget m_history].
  change [SpacerItem] with ([] ++ [SpacerItem]).
  rewrite insertWidget_before_last.
  apply (Displayed_add [] None 0%nat []
           (mkMessage System welcomeText (now 0%nat) false) false eq_refl).
  split; [split; [|split]|split].
  - intros w b Hin. apply list_elem_of_singleton in Hin. discriminate.
  - discriminate.
  - discriminate.
  - constructor.
  - apply sublist_nil_l.
Qed.

Lemma reachableDefined_reachable (p : AIChatPanel) :
  reachableDefined p → reachable p.
Proof.
  induction 1 as [now fs | p e _ IH _]; [apply reachable_new|].
  apply reachable_step, IH.
Qed.

(** X4.  What is in the history is on display: in every state the panel
    reaches by a run every step of which is defined (no reply arrives for a
    loading bubble that clearing or loading has deleted), the messages of
    the history are, in the order of the history, among the messages the
    bubbles of the layout show (the welcome, "cleared" and error bubbles are
    shown without being in the history), and no message of the history is a
    loading placeholder. *)
Theorem history_is_displayed (p : AIChatPanel) :
  reachableDefined p →
  m_history p `sublist_of` shownMessages (m_messagesLayout p)
  ∧ Forall (λ msg, isLoading msg = false) (m_history p).
Proof.
  intros H. apply reachableDefined_reachable, reachable_displayed in H
    as (_ & _ & Hl & Hs).
  auto.
Qed.

(** X5.  The welcome text, the "Conversation cleared" text and error
    texts are shown but not stored: as long as no file is loaded, the
    history of a panel holds no System message, whatever else happens. *)
Theorem system_messages_are_not_stored (es : list Event)
  (now : nat → QDateTime) (fs : FileSystem) :
  forallb (λ e, negb (isLoadEvent e)) es = true →
  Forall (λ msg, role msg ≠ System)
         (m_history (run es (AIChatPanel_new now fs))).
Proof.
  assert (G : ∀ p, Forall (λ msg, role msg ≠ System) (m_history p) →
                   forallb (λ e, negb (isLoadEvent e)) es = true →
                   Forall (λ msg, role msg ≠ System) (m_history (run es p))).
  2:{ apply G. constructor. }
  induction es as [|e es IH]; intros p Hp Hes; [exact Hp|].
  cbn [forallb] in Hes. apply andb_true_iff in Hes as [He Hes].
  apply negb_true_iff in He.
  change (run (e :: es) p) with (run es (exec (handle e) p)).
  apply IH; [|exact Hes]. revert He Hp.
  apply (handle_invariant_but_load
           (λ p, Forall (λ msg, role msg ≠ System) (m_history p))).
  - intros q m Hq.
    apply (sendMessage_cases
             (λ p, Forall (λ msg, role msg ≠ System) (m_history p)));
      [exact Hq | intros _ _].
    cbn [m_history]. apply Forall_app. split; [exact Hq|].
    repeat constructor. discriminate.
  - intros q _. constructor.
  - intros q fs' Hq. exact Hq.
  - intros q text Hq. exact Hq.
  - intros q i _ Hq. exact Hq.
  - intros q i m _ Hq. rewrite exec_responseTimeout. cbn [m_history withoutTimer].
    apply Forall_app. split; [exact Hq|]. repeat constructor. discriminate.
  - intros q reply E Hq. rewrite exec_onApiReplyFinished_error by exact E.
    exact Hq.
Qed.

(** The loop of loadConversation, on a layout that is not empty. *)
Lemma forEach_loaded (vals : list QJsonValue) (p : AIChatPanel)
  (items : list QLayoutItem) (last : QLayoutItem) :
  m_messagesLayout p = items ++ [last] →
  exec (forEach vals (λ val,
          history_append (messageOfValue val) ;;
          addMessageBubble (messageOfValue val))) p
  = mkPanel (m_history p ++ map messageOfValue vals)
      (items ++ bubblesFrom (nextWidget p) (map messageOfValue vals) ++ [last])
      (m_inputField p) (m_sendButton p) (m_loadingBubble p)
      (m_isWaitingForResponse p) (nextWidget p + length vals)%nat
      (timers p ++ replicate (length vals) ScrollTimer) (emitted p)
      (clock p) (clockReads p) (fileSystem p).
Proof.
  revert p items. induction vals as [|v vals IH]; intros p items E.
  - cbn [forEach map bubblesFrom length replicate app]. rewrite exec_ret.
    rewrite !app_nil_r, Nat.add_0_r, <- E. destruct p; reflexivity.
  - cbn [forEach]. rewrite exec_bind.
    set (q := exec _ p).
    assert (Hq : q = mkPanel (m_history p ++ [messageOfValue v])
                   (insertWidget (count (m_messagesLayout p) - 1)
                      (WidgetItem (nextWidget p)
                         (AIChatBubble_new (messageOfValue v)))
                      (m_messagesLayout p))
                   (m_inputField p) (m_sendButton p) (m_loadingBubble p)
                   (m_isWaitingForResponse p) (S (nextWidget p))
                   (timers p ++ [ScrollTimer]) (emitted p)
                   (clock p) (clockReads p) (fileSystem p))
      by reflexivity.
    rewrite E, insertWidget_before_last in Hq.
    rewrite (IH q (items ++ [WidgetItem (nextWidget p)
                               (AIChatBubble_new (messageOfValue v))])).
    2:{ rewrite Hq. cbn [m_messagesLayout]. rewrite <- app_assoc. reflexivity. }
    rewrite Hq. cbn [m_history m_messagesLayout m_inputField m_sendButton
      m_loadingBubble m_isWaitingForResponse nextWidget timers emitted clock
      clockReads fileSystem map bubblesFrom length replicate].
    rewrite <- !app_assoc. cbn [app].
    replace (S (nextWidget p) + length vals)%nat
      with (nextWidget p + S (length vals))%nat by lia.
    reflexivity.
Qed.

Lemma loadConversation_success (p : AIChatPanel) (filepath : QString)
  (data : QByteArray) (vals : QJsonArray) :
  openRead (fileSystem p) filepath = Some data →
  fromJson data = ArrayDocument vals →
  exec (loadConversation filepath) p
  = exec (forEach vals (λ val,
            history_append (messageOfValue val) ;;
            addMessageBubble (messageOfValue val)))
         (exec clearConversation p).
Proof.
  intros Ho Hd. unfold exec at 1. rewrite loadConversation_outcome, Ho, Hd.
  cbn [isArray array snd]. rewrite exec_bind. reflexivity.
Qed.

(** X6.  A load that succeeds replaces the conversation: the history has
    one message per element of the array, in the order of the array, with
    the role and the content the element gives (an int, kept as it is, and
    a string; 0 and the empty string by default), none of them a loading
    placeholder; the layout is the "cleared" bubble, then one new bubble per
    message of the history, in order, then the item that was last before;
    and the file system, the input field, the signals emitted, the waiting
    flag, the send button and m_loadingBubble are as they were. *)
Theorem loadConversation_replaces (p : AIChatPanel) (filepath : QString)
  (data : QByteArray) (vals : QJsonArray)
  (items : list QLayoutItem) (last : QLayoutItem) :
  openRead (fileSystem p) filepath = Some data →
  fromJson data = ArrayDocument vals →
  m_messagesLayout p = items ++ [last] →
  let p' := exec (loadConversation filepath) p in
  let cleared :=
    mkMessage System clearedText (clock p (clockReads p)) false in
  map role (m_history p')
  = map (λ val, toInt (member (toObject val) (qs "role"))) vals
  ∧ map content (m_history p')
    = map (λ val, toString (member (toObject val) (qs "content"))) vals
  ∧ Forall (λ msg, isLoading msg = false) (m_history p')
  ∧ m_messagesLayout p'
    = WidgetItem (nextWidget p) (AIChatBubble_new cleared)
      :: bubblesFrom (S (nextWidget p)) (m_history p') ++ [last]
  ∧ fileSystem p' = fileSystem p
  ∧ m_inputField p' = m_inputField p
  ∧ emitted p' = emitted p
  ∧ m_isWaitingForResponse p' = m_isWaitingForResponse p
  ∧ m_sendButton p' = m_sendButton p
  ∧ m_loadingBubble p' = m_loadingBubble p.
Proof.
  intros Ho Hd E p' cleared. subst p'.
  rewrite (loadConversation_success p filepath data vals Ho Hd).
  rewrite (forEach_loaded vals (exec clearConversation p)
             [WidgetItem (nextWidget p) (AIChatBubble_new cleared)] last).
  2:{ rewrite exec_clearConversation. cbn [m_messagesLayout].
      rewrite E, takeAllButLast_last.
      change [last] with ([] ++ [last]).
      rewrite insertWidget_before_last. reflexivity. }
  rewrite exec_clearConversation.
  cbn [m_history m_messagesLayout m_inputField m_sendButton
       m_loadingBubble m_isWaitingForResponse nextWidget timers emitted
       clock clockReads fileSystem app].
  split; [rewrite map_map; reflexivity|].
  split; [rewrite map_map; reflexivity|].
  split; [apply Forall_map, Forall_true; reflexivity|].
  repeat split.
Qed.

(** X7.  What a load makes of an element that is not as saveConversation
    writes it: an element that is not an object becomes a User message with
    empty content and a null time stamp; in an object, a role that is
    missing or not a number gives User, a content that is missing or not a
    string gives the empty text, and a time stamp that is missing or not a
    string gives the null date-time.  No element makes the load fail or is
    skipped. *)
Theorem loadConversation_lenient (p : AIChatPanel) (filepath : QString)
  (data : QByteArray) (vals : QJsonArray) (i : nat) (val : QJsonValue) :
  openRead (fileSystem p) filepath = Some data →
  fromJson data = ArrayDocument vals →
  vals !! i = Some val →
  result (loadConversation filepath) p = true
  ∧ length (m_history (exec (loadConversation filepath) p)) = length vals
  ∧ ∃ msg,
      m_history (exec (loadConversation filepath) p) !! i = Some msg
      ∧ ((∀ o, val ≠ Object o) →
         msg = mkMessage User [] NullDateTime false)
      ∧ (∀ o, val = Object o →
           ((∀ d, o !! qs "role" ≠ Some (Double d)) → role msg = User)
           ∧ ((∀ t, o !! qs "content" ≠ Some (String t)) → content msg = [])
           ∧ ((∀ t, o !! qs "timestamp" ≠ Some (String t))
              → timestamp msg = NullDateTime)).
Proof.
  intros Ho Hd Hi.
  destruct (loadConversation_history p filepath data vals Ho Hd) as [Hr Hh].
  unfold result. rewrite Hr. cbn [fst]. split; [reflexivity|].
  rewrite Hh, length_map. split; [reflexivity|].
  exists (messageOfValue val). rewrite list_lookup_fmap, Hi.
  split; [reflexivity|]. split.
  - intros Hno. destruct val; try reflexivity. destruct (Hno o eq_refl).
  - intros o ->. unfold messageOfValue, member. cbn [toObject role content timestamp].
    split; [|split].
    + intros H. destruct (o !! qs "role") as [[]|]; try reflexivity.
      destruct (H d eq_refl).
    + intros H. destruct (o !! qs "content") as [[]|]; try reflexivity.
      destruct (H s eq_refl).
    + intros H. destruct (o !! qs "timestamp") as [[]|]; try reflexivity.
      destruct (H s eq_refl).
Qed.





(** X10.  Clearing does not cancel a pending reply.  When a message is
    sent and the conversation is cleared before the reply timer fires, the
    history is empty and the layout holds the notice of the clearing alone,
    but the panel stays blocked (waiting, send button disabled), the reply
    timer stays armed, and m_loadingBubble keeps the address of the loading
    bubble, which clearConversation took out of the layout and handed to
    deleteLater(). *)
Theorem clear_while_waiting (p : AIChatPanel) (message : QString) :
  reachable p →
  isEmpty (trimmed message) = false →
  m_isWaitingForResponse p = false →
  let cleared := run [CallSendMessage message; CallClearConversation] p in
  let notice :=
    WidgetItem (S (S (nextWidget p)))
      (AIChatBubble_new
         (mkMessage System clearedText (clock p (S (S (clockReads p))))
            false)) in
  m_history cleared = []
  ∧ m_messagesLayout cleared = [notice; SpacerItem]
  ∧ m_isWaitingForResponse cleared = true
  ∧ m_sendButton cleared = false
  ∧ timers cleared !! (length (timers p) + 2)%nat
    = Some (ResponseTimer message)
  ∧ m_loadingBubble cleared = Some (S (nextWidget p))
  ∧ ∀ bubble, WidgetItem (S (nextWidget p)) bubble ∉ m_messagesLayout cleared.
Proof.
  intros Hr H1 H2 cleared notice.
  destruct (reachable_tidy p Hr) as [[items E] _].
  assert (Hc : cleared
               = mkPanel [] [notice; SpacerItem]
                   [] false (Some (S (nextWidget p))) true
                   (S (S (S (nextWidget p))))
                   (timers p ++ [ScrollTimer; ScrollTimer;
                                 ResponseTimer message; ScrollTimer])
                   (emitted p ++ [messageSent message])
                   (clock p) (S (S (S (clockReads p)))) (fileSystem p)).
  { unfold cleared, notice.
    change (run [CallSendMessage message; CallClearConversation] p)
      with (exec clearConversation (exec (sendMessage message) p)).
    rewrite sendMessage_sends by assumption.
    rewrite exec_clearConversation.
    cbn [m_history m_messagesLayout m_inputField m_sendButton
         m_loadingBubble m_isWaitingForResponse nextWidget timers emitted
         clock clockReads fileSystem].
    rewrite E, insertWidget_before_last.
    replace (items ++ [WidgetItem (nextWidget p)
               (AIChatBubble_new
                  (mkMessage User (trimmed message)
                     (clock p (clockReads p)) false)); SpacerItem])
      with ((items ++ [WidgetItem (nextWidget p)
               (AIChatBubble_new
                  (mkMessage User (trimmed message)
                     (clock p (clockReads p)) false))]) ++ [SpacerItem])
      by (rewrite <- app_assoc; reflexivity).
    rewrite insertWidget_before_last.
    replace ((items ++ [WidgetItem (nextWidget p)
               (AIChatBubble_new
                  (mkMessage User (trimmed message)
                     (clock p (clockReads p)) false))])
             ++ [WidgetItem (S (nextWidget p))
                   (AIChatBubble_new
                      (mkMessage Assistant []
                         (clock p (S (clockReads p))) true)); SpacerItem])
      with ((items ++ [WidgetItem (nextWidget p)
               (AIChatBubble_new
                  (mkMessage User (trimmed message)
                     (clock p (clockReads p)) false));
               WidgetItem (S (nextWidget p))
                   (AIChatBubble_new
                      (mkMessage Assistant []
                         (clock p (S (clockReads p))) true))]) ++ [SpacerItem])
      by (rewrite <- !app_assoc; reflexivity).
    rewrite takeAllButLast_last.
    change [SpacerItem] with ([] ++ [SpacerItem]) at 1.
    rewrite insertWidget_before_last. cbn [app].
    rewrite <- !app_assoc. reflexivity. }
  rewrite Hc.
  cbn [m_history m_messagesLayout m_sendButton m_loadingBubble
       m_isWaitingForResponse timers].
  split; [reflexivity|]. split; [reflexivity|]. split; [reflexivity|].
  split; [reflexivity|]. split.
  { rewrite lookup_app_r by lia.
    replace (length (timers p) + 2 - length (timers p))%nat with 2%nat by lia.
    reflexivity. }
  split; [reflexivity|].
  intros bubble Hin. unfold notice in Hin.
  apply elem_of_cons in Hin as [Hin|Hin]; [injection Hin as Hin _; lia|].
  apply list_elem_of_singleton in Hin. discriminate.
Qed.

Lemma trimmed_nil : trimmed [] = [].
Proof. reflexivity. Qed.

(** X11.  A click on Send sends what the input field holds, and clears
    the field only when the message is sent.  When the field holds nothing
    but blanks, or the panel is waiting for a response, the click changes
    nothing: the text stays in the field.  Otherwise the field is emptied,
    the trimmed text is appended to the history as a User message,
    messageSent carries the text as it was typed, and the panel waits. *)
Theorem onSendClicked_clears_input_when_sent (p : AIChatPanel) :
  let p' := exec onSendClicked p in
  if isEmpty (trimmed (m_inputField p)) || m_isWaitingForResponse p
  then p' = p
  else m_inputField p' = []
       ∧ m_history p'
         = m_history p
           ++ [mkMessage User (trimmed (m_inputField p))
                 (clock p (clockReads p)) false]
       ∧ emitted p' = emitted p ++ [messageSent (m_inputField p)]
       ∧ m_isWaitingForResponse p' = true
       ∧ m_sendButton p' = false.
Proof.
  cbv zeta. unfold onSendClicked. rewrite exec_bind, exec_gets, result_gets.
  destruct (isEmpty (trimmed (m_inputField p)) || m_isWaitingForResponse p)
    eqn:G.
  - destruct (isEmpty (m_inputField p)); cbn [negb]; [reflexivity|].
    unfold exec. rewrite sendMessage_returns_early by exact G. reflexivity.
  - apply orb_false_iff in G as [G1 G2].
    destruct (isEmpty (m_inputField p)) eqn:E.
    { destruct (m_inputField p); [|discriminate E].
      rewrite trimmed_nil in G1. discriminate G1. }
    cbn [negb]. rewrite sendMessage_sends by assumption.
    repeat split.
Qed.

Lemma land_ShiftModifier (m : Z) :
  (Z.land m ShiftModifier =? 0) = negb (Z.testbit m 25).
Proof.
  change ShiftModifier with (2 ^ 25).
  destruct (Z.testbit m 25) eqn:E; cbn [negb].
  - apply Z.eqb_neq. intros H.
    apply (f_equal (λ z, Z.testbit z 25)) in H.
    rewrite Z.land_spec, E, Z.pow2_bits_true, Z.bits_0 in H by lia.
    discriminate H.
  - apply Z.eqb_eq, Z.bits_inj'. intros n Hn.
    rewrite Z.land_spec, Z.bits_0, Z.pow2_bits_eqb by lia.
    destruct (Z.eqb_spec 25 n) as [<-|_];
      [rewrite E; reflexivity | apply andb_false_r].
Qed.

(** X12.  Return and Enter send like a click on Send, and the event is
    accepted, whatever other modifier keys are held, unless Shift is held
    (bit 25 of the modifiers).  With Shift, and for every other key, the
    panel is left as it is and the event goes on to QWidget. *)
Theorem keyPressEvent_sends_unless_shift (event : QKeyEvent) (p : AIChatPanel) :
  keyPressEvent event p
  = if ((key event =? Key_Return) || (key event =? Key_Enter))
       && negb (Z.testbit (modifiers event) 25)
    then (Accepted, exec onSendClicked p)
    else (PassedToQWidget, p).
Proof.
  unfold keyPressEvent. rewrite land_ShiftModifier, negb_involutive.
  destruct ((key event =? Key_Return) || (key event =? Key_Enter));
    [|reflexivity].
  destruct (Z.testbit (modifiers event) 25); [reflexivity|].
  cbn [negb andb]. unfold bind, ret, exec.
  destruct (onSendClicked p); reflexivity.
Qed.

(** X13.  processApiResponse shows the first choice of a response and
    nothing else.  When the response has a member "choices" that is an array
    and not empty, the text of choices[0].message.content (empty when a
    member on the way is missing or of another type) is appended to the
    history as an Assistant message and gets a bubble in front of the last
    item of the layout; in every other case the panel is left as it is.  In
    no case does it touch the waiting flag, the send button, the loading
    bubble or the input field, or emit a signal. *)
Theorem processApiResponse_first_choice (response : QJsonObject)
  (p : AIChatPanel) :
  let p' := exec (processApiResponse response) p in
  match response !! qs "choices" with
  | Some (Array (choice :: _)) =>
    let message := toObject (member (toObject choice) (qs "message")) in
    let assistantMsg :=
      mkMessage Assistant (toString (member message (qs "content")))
        (clock p (clockReads p)) false in
    m_history p' = m_history p ++ [assistantMsg]
    ∧ m_messagesLayout p'
      = insertWidget (count (m_messagesLayout p) - 1)
          (WidgetItem (nextWidget p) (AIChatBubble_new assistantMsg))
          (m_messagesLayout p)
  | _ => p' = p
  end
  ∧ m_isWaitingForResponse p' = m_isWaitingForResponse p
  ∧ m_sendButton p' = m_sendButton p
  ∧ m_loadingBubble p' = m_loadingBubble p
  ∧ m_inputField p' = m_inputField p
  ∧ emitted p' = emitted p.
Proof.
  cbv zeta. unfold processApiResponse, QJsonObject_contains, member.
  destruct (response !! qs "choices") as [v|] eqn:E.
  2:{ rewrite bool_decide_eq_false_2 by (intros [? ?]; discriminate).
      repeat split. }
  rewrite bool_decide_eq_true_2 by (eexists; reflexivity).
  cbn [default from_option id].
  destruct v as [| | | |[|choice choices]| |];
    cbn [toArray QJsonArray_isEmpty negb]; repeat split.
Qed.

Lemma elem_of_takeAllButLast (x : QLayoutItem) (l : list QLayoutItem) :
  x ∈ takeAllButLast l → x ∈ l.
Proof.
  induction l as [|a l IH]; [auto|].
  cbn [takeAllButLast]. destruct l as [|b l]; [auto|].
  intros H. right. apply IH, H.
Qed.

Lemma m_contentLabel_AIChatBubble_new (msg : AIChatMessage) :
  m_contentLabel (AIChatBubble_new msg) = labelOf msg.
Proof. destruct msg as [r c t []]; reflexivity. Qed.

(** X14.  Every bubble shows its message: in every state the panel can
    reach, the content label of each bubble of the layout holds
    "Thinking..." when the bubble's message is a loading placeholder, and
    the formatted content of the message otherwise. *)
Theorem bubbles_show_their_messages (p : AIChatPanel) :
  reachable p →
  ∀ w bubble, WidgetItem w bubble ∈ m_messagesLayout p →
    m_contentLabel bubble = labelOf (m_message bubble).
Proof.
  pose (P := λ p : AIChatPanel,
          ∀ w bubble, WidgetItem w bubble ∈ m_messagesLayout p →
            m_contentLabel bubble = labelOf (m_message bubble)).
  assert (Hadd : ∀ l i w msg,
            (∀ w bubble, WidgetItem w bubble ∈ l →
               m_contentLabel bubble = labelOf (m_message bubble)) →
            ∀ w' bubble,
              WidgetItem w' bubble
                ∈ insertWidget i (WidgetItem w (AIChatBubble_new msg)) l →
              m_contentLabel bubble = labelOf (m_message bubble)).
  { intros l i w msg Hl w' bubble Hin.
    apply elem_of_insertWidget in Hin as [Hin|Hin]; [|apply (Hl w'), Hin].
    injection Hin as _ ->.
    rewrite m_contentLabel_AIChatBubble_new, m_message_AIChatBubble_new.
    reflexivity. }
  assert (Hrm : ∀ q, P q →
            ∀ w bubble, WidgetItem w bubble ∈ withoutLoadingBubble q →
              m_contentLabel bubble = labelOf (m_message bubble)).
  { intros q Hq w bubble Hin. apply (Hq w). unfold withoutLoadingBubble in Hin.
    destruct (m_loadingBubble q); [eapply elem_of_removeWidget|]; exact Hin. }
  intros Hr. fold (P p). induction Hr as [now fs | p e _ IH].
  - rewrite AIChatPanel_new_eq. unfold P. cbn [m_messagesLayout].
    apply Hadd. intros w bubble Hin.
    apply list_elem_of_singleton in Hin. discriminate.
  - revert e p IH. apply (handle_invariant P).
    + intros p m Hp. apply (sendMessage_cases P); [exact Hp|].
      intros _ _. unfold P. cbn [m_messagesLayout].
      apply Hadd, Hadd, Hp.
    + intros p Hp. rewrite exec_clearConversation. unfold P.
      cbn [m_messagesLayout]. apply Hadd.
      intros w bubble Hin. apply (Hp w), elem_of_takeAllButLast, Hin.
    + intros p val Hp. unfold P.
      cbn [m_messagesLayout exec bind history_append addMessageBubble
           scrollToBottom singleShot gets set_timers set_m_history newWidget
           set_nextWidget set_m_messagesLayout ret snd fst].
      apply Hadd, Hp.
    + intros p fs Hp. exact Hp.
    + intros p text Hp. exact Hp.
    + intros p i _ Hp. exact Hp.
    + intros p i m _ Hp. rewrite exec_responseTimeout. unfold P.
      cbn [m_messagesLayout]. apply Hadd, (Hrm (withoutTimer i p)), Hp.
    + intros p reply E Hp.
      rewrite exec_onApiReplyFinished_error by exact E. unfold P.
      cbn [m_messagesLayout]. apply Hadd, Hrm, Hp.
Qed.

(** ** The reply and the network error, where the loading bubble is alive *)

Lemma removeWidget_absent (w : WidgetId) (l : list QLayoutItem) :
  (∀ b, WidgetItem w b ∉ l) → removeWidget w l = l.
Proof.
  induction l as [|it l IH]; intros H; [reflexivity|].
  unfold removeWidget. cbn [List.filter].
  assert (Hl : removeWidget w l = l).
  { apply IH. intros b Hin. apply (H b). right. exact Hin. }
  destruct it as [w' b|]; cbn [holds negb].
  - destruct (Nat.eqb_spec w w') as [->|_].
    + destruct (H b). left.
    + cbn [negb]. f_equal. exact Hl.
  - f_equal. exact Hl.
Qed.

Lemma holds_nowhere (w : WidgetId) (l : list QLayoutItem) :
  existsb (holds w) l = false → ∀ b, WidgetItem w b ∉ l.
Proof.
  intros H b Hin. assert (E : existsb (holds w) l = true).
  { apply existsb_exists. exists (WidgetItem w b).
    split; [apply list_elem_of_In, Hin | apply Nat.eqb_refl]. }
  congruence.
Qed.

Lemma withoutLoadingBubble_taken (p : AIChatPanel) (rest : list QLayoutItem) :
  LoadingBubbleTaken (m_loadingBubble p) (m_messagesLayout p) rest →
  withoutLoadingBubble p = rest.
Proof.
  unfold withoutLoadingBubble.
  destruct 1 as [l|w bubble before after Hb Ha]; [reflexivity|].
  unfold removeWidget. rewrite List.filter_app. cbn [List.filter holds].
  rewrite Nat.eqb_refl. cbn [negb].
  fold (removeWidget w before) (removeWidget w after).
  rewrite !removeWidget_absent by assumption. reflexivity.
Qed.

(** X20.  The simulated reply.  A message that is sent leaves one timer
    behind that holds the message as it was given.  When that timer fires
    in a state where m_loadingBubble is null or the address of a bubble of
    the layout, the reply is chosen by the keywords the message mentions,
    in whatever case its letters are, in this order: help, else sketch,
    else pad or extrude, else the generic text; the reply is appended to
    the history as an Assistant message; the loading bubble is gone from
    the layout and the bubble of the reply stands in front of the last item
    of what remains; the panel waits no more, the send button is enabled
    and responseReceived is emitted with the reply. *)
Theorem reply_selected_by_keyword (message : QString) :
  (∀ p0 : AIChatPanel,
     isEmpty (trimmed message) = false →
     m_isWaitingForResponse p0 = false →
     timers (exec (sendMessage message) p0)
     = timers p0 ++ [ScrollTimer; ScrollTimer; ResponseTimer message])
  ∧ (∀ (p : AIChatPanel) (i : nat) (items : list QLayoutItem)
       (last : QLayoutItem),
       timers p !! i = Some (ResponseTimer message) →
       LoadingBubbleTaken (m_loadingBubble p) (m_messagesLayout p)
         (items ++ [last]) →
       let p' := exec (fire i) p in
       ∃ reply : QString,
         let assistantMsg :=
           mkMessage Assistant reply (clock p (clockReads p)) false in
         ((mentions message (qs "help") ∧ reply = helpResponse)
          ∨ (¬ mentions message (qs "help")
             ∧ mentions message (qs "sketch") ∧ reply = sketchResponse)
          ∨ (¬ mentions message (qs "help")
             ∧ ¬ mentions message (qs "sketch")
             ∧ (mentions message (qs "pad")
                ∨ mentions message (qs "extrude"))
             ∧ reply = padResponse)
          ∨ (¬ mentions message (qs "help")
             ∧ ¬ mentions message (qs "sketch")
             ∧ ¬ mentions message (qs "pad")
             ∧ ¬ mentions message (qs "extrude")
             ∧ reply = genericResponse))
         ∧ m_history p' = m_history p ++ [assistantMsg]
         ∧ m_messagesLayout p'
           = items
             ++ [WidgetItem (nextWidget p) (AIChatBubble_new assistantMsg);
                 last]
         ∧ m_loadingBubble p' = None
         ∧ m_isWaitingForResponse p' = false
         ∧ m_sendButton p' = true
         ∧ emitted p' = emitted p ++ [responseReceived reply]).
Proof.
  split.
  - intros p0 H1 H2. rewrite sendMessage_sends by assumption.
    cbn [timers]. rewrite <- !app_assoc. reflexivity.
  - intros p i items last Hi Ht p'. subst p'. rewrite (exec_fire _ _ _ Hi).
    cbn [runTimer]. rewrite exec_responseTimeout.
    exists (simulatedResponse message). cbv zeta.
    split; [apply simulatedResponse_spec|].
    cbn [m_history m_messagesLayout m_loadingBubble m_isWaitingForResponse
         m_sendButton emitted].
    split; [reflexivity|]. split; [|repeat split].
    change (withoutLoadingBubble (withoutTimer i p))
      with (withoutLoadingBubble p).
    rewrite (withoutLoadingBubble_taken p _ Ht).
    apply insertWidget_before_last.
Qed.

(** X21.  A network error.  When a network reply finishes with an error in
    a state where m_loadingBubble is null or the address of a bubble of the
    layout, errorOccurred is emitted with the error string; the loading
    bubble is gone from the layout and a System bubble whose text is
    "Error: " followed by the error string stands in front of the last item
    of what remains; the panel waits no more, the send button is enabled,
    and the history is as it was. *)
Theorem reply_error_shown (p : AIChatPanel) (reply : QNetworkReply)
  (items : list QLayoutItem) (last : QLayoutItem) :
  error reply ≠ NoError →
  LoadingBubbleTaken (m_loadingBubble p) (m_messagesLayout p)
    (items ++ [last]) →
  let p' := exec (onApiReplyFinished reply) p in
  let errorMsg :=
    mkMessage System (qs "Error: " ++ errorString reply)
      (clock p (clockReads p)) false in
  emitted p' = emitted p ++ [errorOccurred (errorString reply)]
  ∧ m_messagesLayout p'
    = items ++ [WidgetItem (nextWidget p) (AIChatBubble_new errorMsg); last]
  ∧ m_loadingBubble p' = None
  ∧ m_isWaitingForResponse p' = false
  ∧ m_sendButton p' = true
  ∧ m_history p' = m_history p.
Proof.
  intros H Ht p'. subst p'. rewrite exec_onApiReplyFinished_error by assumption.
  rewrite arg_error. cbv zeta. cbn [emitted m_messagesLayout m_loadingBubble
    m_isWaitingForResponse m_sendButton m_history].
  split; [reflexivity|]. split; [|repeat split].
  rewrite (withoutLoadingBubble_taken p _ Ht).
  apply insertWidget_before_last.
Qed.

End EventLoop.

(** ** The bubble formatter on plain text, on a first span, on lines *)

Section Formatting.

Lemma plainText_app (x y : QString) :
  plainText (x ++ y) = plainText x && plainText y.
Proof. apply forallb_app. Qed.

Lemma plainText_spec (x : QString) :
  plainText x = true → (asterisk ∉ x) ∧ (backtick ∉ x) ∧ (LF ∉ x).
Proof.
  induction x as [|a x IH]; cbn [plainText forallb].
  - intros _. repeat split; apply not_elem_of_nil.
  - fold (plainText x). intros H. apply andb_true_iff in H as [Ha Hx].
    destruct (IH Hx) as (H1 & H2 & H3).
    unfold isMarker in Ha. apply negb_true_iff in Ha.
    apply orb_false_iff in Ha as [Ha Ha3].
    apply orb_false_iff in Ha as [Ha1 Ha2].
    apply N.eqb_neq in Ha1, Ha2, Ha3.
    repeat split; apply not_elem_of_cons; (split; [congruence | assumption]).
Qed.

(** A code unit at which the delimiter does not begin is copied. *)
Lemma replaceSpans_copy (D opening closing : QString) (a : QChar)
  (s : QString) :
  ¬ (D `prefix_of` a :: s) →
  replaceSpans D opening closing (a :: s)
  = a :: replaceSpans D opening closing s.
Proof.
  intros H.
  apply (Substituted_functional D opening closing (a :: s));
    [apply replaceSpans_Substituted|].
  apply Substituted_copy; [|apply replaceSpans_Substituted].
  intros cap rest (E & _). apply H. rewrite E. eexists. reflexivity.
Qed.

(** Text without the first code unit of the delimiter is copied. *)
Lemma replaceSpans_prefix (d : QChar) (D opening closing x y : QString) :
  d ∉ x →
  replaceSpans (d :: D) opening closing (x ++ y)
  = x ++ replaceSpans (d :: D) opening closing y.
Proof.
  induction x as [|a x IH]; intros H; [reflexivity|].
  apply not_elem_of_cons in H as [Ha Hx]. cbn [app].
  rewrite replaceSpans_copy; [rewrite IH by exact Hx; reflexivity|].
  intros [r E]. injection E as E _. congruence.
Qed.

Lemma replaceSpans_nil (D opening closing : QString) :
  replaceSpans D opening closing [] = [].
Proof. reflexivity. Qed.


Lemma lineBreaks_app (x y : QString) :
  lineBreaks (x ++ y) = lineBreaks x ++ lineBreaks y.
Proof. apply flat_map_app. Qed.

Lemma lineBreaks_plain (x : QString) : LF ∉ x → lineBreaks x = x.
Proof.
  induction x as [|a x IH]; intros H; [reflexivity|].
  apply not_elem_of_cons in H as [Ha Hx].
  unfold lineBreaks. cbn [flat_map]. fold (lineBreaks x).
  destruct (N.eqb_spec a LF) as [->|_]; [congruence|].
  rewrite IH by exact Hx. reflexivity.
Qed.

(** The three passes and the line breaks on text in which none of the
    markers occurs. *)
Lemma passes_prefix (x y : QString) :
  (asterisk ∉ x) → (backtick ∉ x) → (LF ∉ x) →
  lineBreaks
    (replaceSpans (qs "`") codeOpen codeClose
       (replaceSpans (qs "*") italicOpen italicClose (x ++ y)))
  = x ++ lineBreaks
           (replaceSpans (qs "`") codeOpen codeClose
              (replaceSpans (qs "*") italicOpen italicClose y)).
Proof.
  intros H1 H2 H3.
  change (qs "*") with [asterisk]. change (qs "`") with [backtick].
  rewrite (replaceSpans_prefix asterisk []) by exact H1.
  rewrite (replaceSpans_prefix backtick []) by exact H2.
  rewrite lineBreaks_app, lineBreaks_plain by exact H3. reflexivity.
Qed.

Lemma formatContent_eq (content : QString) :
  formatContent content
  = lineBreaks
      (replaceSpans (qs "`") codeOpen codeClose
         (replaceSpans (qs "*") italicOpen italicClose
            (replaceSpans (qs "**") boldOpen boldClose content))).
Proof. unfold formatContent. cbv zeta. apply replace_lineBreaks. Qed.

Lemma formatContent_prefix (x y : QString) :
  plainText x = true → formatContent (x ++ y) = x ++ formatContent y.
Proof.
  intros H. apply plainText_spec in H as (H1 & H2 & H3).
  rewrite !formatContent_eq. change (qs "**") with [asterisk; asterisk].
  rewrite (replaceSpans_prefix asterisk [asterisk]) by exact H1.
  apply passes_prefix; assumption.
Qed.

(** X15.  Text in which no asterisk, no backtick and no line feed occurs
    is shown as it is; in particular nothing is escaped: what the text has
    of HTML reaches the rich-text label unchanged. *)
Theorem formatContent_plain (content : QString) :
  plainText content = true → formatContent content = content.
Proof.
  intros H. rewrite <- (app_nil_r content) at 1.
  rewrite formatContent_prefix by exact H. apply app_nil_r.
Qed.









End Formatting.

(** ** Collapsing and expanding *)

Section Collapsing.

Lemma CollapseInv_setCollapsed (collapsed : bool) (c : Collapsible) :
  CollapseInv c → CollapseInv (setCollapsed collapsed c).
Proof.
  intros (Hlen & Hflag & Hsig & Hanim & Htip). unfold setCollapsed.
  destruct (Bool.eqb (m_isCollapsed c) collapsed) eqn:E.
  { repeat split; assumption. }
  apply Bool.eqb_false_iff in E.
  assert (Hc : collapsed = Nat.even (length (started c))).
  { rewrite <- Nat.negb_odd, <- Hflag.
    destruct collapsed, (m_isCollapsed c); try reflexivity; congruence. }
  unfold CollapseInv, updateCollapseButtonIcon.
  cbn [m_isCollapsed m_expandedHeight contentHeight contentMaximumHeight
       collapseToolTip started collapseSignals].
  rewrite !length_app, Hlen. cbn [length].
  split; [reflexivity|]. split.
  { rewrite Nat.add_1_r, Nat.odd_succ. exact Hc. }
  split; [|split; [|reflexivity]].
  - intros i sig Hi. apply lookup_snoc_Some in Hi as [[_ Hi]|[-> <-]].
    + apply Hsig, Hi.
    + rewrite Hlen, Hc. reflexivity.
  - intros i a Hi. apply lookup_snoc_Some in Hi as [[_ Hi]|[-> <-]].
    + apply Hanim, Hi.
    + rewrite <- Hc. destruct collapsed; [reflexivity|].
      cbn [startValue endValue]. split; [reflexivity|].
      destruct (Z.gtb_spec (m_expandedHeight c) 0); lia.
Qed.

Lemma CollapseInv_step (e : CollapseEvent) (c : Collapsible) :
  CollapseInv c → CollapseInv (collapseStep e c).
Proof.
  intros H. destruct e as [collapsed| | | |height]; cbn [collapseStep].
  - apply CollapseInv_setCollapsed, H.
  - apply CollapseInv_setCollapsed, H.
  - apply CollapseInv_setCollapsed, H.
  - destruct H as (Hlen & Hflag & Hsig & Hanim & _).
    unfold animationFinished, updateCollapseButtonIcon.
    destruct (m_isCollapsed c) eqn:E; cbn [negb]; repeat split;
      cbn [m_isCollapsed started collapseSignals]; rewrite ?E; assumption.
  - destruct H as (Hlen & Hflag & Hsig & Hanim & Htip).
    repeat split; assumption.
Qed.

(** X18.  The collapseStateChanged signals alternate, beginning with
    "collapsed".  In every state the collapsible part can reach, as many
    signals were emitted as animations were started; the signal and the
    animation of an even position (counting from 0) are a collapse, the
    animation ending at height 0, those of an odd position an expansion,
    the animation rising from 0 to a positive height; the panel is
    collapsed exactly when their number is odd; and the tool tip of the
    collapse button names the action that is possible next. *)
Theorem collapse_signals_alternate (c : Collapsible) :
  collapseReachable c →
  length (collapseSignals c) = length (started c)
  ∧ m_isCollapsed c = Nat.odd (length (started c))
  ∧ (∀ i sig, collapseSignals c !! i = Some sig →
       sig = collapseStateChanged (Nat.even i))
  ∧ (∀ i a, started c !! i = Some a →
       if Nat.even i then endValue a = 0
       else startValue a = 0 ∧ 0 < endValue a)
  ∧ collapseToolTip c
    = (if m_isCollapsed c then tr (qs "Expand panel")
       else tr (qs "Collapse panel")).
Proof.
  intros H. change (CollapseInv c).
  induction H as [height | c e _ IH]; [|apply CollapseInv_step, IH].
  repeat split; intros i x Hi; discriminate Hi.
Qed.

Lemma passive_run (es : list CollapseEvent) (c : Collapsible) :
  forallb isPassive es = true →
  m_isCollapsed (collapseRun es c) = m_isCollapsed c
  ∧ m_expandedHeight (collapseRun es c) = m_expandedHeight c
  ∧ started (collapseRun es c) = started c
  ∧ collapseSignals (collapseRun es c) = collapseSignals c.
Proof.
  revert c. induction es as [|e es IH]; intros c H; [repeat split|].
  cbn [forallb] in H. apply andb_true_iff in H as [He Hes].
  unfold collapseRun in *. cbn [foldl].
  destruct (IH (collapseStep e c) Hes) as (-> & -> & -> & ->).
  destruct e as [collapsed| | | |height]; try discriminate He;
    cbn [collapseStep]; [|repeat split].
  unfold animationFinished, updateCollapseButtonIcon.
  destruct (m_isCollapsed c) eqn:E; cbn [negb]; repeat split;
    cbn [m_isCollapsed]; rewrite ?E; reflexivity.
Qed.

(** X19.  Expanding brings back the height the panel had.  When an
    expanded panel is collapsed and later expanded again, with nothing in
    between but animations finishing and the layout giving the content
    other heights, the expansion is animated from 0 to the height the
    content had at the moment of collapsing, or to 400 when that height was
    not positive; two animations are started and two signals emitted in
    all. *)
Theorem expanding_restores_height (c : Collapsible) (es : list CollapseEvent) :
  m_isCollapsed c = false →
  forallb isPassive es = true →
  let c' := setCollapsed false (collapseRun es (setCollapsed true c)) in
  m_isCollapsed c' = false
  ∧ started c'
    = started c
      ++ [mkAnimation (contentHeight c) 0;
          mkAnimation 0
            (if contentHeight c >? 0 then contentHeight c else 400)]
  ∧ collapseSignals c'
    = collapseSignals c
      ++ [collapseStateChanged true; collapseStateChanged false].
Proof.
  intros Hc Hes c'.
  destruct (passive_run es (setCollapsed true c) Hes) as (H1 & H2 & H3 & H4).
  assert (E : ∀ c2, m_isCollapsed c2 = true →
            let c3 := setCollapsed false c2 in
            m_isCollapsed c3 = false
            ∧ started c3
              = started c2
                ++ [mkAnimation 0
                      (if m_expandedHeight c2 >? 0 then m_expandedHeight c2
                       else 400)]
            ∧ collapseSignals c3
              = collapseSignals c2 ++ [collapseStateChanged false]).
  { intros c2 Hc2. unfold setCollapsed. rewrite Hc2. repeat split. }
  assert (F : m_isCollapsed (setCollapsed true c) = true
              ∧ m_expandedHeight (setCollapsed true c) = contentHeight c
              ∧ started (setCollapsed true c)
                = started c ++ [mkAnimation (contentHeight c) 0]
              ∧ collapseSignals (setCollapsed true c)
                = collapseSignals c ++ [collapseStateChanged true]).
  { unfold setCollapsed. rewrite Hc. repeat split. }
  destruct F as (F1 & F2 & F3 & F4).
  destruct (E (collapseRun es (setCollapsed true c))) as (E1 & E2 & E3);
    [rewrite H1; exact F1|].
  fold c' in E1, E2, E3. rewrite E1, E2, E3, H2, H3, H4, F2, F3, F4.
  rewrite <- !app_assoc. repeat split.
Qed.

End Collapsing.

(** ** The properties on the sample panel *)

Lemma reachable_answered : reachable Sample.answered.
Proof.
  change Sample.answered
    with (exec (handle (TimerFires 3)) Sample.asked).
  apply reachable_step, reachable_asked.
Qed.

Lemma collapseReachable_run (es : list CollapseEvent) (c : Collapsible) :
  collapseReachable c → collapseReachable (collapseRun es c).
Proof.
  revert c. induction es as [|e es IH]; intros c H; [exact H|].
  apply (IH (collapseStep e c)), collapseReachable_step, H.
Qed.

(** X1 while the sample panel waits for its reply. *)
Lemma send_button_tracks_waiting_sample :
  m_sendButton Sample.asked = negb (m_isWaitingForResponse Sample.asked).
Proof.
  exact (send_button_tracks_waiting (J := documentText) Sample.asked
           reachable_asked).
Defined.

(** X2 once the reply has come: one sent, one received, none pending. *)
Lemma every_sent_message_gets_one_reply_sample :
  sentCount Sample.answered
  = (receivedCount Sample.answered + pendingResponses Sample.answered)%nat.
Proof.
  exact (every_sent_message_gets_one_reply (J := documentText)
           Sample.answered reachable_answered).
Defined.

(** X3 while the sample panel waits. *)
Lemma waiting_has_pending_timer_sample :
  ∃ i message, timers Sample.asked !! i = Some (ResponseTimer message).
Proof.
  apply (waiting_has_pending_timer (J := documentText) Sample.asked
           reachable_asked).
  vm_compute. reflexivity.
Defined.

Lemma reachableDefined_answered : reachableDefined Sample.answered.
Proof.
  change Sample.answered
    with (exec (handle (TimerFires 3))
            (exec (handle (CallSendMessage (qs "How do I extrude?")))
               (AIChatPanel_new Sample.clockAt Sample.disk))).
  apply reachableDefined_step;
    [apply reachableDefined_step;
       [apply reachableDefined_new | reflexivity]
    | vm_compute; reflexivity].
Qed.

(** X4 once the reply has come. *)
Lemma history_is_displayed_sample :
  m_history Sample.answered
    `sublist_of` shownMessages (m_messagesLayout Sample.answered)
  ∧ Forall (λ msg, isLoading msg = false) (m_history Sample.answered).
Proof.
  exact (history_is_displayed (J := documentText) Sample.answered
           reachableDefined_answered).
Defined.

(** X5: a question, its reply, a network error, a cleared conversation and
    another question. *)
Lemma system_messages_are_not_stored_sample :
  Forall (λ msg, role msg ≠ System)
    (m_history
       (run [CallSendMessage (qs "How do I extrude?"); TimerFires 3;
             ReplyFinished (mkReply 1 (qs "Connection refused"));
             CallClearConversation; UserTypes (qs "hello"); ClickSend]
          (AIChatPanel_new Sample.clockAt Sample.disk))).
Proof.
  apply (system_messages_are_not_stored (J := documentText)).
  vm_compute. reflexivity.
Defined.

(** X6: the sample conversation is saved, and loaded while the panel shows
    it. *)
Lemma loadConversation_replaces_sample :
  let saved := exec (saveConversation (qs "chat.json")) Sample.answered in
  let loaded := exec (loadConversation (qs "chat.json")) saved in
  map content (m_history loaded)
  = [qs "How do I extrude?"; simulatedResponse (qs "How do I extrude?")]
  ∧ map role (m_history loaded) = [User; Assistant]
  ∧ length (m_messagesLayout loaded) = 4%nat
  ∧ m_isWaitingForResponse loaded = false.
Proof.
  cbv zeta.
  destruct (loadConversation_replaces (J := documentText)
              (exec (saveConversation (qs "chat.json")) Sample.answered)
              (qs "chat.json")
              (ArrayDocument
                 (map (λ msg, Object (messageObject msg))
                      (m_history Sample.answered)))
              (map (λ msg, Object (messageObject msg))
                   (m_history Sample.answered))
              (take 3 (m_messagesLayout Sample.answered)) SpacerItem)
    as (Hr & Hc & _ & Hl & _ & _ & _ & Hw & _);
    [vm_compute; reflexivity | reflexivity | vm_compute; reflexivity |].
  cbv zeta in Hr, Hc, Hl. rewrite Hr, Hc, Hl, Hw.
  split; [vm_compute; reflexivity|]. split; [vm_compute; reflexivity|].
  split; [|vm_compute; reflexivity].
  rewrite length_cons, length_app.
  assert (Hb : ∀ w h, length (bubblesFrom w h) = length h).
  { intros w h. revert w. induction h as [|m h IH]; intros w; [reflexivity|].
    cbn [bubblesFrom length]. rewrite IH. reflexivity. }
  rewrite Hb, <- (length_map role), Hr. vm_compute. reflexivity.
Defined.

(** X7: a file whose array holds a number and an object without role and
    time stamp. *)
Lemma loadConversation_lenient_sample :
  let odd :=
    [Double (Whole 7); Object (<[qs "content" := String (qs "hi")]> ∅)] in
  let p :=
    withFileSystem
      (mkFileSystem (J := documentText)
         (<[qs "odd.json" := ArrayDocument odd]> ∅) ∅ ∅)
      Sample.panel in
  result (loadConversation (qs "odd.json")) p = true
  ∧ length (m_history (exec (loadConversation (qs "odd.json")) p)) = 2%nat
  ∧ ∃ msg,
      m_history (exec (loadConversation (qs "odd.json")) p) !! 1%nat = Some msg
      ∧ role msg = User ∧ timestamp msg = NullDateTime.
Proof.
  cbv zeta.
  destruct (loadConversation_lenient (J := documentText)
              (withFileSystem
                 (mkFileSystem (J := documentText)
                    (<[qs "odd.json"
                       := ArrayDocument
                            [Double (Whole 7);
                             Object (<[qs "content" := String (qs "hi")]> ∅)]]>
                       ∅) ∅ ∅)
                 Sample.panel)
              (qs "odd.json")
              (ArrayDocument
                 [Double (Whole 7);
                  Object (<[qs "content" := String (qs "hi")]> ∅)])
              [Double (Whole 7);
               Object (<[qs "content" := String (qs "hi")]> ∅)]
              1%nat (Object (<[qs "content" := String (qs "hi")]> ∅)))
    as (Hr & Hlen & msg & Hi & _ & Hobj);
    [vm_compute; reflexivity | reflexivity | reflexivity |].
  destruct (Hobj _ eq_refl) as (Hrole & _ & Hstamp).
  split; [exact Hr|]. split; [exact Hlen|]. exists msg.
  split; [exact Hi|]. split.
  - apply Hrole. intros d. vm_compute. discriminate.
  - apply Hstamp. intros t. vm_compute. discriminate.
Defined.


(** X10 on the new sample panel. *)
Lemma clear_while_waiting_sample :
  let cleared :=
    run [CallSendMessage (qs "How do I extrude?"); CallClearConversation]
      Sample.panel in
  m_history cleared = []
  ∧ length (m_messagesLayout cleared) = 2%nat
  ∧ m_isWaitingForResponse cleared = true
  ∧ m_loadingBubble cleared = Some 2%nat.
Proof.
  cbv zeta.
  destruct (clear_while_waiting (J := documentText) Sample.panel
              (qs "How do I extrude?"))
    as (Hh & Hl & Hw & _ & _ & Hb & _);
    [apply reachable_new | vm_compute; reflexivity | reflexivity |].
  cbv zeta in Hl. rewrite Hh, Hl, Hw, Hb. repeat split.
Defined.

(** X15: nothing of the text is escaped. *)
Lemma formatContent_plain_sample :
  formatContent (qs "Use <Pad> & <Pocket>") = qs "Use <Pad> & <Pocket>".
Proof. apply formatContent_plain. vm_compute. reflexivity. Defined.


(** X14: the loading bubble of the waiting sample panel says
    "Thinking...". *)
Lemma bubbles_show_their_messages_sample :
  let loading := mkMessage Assistant [] (Sample.clockAt 2) true in
  m_contentLabel (AIChatBubble_new loading)
  = labelOf (m_message (AIChatBubble_new loading)).
Proof.
  cbv zeta.
  apply (bubbles_show_their_messages (J := documentText) Sample.asked
           reachable_asked 2%nat).
  apply (list_elem_of_lookup_2 _ 2%nat). vm_compute. reflexivity.
Defined.

(** X18: a double click on the header, the end of the animation, a click
    on the collapse button. *)
Lemma collapse_signals_alternate_sample :
  let c :=
    collapseRun [DoubleClickHeader; AnimationFinished; CallToggleCollapsed]
      (Collapsible_new 300) in
  length (collapseSignals c) = length (started c)
  ∧ m_isCollapsed c = Nat.odd (length (started c))
  ∧ (∀ i sig, collapseSignals c !! i = Some sig →
       sig = collapseStateChanged (Nat.even i))
  ∧ (∀ i a, started c !! i = Some a →
       if Nat.even i then endValue a = 0
       else startValue a = 0 ∧ 0 < endValue a)
  ∧ collapseToolTip c
    = (if m_isCollapsed c then tr (qs "Expand panel")
       else tr (qs "Collapse panel")).
Proof.
  exact (collapse_signals_alternate _
           (collapseReachable_run
              [DoubleClickHeader; AnimationFinished; CallToggleCollapsed]
              _ (collapseReachable_new 300))).
Defined.

(** X19: collapsed at height 300, squeezed to nothing, expanded. *)
Lemma expanding_restores_height_sample :
  started
    (setCollapsed false
       (collapseRun [AnimationFinished; Resized 0]
          (setCollapsed true (Collapsible_new 300))))
  = [mkAnimation 300 0; mkAnimation 0 300].
Proof.
  destruct (expanding_restores_height (Collapsible_new 300)
              [AnimationFinished; Resized 0])
    as (_ & H & _); [reflexivity | reflexivity |].
  exact H.
Defined.

(** While a panel waits for the reply to a message it was sent when new,
    its loading bubble is the third item of the layout, before the
    stretch. *)
Lemma LoadingBubbleTaken_asked (message : QString) :
  isEmpty (trimmed message) = false →
  let p := exec (sendMessage (J := documentText) message) Sample.panel in
  LoadingBubbleTaken (m_loadingBubble p) (m_messagesLayout p)
    (take 2 (m_messagesLayout p) ++ [SpacerItem]).
Proof.
  intros H. cbv zeta. rewrite sendMessage_sends by (exact H || reflexivity).
  cbn [m_loadingBubble m_messagesLayout].
  apply (taken_bubble _ _ [_; _] [SpacerItem]); apply holds_nowhere; reflexivity.
Qed.

(** X20: "Show me a SKETCH" is sent; its timer is the fourth in the queue;
    when it fires the reply about sketches is appended. *)
Lemma reply_selected_by_keyword_sample :
  let message := qs "Show me a SKETCH" in
  let asked := exec (sendMessage message) Sample.panel in
  timers asked
  = [ScrollTimer; ScrollTimer; ScrollTimer; ResponseTimer message]
  ∧ m_history (exec (fire 3) asked)
    = m_history asked
      ++ [mkMessage Assistant sketchResponse (Sample.clockAt 3) false]
  ∧ length (m_messagesLayout (exec (fire 3) asked)) = 4%nat.
Proof.
  cbv zeta.
  destruct (reply_selected_by_keyword (J := documentText)
              (qs "Show me a SKETCH")) as [Hq Hf].
  split.
  - rewrite Hq by reflexivity. reflexivity.
  - destruct (Hf (exec (sendMessage (qs "Show me a SKETCH")) Sample.panel)
                3%nat
                (take 2 (m_messagesLayout
                           (exec (sendMessage (qs "Show me a SKETCH"))
                              Sample.panel)))
                SpacerItem)
      as (reply & Hsel & Hh & Hl & _);
      [reflexivity | apply LoadingBubbleTaken_asked; reflexivity |].
    rewrite Hh, Hl. split; [|reflexivity].
    assert (Hhelp : ¬ mentions (qs "Show me a SKETCH") (qs "help"))
      by (apply contains_not_mentions; reflexivity).
    assert (Hsketch : mentions (qs "Show me a SKETCH") (qs "sketch"))
      by (apply contains_mentions; reflexivity).
    destruct Hsel as [[H _]|[(_ & _ & ->)|[(_ & H & _)|(_ & H & _)]]];
      [contradiction | reflexivity | contradiction | contradiction].
Defined.

(** X21: a reply with error 203 arrives while the sample panel waits. *)
Lemma reply_error_shown_sample :
  let reply := mkReply 203 (qs "Not Found") in
  let p' := exec (onApiReplyFinished reply) Sample.asked in
  emitted p' = emitted Sample.asked ++ [errorOccurred (qs "Not Found")]
  ∧ m_isWaitingForResponse p' = false
  ∧ m_sendButton p' = true
  ∧ loadingBubbles p' = 0%nat.
Proof.
  destruct (reply_error_shown (J := documentText) Sample.asked
              (mkReply 203 (qs "Not Found"))
              (take 2 (m_messagesLayout Sample.asked)) SpacerItem)
    as (He & Hl & _ & Hw & Hb & _);
    [discriminate
    | apply (LoadingBubbleTaken_asked (qs "How do I extrude?")); reflexivity |].
  cbv zeta. split; [exact He|]. split; [exact Hw|]. split; [exact Hb|].
  unfold loadingBubbles. rewrite Hl. vm_compute. reflexivity.
Defined.
